(** * PDF_Validator: the response normalizer and the rule loop of the Groq server

    A shallow embedding of [extractJSON], [validateWithLLM] and the rule loop
    of the [/api/validate] handler, as written in the server variant that
    calls the Groq API (the one that defines [extractJSON]), together with
    the properties of the verdicts they build.

    Conventions of the embedding.
    - A JavaScript string is a [string]; its characters stand for the UTF-16
      code units U+0000 to U+00FF.
    - [-1] results and index arithmetic are kept in [Z], as the code has them.
    - What the engine provides and the repository does not define (the Number
      type, [JSON.parse], the network) is a parameter of the development:
      the general statements hold for every engine. A reference instance,
      which closes the definitions, is used for the closed examples.
    - [console.log] and [console.error] calls write to the process log only
      and are left out. *)

From Stdlib Require Import ZArith List Bool Ascii String Lia DecimalString DecimalPos.
Import ListNotations.
Open Scope string_scope.
Open Scope Z_scope.

(** ** Strings: the built-ins the server calls *)

Module JSString.

(** [\s] of a regular expression and the characters removed by [trim]: TAB,
    LF, VT, FF, CR, SPACE and NBSP are the ones below U+0100. *)
Definition isWhiteSpace (c : ascii) : bool :=
  match N_of_ascii c with
  | 9%N | 10%N | 11%N | 12%N | 13%N | 32%N | 160%N => true
  | _ => false
  end.

Fixpoint trimStart (s : string) : string :=
  match s with
  | String c s' => if isWhiteSpace c then trimStart s' else s
  | EmptyString => EmptyString
  end.

Fixpoint trimEnd (s : string) : string :=
  match s with
  | String c s' =>
      match trimEnd s' with
      | EmptyString => if isWhiteSpace c then EmptyString else String c EmptyString
      | t => String c t
      end
  | EmptyString => EmptyString
  end.

(** [String.prototype.trim] *)
Definition trim (s : string) : string := trimEnd (trimStart s).

Definition len (s : string) : Z := Z.of_nat (String.length s).

(** [String.prototype.substring(start, end)]: both indices are clamped to
    [0 .. length] and swapped when [start > end]. *)
Definition substring (s : string) (start end_ : Z) : string :=
  let finalStart := Z.min (Z.max start 0) (len s) in
  let finalEnd := Z.min (Z.max end_ 0) (len s) in
  let from := Z.min finalStart finalEnd in
  let to := Z.max finalStart finalEnd in
  String.substring (Z.to_nat from) (Z.to_nat (to - from)) s.

(** [s.indexOf(p)] scanning from position [i] of the original string. *)
Fixpoint indexOf_from (p s : string) (i : Z) : Z :=
  if String.prefix p s then i
  else match s with
       | String _ s' => indexOf_from p s' (i + 1)
       | EmptyString => -1
       end.

Definition indexOf (s p : string) : Z := indexOf_from p s 0.

(** [s.lastIndexOf(p)]: the greatest position at which [p] occurs. *)
Fixpoint lastIndexOf_from (p s : string) (i best : Z) : Z :=
  let best' := if String.prefix p s then i else best in
  match s with
  | String _ s' => lastIndexOf_from p s' (i + 1) best'
  | EmptyString => best'
  end.

Definition lastIndexOf (s p : string) : Z := lastIndexOf_from p s 0 (-1).

(** [s.includes(p)] *)
Definition includes (s p : string) : bool := negb (indexOf s p =? -1).

(** Lower-casing of one code unit: A-Z, and the Latin-1 capitals U+00C0 to
    U+00DE except the multiplication sign U+00D7. *)
Definition toLowerCase_char (c : ascii) : ascii :=
  let n := N_of_ascii c in
  if ((65 <=? n) && (n <=? 90))%N then ascii_of_N (n + 32)
  else if ((192 <=? n) && (n <=? 222) && negb (n =? 215))%N then ascii_of_N (n + 32)
  else c.

(** [String.prototype.toLowerCase] *)
Fixpoint toLowerCase (s : string) : string :=
  match s with
  | String c s' => String (toLowerCase_char c) (toLowerCase s')
  | EmptyString => EmptyString
  end.

(** Canonicalize of a case-insensitive regular expression without the [u]
    flag: the upper-case code unit, when it is a single one in range. *)
Definition Canonicalize (c : ascii) : ascii :=
  let n := N_of_ascii c in
  if ((97 <=? n) && (n <=? 122))%N then ascii_of_N (n - 32)
  else if ((224 <=? n) && (n <=? 254) && negb (n =? 247))%N then ascii_of_N (n - 32)
  else c.

Definition char_matches (ignoreCase : bool) (p c : ascii) : bool :=
  if ignoreCase then Ascii.eqb (Canonicalize p) (Canonicalize c) else Ascii.eqb p c.

(** Matching the literal part of a pattern at the head of [s]: the rest of
    [s] after it. *)
Fixpoint match_literal (ignoreCase : bool) (lit s : string) : option string :=
  match lit with
  | EmptyString => Some s
  | String p lit' =>
      match s with
      | String c s' =>
          if char_matches ignoreCase p c then match_literal ignoreCase lit' s' else None
      | EmptyString => None
      end
  end.

(** The pattern [lit\s*] at the head of [s]: the number of characters the
    (greedy) match consumes. *)
Definition match_length (ignoreCase : bool) (lit s : string) : option nat :=
  match match_literal ignoreCase lit s with
  | Some rest => Some (String.length s - String.length (trimStart rest))%nat
  | None => None
  end.

(** [s.replace(/lit\s*/g, '')]: matches are found from left to right and do
    not overlap; [skip] counts the characters of the current match that are
    still to be dropped. *)
Fixpoint replace_go (ignoreCase : bool) (lit : string) (skip : nat) (s : string) : string :=
  match s with
  | EmptyString => EmptyString
  | String c s' =>
      match skip with
      | S k => replace_go ignoreCase lit k s'
      | O =>
          match match_length ignoreCase lit s with
          | Some (S k) => replace_go ignoreCase lit k s'
          | _ => String c (replace_go ignoreCase lit 0 s')
          end
      end
  end.

Definition replace_all (ignoreCase : bool) (lit s : string) : string :=
  replace_go ignoreCase lit 0 s.

(** Characters that no match of [lit\s*] can contain: not white space and
    not matched by any character of the literal. *)
Fixpoint literal_avoids (ignoreCase : bool) (lit : string) (c : ascii) : bool :=
  match lit with
  | String p lit' => negb (char_matches ignoreCase p c) && literal_avoids ignoreCase lit' c
  | EmptyString => true
  end.

Definition inert (ignoreCase : bool) (lit : string) (c : ascii) : bool :=
  negb (isWhiteSpace c) && literal_avoids ignoreCase lit c.

(** Strings made of white space only. *)
Fixpoint all_whitespace (w : string) : bool :=
  match w with
  | String c w' => isWhiteSpace c && all_whitespace w'
  | EmptyString => true
  end.

End JSString.

(** ** [extractJSON] *)

Definition fence : string := "```".
Definition fence_json : string := "```json".

(** The first statement of [extractJSON]: both [replace] calls and [trim]. *)
Definition strip_fences (text : string) : string :=
  JSString.trim
    (JSString.replace_all false fence (JSString.replace_all true fence_json text)).

(** The [catch] branch of the source is unreachable (no call in the [try]
    block raises on a string) and is not modelled. *)
Definition extractJSON (text : string) : string :=
  let text := strip_fences text in
  let jsonStart := JSString.indexOf text "{" in
  let jsonEnd := JSString.lastIndexOf text "}" in
  let text :=
    if negb (jsonStart =? -1) && negb (jsonEnd =? -1) && (jsonEnd >? jsonStart)
    then JSString.substring text jsonStart (jsonEnd + 1)
    else text in
  JSString.trim text.

(** Examples write JSON text with ['] in place of the double quote. *)
Definition json_text (s : string) : string :=
  let fix go (s : string) : string :=
    match s with
    | String c s' => String (if Ascii.eqb c "'" then "034"%char else c) (go s')
    | EmptyString => EmptyString
    end in
  go s.

Definition newline : string := String "010" EmptyString.

(** The decimal numeral of an integer, as Number::toString prints a Number
    with an integer value of magnitude below [10^21]. *)
Definition Z_to_string (z : Z) : string := NilZero.string_of_int (Z.to_int z).

(** ** Completions: a value or a thrown error

    The server only ever reads the [message] of an error it catches, so a
    thrown error is represented by its message. *)

Inductive Completion (A : Type) : Type :=
| Return (a : A)
| Throw (message : string).
Arguments Return {A} a.
Arguments Throw {A} message.

Definition bind {A B : Type} (c : Completion A) (k : A -> Completion B) : Completion B :=
  match c with
  | Return a => k a
  | Throw m => Throw m
  end.

Declare Scope js_scope.
Delimit Scope js_scope with js.
Notation "x <- c ;; k" := (bind c (fun x => k))
  (at level 61, c at next level, right associativity) : js_scope.
Open Scope js_scope.

(** ** Values

    The engine's Number type is a parameter: its IEEE doubles are only
    observed through [ToBoolean], [ToString] and the literal [50] of the
    source. *)

Class Engine : Type := {
  number : Type;
  (** ToBoolean on a Number: false for [+0], [-0] and [NaN]. *)
  Number_ToBoolean : number -> bool;
  (** Number::toString in radix 10. *)
  Number_toString : number -> string;
  (** The Number denoted by an integer literal of the source text. *)
  Number_ofZ : Z -> number
}.

Section Values.
Context {E : Engine}.

#[local] Set Warnings "-register-all".

Inductive JSValue : Type :=
| JUndefined
| JNull
| JBoolean (b : bool)
| JNumber (n : number)
| JString (s : string)
| JArray (elements : list JSValue)
| JObject (props : list (string * JSValue)).

(** An object built by [JSON.parse] is written as the list of its members in
    source order; of two members with equal names the later one is the
    property. *)
Fixpoint own_property (props : list (string * JSValue)) (k : string) : option JSValue :=
  match props with
  | [] => None
  | (k', v) :: rest =>
      match own_property rest k with
      | Some v' => Some v'
      | None => if String.eqb k k' then Some v else None
      end
  end.

Definition ToBoolean (v : JSValue) : bool :=
  match v with
  | JUndefined | JNull => false
  | JBoolean b => b
  | JNumber n => Number_ToBoolean n
  | JString s => negb (String.eqb s EmptyString)
  | JArray _ | JObject _ => true
  end.

Definition TypeError_primitive : string := "Cannot convert object to primitive value".

(** [String(v)] and the conversion of a template literal. An array is
    joined with commas, [null] and [undefined] elements giving the empty
    string. An object has [Object.prototype.toString] unless a member named
    [toString] shadows it; no value of a parsed document is callable, so in
    that case neither [toString] nor [valueOf] yields a primitive and the
    conversion throws a TypeError. *)
Fixpoint ToString (v : JSValue) : Completion string :=
  match v with
  | JUndefined => Return "undefined"
  | JNull => Return "null"
  | JBoolean b => Return (if b then "true" else "false")
  | JNumber n => Return (Number_toString n)
  | JString s => Return s
  | JArray elements =>
      (fix join (first : bool) (l : list JSValue) : Completion string :=
         match l with
         | [] => Return EmptyString
         | x :: l' =>
             sx <- match x with
                   | JUndefined | JNull => Return EmptyString
                   | _ => ToString x
                   end ;;
             rest <- join false l' ;;
             Return ((if first then EmptyString else ",") ++ sx ++ rest)
         end) true elements
  | JObject props =>
      match own_property props "toString" with
      | Some _ => Throw TypeError_primitive
      | None => Return "[object Object]"
      end
  end.

Definition TypeError_read (base k : string) : string :=
  "Cannot read properties of " ++ base ++ " (reading '" ++ k ++ "')".

(** [v.k] for a name [k] that no built-in prototype defines and that is not
    an array index (all the names the server reads are of this kind). *)
Definition Get (v : JSValue) (k : string) : Completion JSValue :=
  match v with
  | JUndefined => Throw (TypeError_read "undefined" k)
  | JNull => Throw (TypeError_read "null" k)
  | JObject props =>
      match own_property props k with
      | Some x => Return x
      | None => Return JUndefined
      end
  | _ => Return JUndefined
  end.

(** [v[0]] *)
Definition Get0 (v : JSValue) : Completion JSValue :=
  match v with
  | JUndefined => Throw (TypeError_read "undefined" "0")
  | JNull => Throw (TypeError_read "null" "0")
  | JArray (x :: _) => Return x
  | JString (String c _) => Return (JString (String c EmptyString))
  | JObject props =>
      match own_property props "0" with
      | Some x => Return x
      | None => Return JUndefined
      end
  | _ => Return JUndefined
  end.

(** [result.k1 || result.k2 || ... || default] *)
Fixpoint first_truthy (result : JSValue) (keys : list string) (default : JSValue)
  : Completion JSValue :=
  match keys with
  | [] => Return default
  | k :: keys' =>
      v <- Get result k ;;
      if ToBoolean v then Return v else first_truthy result keys' default
  end.

End Values.

(** ** [parseInt], [Math.max], [Math.min]

    [parseInt] yields [NaN] or an integer. The engine rounds a large integer
    to the nearest double (and can yield [-0]); rounding is monotone and
    fixes 0 and 100, and [Math.max(0, -0)] is [+0], so the clamped value
    computed on [Z] is the one the engine computes. *)

Inductive IntOrNaN : Type :=
| NaN
| Int (z : Z).

Definition digit_value (c : ascii) : option Z :=
  let n := Z.of_N (N_of_ascii c) in
  if (48 <=? n) && (n <=? 57) then Some (n - 48)
  else if (97 <=? n) && (n <=? 122) then Some (n - 97 + 10)
  else if (65 <=? n) && (n <=? 90) then Some (n - 65 + 10)
  else None.

(** The longest prefix of [s] made of digits of the radix, read as a number;
    [acc] is [None] until a digit has been read. *)
Fixpoint parse_digits (radix : Z) (s : string) (acc : option Z) : option Z :=
  match s with
  | String c s' =>
      match digit_value c with
      | Some d =>
          if d <? radix
          then parse_digits radix s' (Some (match acc with Some a => a * radix + d | None => d end))
          else acc
      | None => acc
      end
  | EmptyString => acc
  end.

(** [parseInt(s)] on a string, without a radix argument. *)
Definition parseInt_string (s : string) : IntOrNaN :=
  let s := JSString.trimStart s in
  let '(sign, s) :=
    match s with
    | String "-" r => (-1, r)
    | String "+" r => (1, r)
    | _ => (1, s)
    end in
  let '(radix, s) :=
    match s with
    | String "0" (String "x" r) => (16, r)
    | String "0" (String "X" r) => (16, r)
    | _ => (10, s)
    end in
  match parse_digits radix s None with
  | Some z => Int (sign * z)
  | None => NaN
  end.

Definition Math_max0 (x : IntOrNaN) : IntOrNaN :=
  match x with
  | NaN => NaN
  | Int z => Int (Z.max 0 z)
  end.

Definition Math_min100 (x : IntOrNaN) : IntOrNaN :=
  match x with
  | NaN => NaN
  | Int z => Int (Z.min 100 z)
  end.

(** ** The verdict and the normalizer (the body of [validateWithLLM] from the
    reply's content on) *)

Record Verdict : Type := {
  rule : string;
  status : string;
  evidence : string;
  reasoning : string;
  confidence : IntOrNaN
}.

Class JSON (E : Engine) : Type := {
  (** [JSON.parse]: the value, or the message of the SyntaxError. *)
  JSON_parse : string -> JSValue + string
}.

Section Normalizer.
Context {E : Engine} {J : JSON E}.

(** [parseInt(v)]: the argument is converted to a string first. *)
Definition parseInt (v : JSValue) : Completion IntOrNaN :=
  s <- ToString v ;;
  Return (parseInt_string s).

(** The fallback built in the [catch (parseError)] block. *)
Definition parse_failure (rule_ message content : string) : Verdict :=
  {| rule := rule_;
     status := "fail";
     evidence := "Unable to parse LLM response";
     reasoning := "Parse error: " ++ message ++ ". Raw content: "
                  ++ JSString.substring content 0 100;
     confidence := Int 0 |}.

(** The property names read for each field, in the order of the [||]
    chains. *)
Definition status_keys : list string := ["status"; "Status"].
Definition evidence_keys : list string := ["evidence"; "Evidence"; "quote"].
Definition reasoning_keys : list string := ["reasoning"; "Reasoning"; "reason"].
Definition confidence_keys : list string := ["confidence"; "Confidence"; "score"].

(** [(status === 'pass' || status === 'fail') ? status : 'fail'] *)
Definition validStatus (status_ : string) : string :=
  if String.eqb status_ "pass" || String.eqb status_ "fail" then status_ else "fail".

(** Validate and normalize fields: from [const status = ...] to the final
    [return]. *)
Definition normalize_fields (result : JSValue) (rule_ : string) : Completion Verdict :=
  v <- first_truthy result status_keys (JString "fail") ;;
  s <- ToString v ;;
  let status_ := JSString.toLowerCase s in
  v <- first_truthy result evidence_keys (JString "No evidence provided") ;;
  s <- ToString v ;;
  let evidence_ := JSString.substring s 0 200 in
  v <- first_truthy result reasoning_keys (JString "No reasoning provided") ;;
  s <- ToString v ;;
  let reasoning_ := JSString.substring s 0 200 in
  confidenceRaw <- first_truthy result confidence_keys (JNumber (Number_ofZ 50)) ;;
  n <- parseInt confidenceRaw ;;
  let confidence_ := Math_min100 (Math_max0 n) in
  Return {| rule := rule_;
            status := validStatus status_;
            evidence := evidence_;
            reasoning := reasoning_;
            confidence := confidence_ |}.

(** From [content = extractJSON(content)] on, for the already trimmed
    content of the reply. *)
Definition normalize_content (content rule_ : string) : Completion Verdict :=
  let content := extractJSON content in
  match JSON_parse content with
  | inr message => Return (parse_failure rule_ message content)
  | inl result => normalize_fields result rule_
  end.

(** The normalizer on the raw text of the reply: the [trim] of
    [data.choices[0].message.content.trim()] and what follows it. *)
Definition normalize (rawText rule_ : string) : Completion Verdict :=
  normalize_content (JSString.trim rawText) rule_.

End Normalizer.

(** ** The completion call and the rule loop

    The network is a parameter: a state [World] and the outcome of one
    [fetch] in it. The model records the requests sent and the pauses taken
    in a trace. *)

Definition dq : string := String "034" EmptyString.

Definition completions_url : string := "https://api.groq.com/openai/v1/chat/completions".

(** The request of [validateWithLLM]; the sampling temperature 0.2 is a
    constant of every request and is not part of the record. *)
Record Request : Type := {
  url : string;
  authorization : string;
  model : string;
  system_content : string;
  user_content : string;
  max_tokens : Z
}.

Inductive Event : Type :=
| Fetched (req : Request)
| Waited (ms : Z).

Section Server.
Context {E : Engine} {J : JSON E}.

(** What [await response.json()] gives: the parsed body, or a rejection. *)
Inductive Body : Type :=
| JsonBody (v : JSValue)
| JsonRejected (message : string).

(** What [await fetch(...)] gives: a rejection (the network failed), or a
    response with its [ok] flag and body. *)
Inductive FetchOutcome : Type :=
| FetchRejected (message : string)
| Response (ok : bool) (body : Body).

Class Network : Type := {
  World : Type;
  fetch : Request -> World -> FetchOutcome * World
}.
Context {N : Network}.

Record State : Type := {
  world : World;
  trace : list Event
}.

Definition Async (A : Type) : Type := State -> Completion A * State.

Definition ret {A : Type} (a : A) : Async A := fun st => (Return a, st).
Definition throw {A : Type} (message : string) : Async A := fun st => (Throw message, st).
Definition lift {A : Type} (c : Completion A) : Async A := fun st => (c, st).

Definition bindA {A B : Type} (c : Async A) (k : A -> Async B) : Async B :=
  fun st =>
    match c st with
    | (Return a, st') => k a st'
    | (Throw m, st') => (Throw m, st')
    end.

(** [try { c } catch (error) { handler(error.message) }] *)
Definition try_catch {A : Type} (c : Async A) (handler : string -> Async A) : Async A :=
  fun st =>
    match c st with
    | (Return a, st') => (Return a, st')
    | (Throw m, st') => handler m st'
    end.

Definition await_fetch (req : Request) : Async (bool * Body) :=
  fun st =>
    let '(out, w) := fetch req (world st) in
    let st' := {| world := w; trace := trace st ++ [Fetched req] |} in
    match out with
    | FetchRejected m => (Throw m, st')
    | Response ok body => (Return (ok, body), st')
    end.

Definition await_json (body : Body) : Async JSValue :=
  match body with
  | JsonBody v => ret v
  | JsonRejected m => throw m
  end.

(** [await new Promise(resolve => setTimeout(resolve, ms))] *)
Definition await_timeout (ms : Z) : Async unit :=
  fun st => (Return tt, {| world := world st; trace := trace st ++ [Waited ms] |}).

Declare Scope async_scope.
Notation "x <- c ;; k" := (bindA c (fun x => k))
  (at level 61, c at next level, right associativity) : async_scope.
Notation "c ;; k" := (bindA c (fun _ => k))
  (at level 61, right associativity) : async_scope.
Delimit Scope async_scope with async.

Definition systemPrompt : string :=
  "You are a document validation assistant. You MUST respond with ONLY a JSON object, nothing else."
  ++ newline ++ "The JSON must have exactly these fields:"
  ++ newline ++ "- status: either " ++ dq ++ "pass" ++ dq ++ " or " ++ dq ++ "fail" ++ dq
  ++ newline ++ "- evidence: a relevant quote from the document"
  ++ newline ++ "- reasoning: brief explanation"
  ++ newline ++ "- confidence: a number between 0-100"
  ++ newline
  ++ newline ++ "Example response format:"
  ++ newline ++ "{" ++ dq ++ "status" ++ dq ++ ":" ++ dq ++ "pass" ++ dq ++ ","
  ++ dq ++ "evidence" ++ dq ++ ":" ++ dq
  ++ "The document states 'Purpose: To establish guidelines'" ++ dq ++ ","
  ++ dq ++ "reasoning" ++ dq ++ ":" ++ dq
  ++ "Document contains a clear purpose statement" ++ dq ++ ","
  ++ dq ++ "confidence" ++ dq ++ ":95}".

Definition userPrompt (pdfText rule_ : string) : string :=
  "Check if this document meets the rule: " ++ dq ++ rule_ ++ dq
  ++ newline
  ++ newline ++ "Document text (first 4000 characters):"
  ++ newline ++ JSString.substring pdfText 0 4000
  ++ newline
  ++ newline ++ "Respond with ONLY the JSON object, no other text.".

Definition completion_request (apiKey pdfText rule_ : string) : Request :=
  {| url := completions_url;
     authorization := "Bearer " ++ apiKey;
     model := "llama-3.3-70b-versatile";
     system_content := systemPrompt;
     user_content := userPrompt pdfText rule_;
     max_tokens := 400 |}.

(** [errorData.error?.message || 'Unknown error'] inside the template
    literal of the error message. *)
Definition api_error_message (errorData : JSValue) : Completion string :=
  e <- Get errorData "error" ;;
  m <- match e with
       | JUndefined | JNull => Return JUndefined
       | _ => Get e "message"
       end ;;
  s <- ToString (if ToBoolean m then m else JString "Unknown error") ;;
  Return ("Groq API error: " ++ s).

(** [data.choices[0].message.content.trim()]: only a string has a [trim]
    method. *)
Definition reply_content (data : JSValue) : Completion string :=
  choices <- Get data "choices" ;;
  c0 <- Get0 choices ;;
  message <- Get c0 "message" ;;
  content <- Get message "content" ;;
  match content with
  | JString s => Return (JSString.trim s)
  | JUndefined => Throw (TypeError_read "undefined" "trim")
  | JNull => Throw (TypeError_read "null" "trim")
  | _ => Throw "data.choices[0].message.content.trim is not a function"
  end.

(** The [try] block of [validateWithLLM]. *)
Definition validateWithLLM_try (apiKey pdfText rule_ : string) : Async Verdict :=
  (response <- await_fetch (completion_request apiKey pdfText rule_) ;;
   let '(ok, body) := response in
   if negb ok then
     errorData <- await_json body ;;
     m <- lift (api_error_message errorData) ;;
     throw m
   else
     data <- await_json body ;;
     choices <- lift (Get data "choices") ;;
     c0 <- (if negb (ToBoolean choices) then ret JUndefined else lift (Get0 choices)) ;;
     if negb (ToBoolean choices) || negb (ToBoolean c0) then
       throw "Invalid response structure from Groq"
     else
       content <- lift (reply_content data) ;;
       lift (normalize_content content rule_))%async.

(** The [catch (error)] block of [validateWithLLM]. *)
Definition validateWithLLM_catch (message : string) : Async Verdict :=
  if JSString.includes message "401" then throw "Invalid API key"
  else if JSString.includes message "429" then throw "Rate limit exceeded"
  else if JSString.includes message "quota" then throw "API quota exceeded"
  else throw message.

(** [process.env]: a variable is a string or is not set. *)
Record ProcessEnv : Type := {
  GROQ_API_KEY : option string
}.

Definition not_configured : string := "Groq API key not configured in .env file".

(** [!apiKey] holds for an unset variable and for the empty string. *)
Definition validateWithLLM (env : ProcessEnv) (pdfText rule_ : string) : Async Verdict :=
  match GROQ_API_KEY env with
  | None => throw not_configured
  | Some apiKey =>
      if String.eqb apiKey EmptyString then throw not_configured
      else try_catch (validateWithLLM_try apiKey pdfText rule_) validateWithLLM_catch
  end.

(** The verdict pushed in the [catch] block of the rule loop. *)
Definition error_verdict (rule_ message : string) : Verdict :=
  {| rule := rule_;
     status := "error";
     evidence := "N/A";
     reasoning := message;
     confidence := Int 0 |}.

(** One iteration of the loop body up to the pause:
    [try { results.push(await validateWithLLM(...)) } catch { results.push(...) }]. *)
Definition validate_rule (env : ProcessEnv) (pdfText rule_ : string) : Async Verdict :=
  try_catch (validateWithLLM env pdfText rule_)
            (fun message => ret (error_verdict rule_ message)).

(** [for (let i = 0; i < parsedRules.length; i++)]: [rest] is
    [parsedRules] from index [i] on, [length] is [parsedRules.length], and
    [results] is the array filled by [push]. *)
Fixpoint validate_loop (env : ProcessEnv) (pdfText : string) (length : nat)
    (i : nat) (rest : list string) (results : list Verdict) : Async (list Verdict) :=
  match rest with
  | [] => ret results
  | rule_ :: rest' =>
      (result <- validate_rule env pdfText rule_ ;;
       let results := (results ++ [result])%list in
       (if (Z.of_nat i <? Z.of_nat length - 1) then await_timeout 1000 else ret tt) ;;
       validate_loop env pdfText length (S i) rest' results)%async
  end.

(** The rule loop of the [/api/validate] handler, for an array of rule
    strings. *)
Definition validate_rules (env : ProcessEnv) (pdfText : string) (parsedRules : list string)
  : Async (list Verdict) :=
  validate_loop env pdfText (List.length parsedRules) 0 parsedRules [].

End Server.

(** ** Vocabulary of the statements *)

(** A reply made of the text [obj] inside a [```json] fence: white space
    [w1] after the opening fence and [w2] before the closing one. *)
Definition fenced (w1 obj w2 : string) : string :=
  fence_json ++ w1 ++ obj ++ w2 ++ fence.

Section Vocabulary.
Context {E : Engine}.

(** [n] is the Number of the integer [c], as far as the server can tell:
    it is falsy exactly when [c] is zero and prints as the numeral of [c]. *)
Definition Number_is (n : number) (c : Z) : Prop :=
  Number_ToBoolean n = negb (c =? 0) /\ Number_toString n = Z_to_string c.

(** The member [k] is missing or its value is falsy. *)
Definition falsy_at (props : list (string * JSValue)) (k : string) : Prop :=
  match own_property props k with
  | Some x => ToBoolean x = false
  | None => True
  end.

(** In the chain [keys], the member [k] is the first with a truthy value,
    and that value is [v]. *)
Definition supplies (props : list (string * JSValue)) (keys : list string)
    (k : string) (v : JSValue) : Prop :=
  exists before after,
    keys = (before ++ k :: after)%list
    /\ Forall (falsy_at props) before
    /\ own_property props k = Some v
    /\ ToBoolean v = true.

(** What the chain [keys] selects in [props]: the value of its first truthy
    member, or nothing when no member is truthy. *)
Definition selects (props : list (string * JSValue)) (keys : list string)
    (o : option JSValue) : Prop :=
  match o with
  | Some v => exists k, supplies props keys k v
  | None => Forall (falsy_at props) keys
  end.



(** The literal [50] of the source is the Number 50. *)
Definition fifty_is_50 : Prop := Number_is (Number_ofZ 50) 50.

(** The invariant of the data model: a known status and an integer
    confidence between 0 and 100 (the five fields are those of the record). *)
Definition well_formed (v : Verdict) : Prop :=
  (status v = "pass" \/ status v = "fail" \/ status v = "error")
  /\ exists z, confidence v = Int z /\ 0 <= z <= 100.

End Vocabulary.

(** The credential is absent when the variable is unset or empty. *)
Definition credential_absent (env : ProcessEnv) : Prop :=
  GROQ_API_KEY env = None \/ GROQ_API_KEY env = Some EmptyString.

(** ** A reference engine for the closed examples

    Numbers are exact decimals, which is what the engine's doubles print as
    for literals of at most 15 significant digits in the normal range (such
    a decimal is the shortest one that reads back as its double); code
    units above U+00FF in [\u] escapes are outside the alphabet of the model
    and rejected. Error messages are the engine's own; the reference gives
    V8's usual wording. *)

Module Reference.

Inductive refnum : Type :=
| RInt (z : Z)
| RNegZero
(** [+/- digits * 10^(-scale)], [digits] not a multiple of ten *)
| RFrac (negative : bool) (digits : positive) (scale : positive).

Fixpoint strip_trailing_zeros (s : string) : string :=
  match s with
  | String c s' =>
      match strip_trailing_zeros s' with
      | EmptyString => if Ascii.eqb c "0" then EmptyString else String c EmptyString
      | t => String c t
      end
  | EmptyString => EmptyString
  end.

Fixpoint zeros (n : nat) : string :=
  match n with
  | O => EmptyString
  | S n' => String "0" (zeros n')
  end.

(** Scientific notation of Number::toString: [d.ddd e+x] for the digit
    string [ds] of a number whose decimal point follows its [n]-th digit. *)
Definition exponential (ds : string) (n : Z) : string :=
  let mantissa :=
    match ds with
    | String d EmptyString => String d EmptyString
    | String d rest => String d ("." ++ rest)
    | EmptyString => EmptyString
    end in
  mantissa ++ (if 0 <? n - 1 then "e+" ++ Z_to_string (n - 1) else "e-" ++ Z_to_string (1 - n)).

Definition refnum_toString (x : refnum) : string :=
  match x with
  | RNegZero => "0"
  | RInt z =>
      if Z.abs z <? 10 ^ 21 then Z_to_string z
      else
        let ds := Z_to_string (Z.abs z) in
        (if z <? 0 then "-" else EmptyString)
        ++ exponential (strip_trailing_zeros ds) (JSString.len ds)
  | RFrac negative digits scale =>
      let ds := Z_to_string (Z.pos digits) in
      let k := JSString.len ds in
      let n := k - Z.pos scale in
      (if negative then "-" else EmptyString)
      ++ (if (0 <? n) && (n <=? 21) then
            JSString.substring ds 0 n ++ "." ++ JSString.substring ds n k
          else if (-6 <? n) && (n <=? 0) then
            "0." ++ zeros (Z.to_nat (- n)) ++ ds
          else exponential ds n)
  end.

Definition refnum_ToBoolean (x : refnum) : bool :=
  match x with
  | RInt z => negb (z =? 0)
  | RNegZero => false
  | RFrac _ _ _ => true
  end.

#[export] Instance engine : Engine := {|
  number := refnum;
  Number_ToBoolean := refnum_ToBoolean;
  Number_toString := refnum_toString;
  Number_ofZ := RInt
|}.

(** *** [JSON.parse] *)

Inductive PResult (A : Type) : Type :=
| POk (a : A) (rest : string)
(** the input from the offending token on *)
| PErr (rest : string).
Arguments POk {A} a rest.
Arguments PErr {A} rest.

Fixpoint skip_ws (s : string) : string :=
  match s with
  | String c s' =>
      match N_of_ascii c with
      | 9%N | 10%N | 13%N | 32%N => skip_ws s'
      | _ => s
      end
  | EmptyString => EmptyString
  end.

Definition is_digit (c : ascii) : bool :=
  let n := N_of_ascii c in ((48 <=? n) && (n <=? 57))%N.

(** The digits at the head of [s] and what follows them. *)
Fixpoint take_digits (s : string) : string * string :=
  match s with
  | String c s' =>
      if is_digit c then let '(ds, r) := take_digits s' in (String c ds, r)
      else (EmptyString, s)
  | EmptyString => (EmptyString, EmptyString)
  end.

Fixpoint digits_value (ds : string) (acc : Z) : Z :=
  match ds with
  | String c ds' => digits_value ds' (acc * 10 + (Z.of_N (N_of_ascii c) - 48))
  | EmptyString => acc
  end.

(** Dividing [m * 10^(-scale)] by tens while it stays integral. *)
Fixpoint normalize_decimal (fuel : nat) (m scale : Z) : Z * Z :=
  match fuel with
  | S fuel' =>
      if (0 <? scale) && (m mod 10 =? 0) then normalize_decimal fuel' (m / 10) (scale - 1)
      else (m, scale)
  | O => (m, scale)
  end.

Definition make_number (negative : bool) (int_part frac_part : string) (exp : Z) : refnum :=
  let m := digits_value (int_part ++ frac_part) 0 in
  let e := exp - JSString.len frac_part in
  if m =? 0 then (if negative then RNegZero else RInt 0)
  else if 0 <=? e then RInt ((if negative then -1 else 1) * m * 10 ^ e)
  else
    let '(m', scale) := normalize_decimal (Z.to_nat (- e)) m (- e) in
    if scale =? 0 then RInt ((if negative then -1 else 1) * m')
    else RFrac negative (Z.to_pos m') (Z.to_pos scale).

(** A number token: an optional minus sign, an integer part without a
    leading zero, an optional fraction and an optional exponent. *)
Definition parse_number (s : string) : PResult refnum :=
  let '(negative, s1) :=
    match s with
    | String "-" r => (true, r)
    | _ => (false, s)
    end in
  let '(int_part, s2) := take_digits s1 in
  match int_part with
  | EmptyString => PErr s1
  | String "0" (String _ _) => PErr (JSString.substring s1 1 (JSString.len s1))
  | _ =>
      let frac :=
        match s2 with
        | String "." r =>
            let '(fs, r') := take_digits r in
            match fs with
            | EmptyString => PErr r
            | _ => POk fs r'
            end
        | _ => POk EmptyString s2
        end in
      match frac with
      | PErr r => PErr r
      | POk frac_part s3 =>
          let exponent (r : string) (sign : Z) (otherwise : PResult refnum) :=
            let '(es, r') := take_digits r in
            match es with
            | EmptyString => otherwise
            | _ => POk (make_number negative int_part frac_part (sign * digits_value es 0)) r'
            end in
          match s3 with
          | String e r =>
              if Ascii.eqb e "e" || Ascii.eqb e "E" then
                match r with
                | String "+" r' => exponent r' 1 (PErr r')
                | String "-" r' => exponent r' (-1) (PErr r')
                | _ => exponent r 1 (PErr r)
                end
              else POk (make_number negative int_part frac_part 0) s3
          | EmptyString => POk (make_number negative int_part frac_part 0) s3
          end
      end
  end.

Definition hex_value (c : ascii) : option Z :=
  match digit_value c with
  | Some d => if d <? 16 then Some d else None
  | None => None
  end.

(** The characters of a string literal after its opening quote. *)
Fixpoint parse_string (s : string) : PResult string :=
  match s with
  | EmptyString => PErr s
  | String "034" r => POk EmptyString r
  | String "\" (String "u" (String a (String b (String c (String d r))))) =>
      match hex_value a, hex_value b, hex_value c, hex_value d with
      | Some 0, Some 0, Some x, Some y =>
          match parse_string r with
          | POk t r' => POk (String (ascii_of_N (Z.to_N (16 * x + y))) t) r'
          | PErr r' => PErr r'
          end
      | _, _, _, _ => PErr s
      end
  | String "\" (String e r) =>
      let unescaped :=
        match e with
        | "034"%char => Some "034"%char
        | "\"%char => Some "\"%char
        | "/"%char => Some "/"%char
        | "b"%char => Some "008"%char
        | "f"%char => Some "012"%char
        | "n"%char => Some "010"%char
        | "r"%char => Some "013"%char
        | "t"%char => Some "009"%char
        | _ => None
        end in
      match unescaped with
      | Some c =>
          match parse_string r with
          | POk t r' => POk (String c t) r'
          | PErr r' => PErr r'
          end
      | None => PErr (String e r)
      end
  | String c r =>
      if (N_of_ascii c <? 32)%N then PErr s
      else match parse_string r with
           | POk t r' => POk (String c t) r'
           | PErr r' => PErr r'
           end
  end.

Definition parse_keyword (word : string) (v : JSValue) (s : string) : PResult JSValue :=
  match JSString.match_literal false word s with
  | Some r => POk v r
  | None => PErr s
  end.

Fixpoint parse_value (fuel : nat) (s : string) : PResult JSValue :=
  match fuel with
  | O => PErr s
  | S fuel' =>
      match skip_ws s with
      | String "{" r =>
          match skip_ws r with
          | String "}" r' => POk (JObject []) r'
          | r' => parse_members fuel' r' []
          end
      | String "[" r =>
          match skip_ws r with
          | String "]" r' => POk (JArray []) r'
          | r' => parse_elements fuel' r' []
          end
      | String "034" r =>
          match parse_string r with
          | POk t r' => POk (JString t) r'
          | PErr r' => PErr r'
          end
      | String "t" _ as s' => parse_keyword "true" (JBoolean true) s'
      | String "f" _ as s' => parse_keyword "false" (JBoolean false) s'
      | String "n" _ as s' => parse_keyword "null" JNull s'
      | s' =>
          match parse_number s' with
          | POk x r' => POk (JNumber x) r'
          | PErr r' => PErr r'
          end
      end
  end
with parse_elements (fuel : nat) (s : string) (acc : list JSValue) : PResult JSValue :=
  match fuel with
  | O => PErr s
  | S fuel' =>
      match parse_value fuel' s with
      | PErr r => PErr r
      | POk v r =>
          match skip_ws r with
          | String "," r' => parse_elements fuel' r' (acc ++ [v])%list
          | String "]" r' => POk (JArray (acc ++ [v])%list) r'
          | r' => PErr r'
          end
      end
  end
with parse_members (fuel : nat) (s : string) (acc : list (string * JSValue))
  : PResult JSValue :=
  match fuel with
  | O => PErr s
  | S fuel' =>
      match skip_ws s with
      | String "034" r =>
          match parse_string r with
          | PErr r1 => PErr r1
          | POk k r1 =>
              match skip_ws r1 with
              | String ":" r2 =>
                  match parse_value fuel' r2 with
                  | PErr r3 => PErr r3
                  | POk v r3 =>
                      match skip_ws r3 with
                      | String "," r' => parse_members fuel' r' (acc ++ [(k, v)])%list
                      | String "}" r' => POk (JObject (acc ++ [(k, v)])%list) r'
                      | r' => PErr r'
                      end
                  end
              | r2 => PErr r2
              end
          end
      | r => PErr r
      end
  end.

Definition SyntaxError_message (text rest : string) : string :=
  match rest with
  | EmptyString => "Unexpected end of JSON input"
  | String c _ =>
      "Unexpected token " ++ String c EmptyString ++ " in JSON at position "
      ++ Z_to_string (JSString.len text - JSString.len rest)
  end.

Definition parse (text : string) : JSValue + string :=
  match parse_value (2 * String.length text + 2) text with
  | POk v rest =>
      match skip_ws rest with
      | EmptyString => inl v
      | rest' => inr (SyntaxError_message text rest')
      end
  | PErr rest => inr (SyntaxError_message text rest)
  end.

#[export] Instance json : JSON engine := {| JSON_parse := parse |}.

(** *** A scripted network: the outcomes of the successive requests *)

#[export] Instance network : Network := {|
  World := list FetchOutcome;
  fetch := fun _ w =>
    match w with
    | out :: w' => (out, w')
    | [] => (FetchRejected "fetch failed", [])
    end
|}.

(** The envelope of a chat completion whose reply is [content]. *)
Definition completion (content : string) : FetchOutcome :=
  Response true
    (JsonBody (JObject [("choices",
       JArray [JObject [("message", JObject [("content", JString content)])]])])).

Definition start (outcomes : list FetchOutcome) : State :=
  {| world := outcomes; trace := [] |}.

(** The scenario of the documentation: a rule and a reply of the model. *)
Definition purpose_rule : string := "The document must state a purpose.".

Definition purpose_reply : string :=
  json_text ("{'status':'pass','evidence':'Purpose: to define onboarding steps.',"
             ++ "'reasoning':'Document opens with an explicit purpose statement.',"
             ++ "'confidence':93}").

(** Parsed replies used in the examples. *)
Definition canonical_props : list (string * JSValue) :=
  [("status", JString "pass"); ("evidence", JString "e");
   ("reasoning", JString "r"); ("confidence", JNumber (RInt 87))].

Definition synonym_props : list (string * JSValue) :=
  [("Status", JString "PASS"); ("quote", JString "q");
   ("evidence", JString EmptyString); ("score", JNumber (RInt 87))].

Definition falsy_props : list (string * JSValue) :=
  [("status", JString "pass"); ("evidence", JString EmptyString);
   ("reasoning", JString EmptyString); ("confidence", JNumber (RInt 0))].

Definition maybe_props : list (string * JSValue) := [("status", JString "Maybe")].

Definition high_props : list (string * JSValue) :=
  [("status", JString "pass"); ("confidence", JString "high")].

(** The verdict of a reply that leaves every field to its default. *)
Definition default_verdict (status_ : string) : Verdict :=
  {| rule := purpose_rule;
     status := status_;
     evidence := "No evidence provided";
     reasoning := "No reasoning provided";
     confidence := Int 50 |}.

Definition configured : ProcessEnv := {| GROQ_API_KEY := Some "gsk_test" |}.
Definition unconfigured : ProcessEnv := {| GROQ_API_KEY := None |}.

End Reference.

(** ** Vocabulary of the further statements *)

(** What may follow a number for [parseInt] to stop reading: nothing, or a
    character that is neither a digit nor a letter. *)
Definition ends_number (rest : string) : bool :=
  match rest with
  | String ch _ =>
      match digit_value ch with
      | Some _ => false
      | None => true
      end
  | EmptyString => true
  end.

Section FurtherVocabulary.
Context {E : Engine}.

(** Values other than objects that have properties to read: on them every
    property the normalizer reads is [undefined]. *)
Definition is_plain (v : JSValue) : bool :=
  match v with
  | JBoolean _ | JNumber _ | JString _ | JArray _ => true
  | JUndefined | JNull | JObject _ => false
  end.

(** Values that are not objects or arrays. *)
Definition is_primitive (v : JSValue) : bool :=
  match v with
  | JUndefined | JNull | JBoolean _ | JNumber _ | JString _ => true
  | JArray _ | JObject _ => false
  end.




End FurtherVocabulary.

(** The capital of a lower-case ASCII letter. *)
Definition capital (w : ascii) : ascii := ascii_of_N (N_of_ascii w - 32).

(** [s] is the lower-case ASCII word [word] written in any mix of upper and
    lower case: character by character, the letter of [word] or its
    capital. *)
Fixpoint spells (word s : string) : bool :=
  match word, s with
  | EmptyString, EmptyString => true
  | String w word', String c s' =>
      (Ascii.eqb c w || Ascii.eqb c (capital w)) && spells word' s'
  | _, _ => false
  end.

(** The requests of a batch in order, with the pause taken between two
    consecutive ones. *)
Fixpoint paced (requests : list Request) : list Event :=
  match requests with
  | [] => []
  | req :: rest =>
      Fetched req :: match rest with
                     | [] => []
                     | _ :: _ => Waited 1000 :: paced rest
                     end
  end.

(** The credential is configured with the key [apiKey]. *)
Definition configured_with (env : ProcessEnv) (apiKey : string) : Prop :=
  GROQ_API_KEY env = Some apiKey /\ apiKey <> EmptyString.

(** ** The endpoints *)

(** [req.file] as multer's disk storage fills it: the name the client gave
    and the path of the stored copy. *)
Module Upload.
Record t : Type := {
  originalname : string;
  path : string
}.
End Upload.

(** [extractPdfText(filePath)]: the text that [pdf-parse] finds in the
    bytes of the file, or the message of the error of [fs.readFileSync] or
    of [pdf-parse]. *)
Class PdfReader : Type := {
  extractPdfText : string -> Completion string
}.

(** The request as the handler of [/api/validate] reads it: [req.file] is
    [undefined] when no file came with the request, and [req.body.rules] is
    the text field [rules] of the form, [undefined] when it was not sent. *)
Record ValidateRequest : Type := {
  req_file : option Upload.t;
  req_rules : option string
}.

(** The comparisons of the loop index with a [length] that is not the
    length of an array or of a string but a member of a parsed object: any
    value of a parsed document. *)
Class Relational (E : Engine) : Type := {
  (** [i < v] for the index [i] and a value [v] whose conversion to a
      string does not throw. *)
  index_lt : nat -> JSValue -> bool;
  (** [i < v - 1] for the same. *)
  index_lt_pred : nat -> JSValue -> bool
}.

Section Endpoints.
Context {E : Engine} {J : JSON E} {N : Network} {P : PdfReader} {R : Relational E}.

(** An element of [results]: the member [rule] is the element of
    [parsedRules] itself, of whatever type; the other members are those of
    a verdict. *)
Record Result : Type := {
  result_rule : JSValue;
  result_status : string;
  result_evidence : string;
  result_reasoning : string;
  result_confidence : IntOrNaN
}.

(** The object handed to [res.json]. *)
Inductive Payload : Type :=
| ErrorPayload (error : string)
| ResultsPayload (results : list Result).

(** [res.status(code).json(payload)]; [res.json] alone answers 200. *)
Record Reply : Type := {
  code : Z;
  payload : Payload
}.

(** What the handler has done when it ends: the reply sent, and the path
    handed to [fs.unlink], if any. *)
Record Handled : Type := {
  reply : Reply;
  unlinked : option string
}.

(** The verdict computed for the string of a rule, with the rule itself in
    the member [rule]. *)
Definition result_of (ruleValue : JSValue) (v : Verdict) : Result :=
  {| result_rule := ruleValue;
     result_status := status v;
     result_evidence := evidence v;
     result_reasoning := reasoning v;
     result_confidence := confidence v |}.

(** A verdict for a rule that is a string, as an element of [results]. *)
Definition pushed (v : Verdict) : Result := result_of (JString (rule v)) v.

(** [validateWithLLM(pdfText, rule)] for a rule of any type. After the
    check of the key, the template literals of the log and of the prompt
    convert the rule to a string, which throws for a rule that has no
    string; the rest of the function works on that string, and the object
    returned carries the rule itself. *)
Definition validateWithLLM_value (env : ProcessEnv) (pdfText : string)
    (ruleValue : JSValue) : Async Result :=
  match GROQ_API_KEY env with
  | None => throw not_configured
  | Some apiKey =>
      if String.eqb apiKey EmptyString then throw not_configured
      else
        bindA (lift (ToString ruleValue)) (fun shown =>
        bindA (validateWithLLM env pdfText shown) (fun v =>
        ret (result_of ruleValue v)))
  end.

(** The object pushed in the [catch] block of the rule loop. *)
Definition error_result (ruleValue : JSValue) (message : string) : Result :=
  {| result_rule := ruleValue;
     result_status := "error";
     result_evidence := "N/A";
     result_reasoning := message;
     result_confidence := Int 0 |}.

(** The [try] and [catch] of the loop body. The [catch] block begins with
    a log whose template literal converts the rule to a string: for a rule
    that has no string this throws out of the loop. *)
Definition validate_value (env : ProcessEnv) (pdfText : string) (ruleValue : JSValue)
  : Async Result :=
  try_catch (validateWithLLM_value env pdfText ruleValue)
            (fun message =>
               bindA (lift (ToString ruleValue)) (fun shown =>
               ret (error_result ruleValue message))).

(** [s[0]], [s[1]], ... of a string. *)
Fixpoint characters (s : string) : list string :=
  match s with
  | EmptyString => []
  | String c s' => String c EmptyString :: characters s'
  end.

(** The log [Rules to validate: ${parsedRules.length}] after [JSON.parse]:
    reading [length] of [null] throws, and so does the conversion of a
    member [length] that has no string. *)
Definition rules_logged (parsedRules : JSValue) : Completion unit :=
  match parsedRules with
  | JUndefined => Throw (TypeError_read "undefined" "length")
  | JNull => Throw (TypeError_read "null" "length")
  | JObject props =>
      match own_property props "length" with
      | Some len => shown <- ToString len ;; Return tt
      | None => Return tt
      end
  | _ => Return tt
  end.

(** [i < parsedRules.length]: an array and a string have their length; a
    number, a boolean and an object without a member [length] have none,
    and [i < undefined] is false. *)
Definition index_below (i : nat) (parsedRules : JSValue) : bool :=
  match parsedRules with
  | JArray elements => Z.of_nat i <? Z.of_nat (List.length elements)
  | JString s => Z.of_nat i <? Z.of_nat (String.length s)
  | JObject props =>
      match own_property props "length" with
      | Some len => index_lt i len
      | None => false
      end
  | _ => false
  end.

(** [i < parsedRules.length - 1] *)
Definition pause_due (i : nat) (parsedRules : JSValue) : bool :=
  match parsedRules with
  | JArray elements => Z.of_nat i <? Z.of_nat (List.length elements) - 1
  | JString s => Z.of_nat i <? Z.of_nat (String.length s) - 1
  | JObject props =>
      match own_property props "length" with
      | Some len => index_lt_pred i len
      | None => false
      end
  | _ => false
  end.

(** [parsedRules[i]]: the element of an array, the character of a string,
    the member of an object named by the numeral of [i]. *)
Definition rule_at (parsedRules : JSValue) (i : nat) : JSValue :=
  match parsedRules with
  | JArray elements => nth i elements JUndefined
  | JString s =>
      match String.get i s with
      | Some c => JString (String c EmptyString)
      | None => JUndefined
      end
  | JObject props =>
      match own_property props (Z_to_string (Z.of_nat i)) with
      | Some x => x
      | None => JUndefined
      end
  | _ => JUndefined
  end.

(** [for (let i = 0; i < parsedRules.length; i++)] from the index [i] on,
    [results] being the array filled so far. With a member [length] that
    is, say, [1e999] the loop does not end: [fuel] bounds the number of
    times the loop test is evaluated, and [None] says that the loop is
    still running after them. A
    turn that throws ends the loop. The index is a natural number here;
    the Number [i] of the source is that number as long as it is below
    2^53. *)
Fixpoint validate_value_loop (fuel : nat) (env : ProcessEnv) (pdfText : string)
    (parsedRules : JSValue) (i : nat) (results : list Result) (st : State)
  : option (Completion (list Result) * State) :=
  match fuel with
  | O => None
  | S fuel' =>
      if index_below i parsedRules then
        match validate_value env pdfText (rule_at parsedRules i) st with
        | (Throw message, st1) => Some (Throw message, st1)
        | (Return result, st1) =>
            let results := (results ++ [result])%list in
            let st2 := snd ((if pause_due i parsedRules
                             then await_timeout 1000 else ret tt) st1) in
            validate_value_loop fuel' env pdfText parsedRules (S i) results st2
        end
      else Some (Return results, st)
  end.

Definition respond (code_ : Z) (message : string) : Handled :=
  {| reply := {| code := code_; payload := ErrorPayload message |};
     unlinked := None |}.

(** The handler of [POST /api/validate]. The two guards answer 400; what
    is thrown after them is caught at the end and answered with 500; the
    file is unlinked after the loop only. The result is [None] when the
    loop is still running after [fuel] evaluations of its test. *)
Definition validate_handler (fuel : nat) (env : ProcessEnv) (req : ValidateRequest)
    (st : State) : option (Handled * State) :=
  match req_file req with
  | None => Some (respond 400 "No PDF uploaded", st)
  | Some file =>
      match req_rules req with
      | None => Some (respond 400 "No validation rules provided", st)
      | Some rules =>
          if String.eqb rules EmptyString then
            Some (respond 400 "No validation rules provided", st)
          else
            match JSON_parse rules with
            | inr message => Some (respond 500 message, st)
            | inl parsedRules =>
                match rules_logged parsedRules with
                | Throw message => Some (respond 500 message, st)
                | Return _ =>
                    match extractPdfText (Upload.path file) with
                    | Throw message => Some (respond 500 message, st)
                    | Return pdfText =>
                        match validate_value_loop fuel env pdfText parsedRules 0 [] st with
                        | None => None
                        | Some (Return results, st') =>
                            Some ({| reply := {| code := 200;
                                                 payload := ResultsPayload results |};
                                     unlinked := Some (Upload.path file) |}, st')
                        | Some (Throw message, st') => Some (respond 500 message, st')
                        end
                    end
                end
            end
      end
  end.

End Endpoints.

Arguments ErrorPayload {E} error.
Arguments respond {E} code_ message.

(** The object the handler of [GET /api/health] sends. *)
Module Health.
Record t : Type := {
  status : string;
  message : string;
  apiKeyConfigured : bool
}.
End Health.

(** [!!process.env.GROQ_API_KEY] *)
Definition health (env : ProcessEnv) : Health.t :=
  {| Health.status := "ok";
     Health.message := "Server is running with Groq API";
     Health.apiKeyConfigured :=
       match GROQ_API_KEY env with
       | Some apiKey => negb (String.eqb apiKey EmptyString)
       | None => false
       end |}.

(** ** Sample data of the further examples *)

Module Sample.
Import Reference.

(** A reader that knows one stored upload. *)
Definition stored_path : string := "uploads/1730000000000-policy.pdf".
Definition stored_text : string := "Purpose: to define onboarding steps.".

#[export] Instance pdf_reader : PdfReader := {|
  extractPdfText := fun filePath =>
    if String.eqb filePath stored_path then Return stored_text
    else Throw ("ENOENT: no such file or directory, open '" ++ filePath ++ "'")
|}.

Definition policy : Upload.t :=
  {| Upload.originalname := "policy.pdf"; Upload.path := stored_path |}.

Definition lost : Upload.t :=
  {| Upload.originalname := "lost.pdf"; Upload.path := "uploads/lost.pdf" |}.

Definition two_rules : string := json_text "['Has a purpose','Has a date']".

Definition fail_reply : string :=
  json_text "{'status':'fail','evidence':'e','reasoning':'r','confidence':20}".

Definition pass_verdict (rule_ : string) : Verdict :=
  {| rule := rule_; status := "pass";
     evidence := "Purpose: to define onboarding steps.";
     reasoning := "Document opens with an explicit purpose statement.";
     confidence := Int 93 |}.


(** The Number of a string, for the comparisons of the reference engine:
    not a number, an infinity, or an exact decimal. *)
Inductive extnum : Type :=
| XNaN
| XInfinity (negative : bool)
| XFinite (x : refnum).

(** The digits of a binary, octal or hexadecimal literal. *)
Fixpoint radix_digits (radix : Z) (s : string) (acc : Z) : option Z :=
  match s with
  | EmptyString => Some acc
  | String c s' =>
      match digit_value c with
      | Some d => if d <? radix then radix_digits radix s' (acc * radix + d) else None
      | None => None
      end
  end.

Definition radix_literal (radix : Z) (s : string) : extnum :=
  match s with
  | EmptyString => XNaN
  | _ =>
      match radix_digits radix s 0 with
      | Some z => XFinite (RInt z)
      | None => XNaN
      end
  end.

(** An unsigned decimal literal: [Infinity], or digits with an optional
    fraction and an optional exponent, a digit being required before or
    after the point. *)
Definition decimal_literal (negative : bool) (s : string) : extnum :=
  if String.eqb s "Infinity" then XInfinity negative
  else
    let '(int_part, r1) := take_digits s in
    let '(frac_part, r2) :=
      match r1 with
      | String "." r => take_digits r
      | _ => (EmptyString, r1)
      end in
    match int_part, frac_part with
    | EmptyString, EmptyString => XNaN
    | _, _ =>
        match r2 with
        | EmptyString => XFinite (make_number negative int_part frac_part 0)
        | String e r3 =>
            if Ascii.eqb e "e" || Ascii.eqb e "E" then
              let '(sign, r4) :=
                match r3 with
                | String "+" r => (1, r)
                | String "-" r => (-1, r)
                | _ => (1, r3)
                end in
              let '(es, r5) := take_digits r4 in
              match es, r5 with
              | String _ _, EmptyString =>
                  XFinite (make_number negative int_part frac_part (sign * digits_value es 0))
              | _, _ => XNaN
              end
            else XNaN
        end
    end.

(** StringToNumber: white space around the literal is dropped and the
    empty string is zero. *)
Definition string_ToNumber (s : string) : extnum :=
  match JSString.trim s with
  | EmptyString => XFinite (RInt 0)
  | String "0" (String "x" r) | String "0" (String "X" r) => radix_literal 16 r
  | String "0" (String "o" r) | String "0" (String "O" r) => radix_literal 8 r
  | String "0" (String "b" r) | String "0" (String "B" r) => radix_literal 2 r
  | String "-" r => decimal_literal true r
  | String "+" r => decimal_literal false r
  | t => decimal_literal false t
  end.

(** ToNumber on a value of a parsed document whose string conversion does
    not throw: an array and an object go through their string. *)
Definition value_ToNumber (v : JSValue) : extnum :=
  match v with
  | JUndefined => XNaN
  | JNull => XFinite (RInt 0)
  | JBoolean b => XFinite (RInt (if b then 1 else 0))
  | JNumber n => XFinite n
  | JString s => string_ToNumber s
  | JArray _ | JObject _ =>
      match ToString v with
      | Return s => string_ToNumber s
      | Throw _ => XNaN
      end
  end.

(** [i < x] for an index [i]. *)
Definition index_lt_extnum (i : nat) (x : extnum) : bool :=
  match x with
  | XNaN => false
  | XInfinity negative => negb negative
  | XFinite (RInt z) => Z.of_nat i <? z
  | XFinite RNegZero => false
  | XFinite (RFrac negative digits scale) =>
      negb negative && (Z.of_nat i * 10 ^ Z.pos scale <? Z.pos digits)
  end.

(** The numbers of this engine being exact, [i < v - 1] is [i + 1 < v]. *)
#[export] Instance relational : Relational engine := {|
  index_lt := fun i v => index_lt_extnum i (value_ToNumber v);
  index_lt_pred := fun i v => index_lt_extnum (S i) (value_ToNumber v)
|}.


(** [n] copies of [s]. *)
Fixpoint copies (n : nat) (s : string) : string :=
  match n with
  | O => EmptyString
  | S n' => s ++ copies n' s
  end.

(** A document of 4000 characters. *)
Definition long_document : string := copies 400 "0123456789".

(** The body of an error response of the provider. *)
Definition provider_error (message : string) : FetchOutcome :=
  Response false (JsonBody (JObject [("error", JObject [("message", JString message)])])).

(** The verdict of the reply [synonym_props]. *)
Definition synonym_verdict : Verdict :=
  {| rule := purpose_rule; status := "pass"; evidence := "q";
     reasoning := "No reasoning provided"; confidence := Int 87 |}.

(** A reply whose confidence is a percentage written as a string. *)
Definition percent_props : list (string * JSValue) :=
  [("status", JString "pass"); ("confidence", JString " 85%")].

(** The state before a batch of two rules, with the two replies to come. *)
Definition two_replies : State :=
  start [completion purpose_reply; completion fail_reply].

(** The request of a rule about the stored document. *)
Definition request_for (rule_ : string) : Request :=
  completion_request "gsk_test" stored_text rule_.

Definition upload_request (file : Upload.t) (rules : string) : ValidateRequest :=
  {| req_file := Some file; req_rules := Some rules |}.

(** Two rules, the second of which has no string. *)
Definition odd_rules : string := json_text "['Has a purpose',{'toString':1}]".

End Sample.
(** * Properties *)

(** ** Strings *)

Module StringFacts.
Import JSString.

Lemma append_nil_r (s : string) : s ++ EmptyString = s.
Proof. induction s; simpl; congruence. Qed.

Lemma append_assoc (a b c : string) : (a ++ b) ++ c = a ++ (b ++ c).
Proof. induction a; simpl; congruence. Qed.

Lemma length_append (a b : string) :
  String.length (a ++ b) = (String.length a + String.length b)%nat.
Proof. induction a; simpl; congruence. Qed.

Lemma trimStart_length (s : string) : (String.length (trimStart s) <= String.length s)%nat.
Proof.
  induction s as [|c s IH]; simpl; [lia|].
  destruct (isWhiteSpace c); simpl; lia.
Qed.

(** A character that is not white space stops [trimStart]. *)
Lemma trimStart_app_stop (r : string) (c : ascii) (b : string) :
  isWhiteSpace c = false ->
  trimStart (r ++ String c b) = trimStart r ++ String c b.
Proof.
  intros Hc. induction r as [|x r IH]; simpl.
  - now rewrite Hc.
  - destruct (isWhiteSpace x); [exact IH | reflexivity].
Qed.

Lemma trimStart_whitespace_app (w s : string) :
  all_whitespace w = true -> trimStart (w ++ s) = trimStart s.
Proof.
  induction w as [|x w IH]; simpl; [reflexivity|].
  intros H. apply andb_prop in H as [Hx Hw]. rewrite Hx. auto.
Qed.

Lemma trimEnd_whitespace (w : string) : all_whitespace w = true -> trimEnd w = EmptyString.
Proof.
  induction w as [|x w IH]; simpl; [reflexivity|].
  intros H. apply andb_prop in H as [Hx Hw]. rewrite (IH Hw), Hx. reflexivity.
Qed.

Lemma trimEnd_app_whitespace (s w : string) :
  all_whitespace w = true -> trimEnd (s ++ w) = trimEnd s.
Proof.
  intros Hw. induction s as [|x s IH]; simpl.
  - now apply trimEnd_whitespace.
  - now rewrite IH.
Qed.

Lemma trimEnd_stop (s : string) (c : ascii) :
  isWhiteSpace c = false -> trimEnd (s ++ String c EmptyString) = s ++ String c EmptyString.
Proof.
  intros Hc. induction s as [|x s IH]; simpl.
  - now rewrite Hc.
  - rewrite IH. destruct s; reflexivity.
Qed.

(** [trim] leaves alone a string that begins and ends with characters that
    are not white space. *)
Lemma trim_fixed (c : ascii) (s : string) (d : ascii) :
  isWhiteSpace c = false -> isWhiteSpace d = false ->
  trim (String c s ++ String d EmptyString) = String c s ++ String d EmptyString.
Proof.
  intros Hc Hd. unfold trim. cbn [append trimStart]. rewrite Hc.
  change (String c (s ++ String d EmptyString)) with (String c s ++ String d EmptyString).
  now apply trimEnd_stop.
Qed.

(** *** Matches of [lit\s*] and characters that no match can contain *)

Lemma match_literal_app_inert (ci : bool) (lit a : string) (c : ascii) (b : string) :
  literal_avoids ci lit c = true ->
  match_literal ci lit (a ++ String c b)
  = match match_literal ci lit a with
    | Some r => Some (r ++ String c b)
    | None => None
    end.
Proof.
  revert a. induction lit as [|p lit IH]; intros a Hc; simpl; [reflexivity|].
  simpl in Hc. apply andb_prop in Hc as [Hp Hl].
  destruct a as [|x a]; simpl.
  - apply negb_true_iff in Hp. now rewrite Hp.
  - destruct (char_matches ci p x); [now apply IH | reflexivity].
Qed.

Lemma match_literal_length (ci : bool) (lit s r : string) :
  match_literal ci lit s = Some r -> (String.length r <= String.length s)%nat.
Proof.
  revert s. induction lit as [|p lit IH]; intros s; simpl.
  - intros [= ->]. lia.
  - destruct s as [|x s]; [discriminate|].
    destruct (char_matches ci p x); [|discriminate].
    intros H. apply IH in H. simpl. lia.
Qed.

Lemma match_length_app_inert (ci : bool) (lit a : string) (c : ascii) (b : string) :
  inert ci lit c = true ->
  match_length ci lit (a ++ String c b) = match_length ci lit a.
Proof.
  unfold inert, match_length. intros H. apply andb_prop in H as [Hw Hl].
  apply negb_true_iff in Hw.
  rewrite match_literal_app_inert by assumption.
  destruct (match_literal ci lit a) as [r|] eqn:Hm; [|reflexivity].
  rewrite trimStart_app_stop by assumption.
  rewrite !length_append. f_equal.
  pose proof (trimStart_length r). apply match_literal_length in Hm. simpl. lia.
Qed.

Lemma match_length_bound (ci : bool) (lit s : string) (n : nat) :
  match_length ci lit s = Some n -> (n <= String.length s)%nat.
Proof.
  unfold match_length. destruct (match_literal ci lit s); [|discriminate].
  intros [= <-]. lia.
Qed.

(** A pending skip drops a prefix of that length. *)
Lemma replace_go_skip (ci : bool) (lit x y : string) :
  replace_go ci lit (String.length x) (x ++ y) = replace_go ci lit 0 y.
Proof. induction x as [|c x IH]; simpl; [reflexivity | exact IH]. Qed.

(** Replacement works on both sides of an inert character independently. *)
Lemma replace_go_app_inert (ci : bool) (lit a : string) (c : ascii) (b : string) (k : nat) :
  inert ci lit c = true -> (k <= String.length a)%nat ->
  replace_go ci lit k (a ++ String c b)
  = replace_go ci lit k a ++ String c (replace_go ci lit 0 b).
Proof.
  intros Hc. revert k. induction a as [|x a IH]; intros k Hk.
  - simpl in Hk. assert (k = 0%nat) as -> by lia.
    cbn [append replace_go].
    pose proof (match_length_app_inert ci lit EmptyString c b Hc) as Hm0.
    cbn [append] in Hm0. rewrite Hm0.
    destruct (match_length ci lit EmptyString) as [[|n]|] eqn:Hm; try reflexivity.
    apply match_length_bound in Hm. simpl in Hm. lia.
  - cbn [append replace_go]. destruct k as [|k].
    + change (String x (a ++ String c b)) with (String x a ++ String c b).
      rewrite (match_length_app_inert ci lit (String x a) c b Hc).
      destruct (match_length ci lit (String x a)) as [[|n]|] eqn:Hm.
      * rewrite IH by lia. reflexivity.
      * apply match_length_bound in Hm. simpl in Hm. rewrite IH by lia. reflexivity.
      * rewrite IH by lia. reflexivity.
    + simpl in Hk. apply IH. lia.
Qed.

Lemma replace_all_app_inert (ci : bool) (lit a : string) (c : ascii) (b : string) :
  inert ci lit c = true ->
  replace_all ci lit (a ++ String c b)
  = replace_all ci lit a ++ String c (replace_all ci lit b).
Proof. intros Hc. unfold replace_all. apply replace_go_app_inert; [assumption | lia]. Qed.

End StringFacts.

Module FenceFacts.
Import JSString StringFacts.

Lemma whitespace_not_backtick (ci : bool) (x : ascii) :
  isWhiteSpace x = true -> char_matches ci "`" x = false.
Proof.
  destruct x as [[] [] [] [] [] [] [] []]; destruct ci; try discriminate; reflexivity.
Qed.

Lemma brace_inert_json : inert true fence_json "}" = true.
Proof. reflexivity. Qed.

Lemma brace_inert_fence : inert false fence "}" = true.
Proof. reflexivity. Qed.

(** A fence at the head of the text goes away together with the white space
    after it. *)
Lemma replace_json_fence_head (w y : string) :
  all_whitespace w = true -> trimStart y = y ->
  replace_all true fence_json (fence_json ++ w ++ y) = replace_all true fence_json y.
Proof.
  intros Hw Hy. unfold replace_all.
  change (fence_json ++ w ++ y) with (String "`" ("``json" ++ w ++ y)).
  cbn [replace_go].
  assert (Hm : match_length true fence_json (String "`" ("``json" ++ w ++ y))
               = Some (S (String.length ("``json" ++ w)))).
  { unfold match_length.
    change (match_literal true fence_json (String "`" ("``json" ++ w ++ y)))
      with (Some (w ++ y)).
    cbv beta iota.
    rewrite trimStart_whitespace_app, Hy by assumption.
    f_equal. cbn [String.length append]. rewrite !length_append. lia. }
  rewrite Hm.
  replace ("``json" ++ w ++ y) with (("``json" ++ w) ++ y) by apply append_assoc.
  apply replace_go_skip.
Qed.

Lemma replace_json_whitespace_fence (w : string) :
  all_whitespace w = true ->
  replace_all true fence_json (w ++ fence) = w ++ fence.
Proof.
  unfold replace_all. induction w as [|x w IH]; [reflexivity|].
  cbn [all_whitespace]. intros H. apply andb_prop in H as [Hx Hw].
  cbn [append replace_go]. unfold match_length. cbn [fence_json match_literal].
  rewrite (whitespace_not_backtick true x Hx). rewrite (IH Hw). reflexivity.
Qed.

Lemma replace_fence_whitespace_fence (w : string) :
  all_whitespace w = true ->
  replace_all false fence (w ++ fence) = w.
Proof.
  unfold replace_all. induction w as [|x w IH]; [reflexivity|].
  cbn [all_whitespace]. intros H. apply andb_prop in H as [Hx Hw].
  cbn [append replace_go]. unfold match_length. cbn [fence match_literal].
  rewrite (whitespace_not_backtick false x Hx). rewrite (IH Hw). reflexivity.
Qed.

Lemma trim_app_brace_whitespace (z w : string) :
  all_whitespace w = true ->
  trim (z ++ String "}" w) = trim (z ++ "}").
Proof.
  intros Hw. unfold trim.
  rewrite !trimStart_app_stop by reflexivity.
  change (String "}" w) with ("}" ++ w).
  rewrite <- append_assoc. now apply trimEnd_app_whitespace.
Qed.

(** The fenced text and the bare object are the same once the fences are
    stripped. *)
Lemma strip_fences_fenced (w1 body w2 : string) :
  all_whitespace w1 = true -> all_whitespace w2 = true ->
  strip_fences (fence_json ++ w1 ++ ("{" ++ body ++ "}") ++ w2 ++ fence)
  = strip_fences ("{" ++ body ++ "}").
Proof.
  intros H1 H2. unfold strip_fences.
  rewrite replace_json_fence_head by (assumption || reflexivity).
  change (("{" ++ body ++ "}") ++ w2 ++ fence)
    with (String "{" ((body ++ "}") ++ w2 ++ fence)).
  rewrite (append_assoc body "}" (w2 ++ fence)).
  change (String "{" (body ++ "}" ++ w2 ++ fence))
    with (String "{" body ++ String "}" (w2 ++ fence)).
  change ("{" ++ body ++ "}") with (String "{" body ++ String "}" EmptyString).
  rewrite !(replace_all_app_inert true fence_json) by apply brace_inert_json.
  rewrite replace_json_whitespace_fence by assumption.
  rewrite !(replace_all_app_inert false fence) by apply brace_inert_fence.
  rewrite replace_fence_whitespace_fence by assumption.
  change (replace_all false fence EmptyString) with EmptyString.
  change (replace_all true fence_json EmptyString) with EmptyString.
  now apply trim_app_brace_whitespace.
Qed.

Lemma trim_fenced (w1 obj w2 : string) :
  trim (fence_json ++ w1 ++ obj ++ w2 ++ fence) = fence_json ++ w1 ++ obj ++ w2 ++ fence.
Proof.
  change fence with ("``" ++ "`").
  rewrite <- !append_assoc.
  change (((((fence_json ++ w1) ++ obj) ++ w2) ++ "``") ++ "`")
    with (String "`" (((("``json" ++ w1) ++ obj) ++ w2) ++ "``") ++ String "`" EmptyString).
  now apply trim_fixed.
Qed.

Lemma trim_object (body : string) : trim ("{" ++ body ++ "}") = "{" ++ body ++ "}".
Proof.
  change ("{" ++ body ++ "}") with (String "{" body ++ String "}" EmptyString).
  now apply trim_fixed.
Qed.

End FenceFacts.

Section FencedReplies.
Context {E : Engine} {J : JSON E}.
Import FenceFacts.

(** C7. A reply made of a JSON object (a text from an opening to a closing
    brace) inside a [```json] fence, with any white space between the fences
    and the object, is normalized to the very same result as the bare
    object. *)
Theorem fenced_reply_same_verdict (w1 body w2 rule_ : string) :
  JSString.all_whitespace w1 = true -> JSString.all_whitespace w2 = true ->
  normalize (fenced w1 ("{" ++ body ++ "}") w2) rule_
  = normalize ("{" ++ body ++ "}") rule_.
Proof.
  intros H1 H2. unfold fenced, normalize, normalize_content, extractJSON.
  rewrite trim_fenced, trim_object, strip_fences_fenced by assumption.
  reflexivity.
Qed.

End FencedReplies.

(** ** [parseInt] reads back the numeral of an integer *)

Module NumeralFacts.
Import Decimal.

Lemma parse_digits_cons (c : ascii) (s : string) (acc : option Z) (d : Z) :
  digit_value c = Some d -> (d <? 10) = true ->
  parse_digits 10 (String c s) acc
  = parse_digits 10 s (Some (match acc with Some a => a * 10 + d | None => d end)).
Proof. intros Hc Hd. cbn [parse_digits]. now rewrite Hc, Hd. Qed.

Ltac read_digit :=
  cbn [NilEmpty.string_of_uint Pos.of_uint_acc Pos.of_uint];
  erewrite parse_digits_cons by reflexivity;
  match goal with
  | |- context [Z.of_N (N_of_ascii ?c) - 48] =>
      let v := eval vm_compute in (Z.of_N (N_of_ascii c) - 48) in
      change (Z.of_N (N_of_ascii c) - 48) with v
  end.

Lemma parse_digits_acc (d : uint) (acc : positive) :
  parse_digits 10 (NilEmpty.string_of_uint d) (Some (Z.pos acc))
  = Some (Z.pos (Pos.of_uint_acc d acc)).
Proof.
  revert acc. induction d; intros acc; [reflexivity | ..];
    (read_digit; rewrite <- IHd; do 2 f_equal; lia).
Qed.

Lemma parse_digits_zero (d : uint) :
  parse_digits 10 (NilEmpty.string_of_uint d) (Some 0) = Some (Z.of_N (Pos.of_uint d)).
Proof.
  induction d; [reflexivity | ..]; read_digit;
    [exact IHd | apply parse_digits_acc ..].
Qed.

Lemma parse_digits_start (d : uint) :
  d <> Nil ->
  parse_digits 10 (NilEmpty.string_of_uint d) None = Some (Z.of_N (Pos.of_uint d)).
Proof.
  destruct d; intros Hd; [congruence | ..]; read_digit;
    [apply parse_digits_zero | apply parse_digits_acc ..].
Qed.

(** The numeral of a natural number is read in radix 10: it starts with a
    digit, and a leading zero is not followed by an [x]. *)
Lemma parseInt_string_uint (d : uint) :
  d <> Nil ->
  parseInt_string (NilEmpty.string_of_uint d) = Int (Z.of_N (Pos.of_uint d)).
Proof.
  intros Hd. pose proof (parse_digits_start d Hd) as H.
  destruct d as [|d|d|d|d|d|d|d|d|d|d]; [congruence | destruct d | ..];
    cbn [NilEmpty.string_of_uint] in *;
    cbv -[parse_digits NilEmpty.string_of_uint Z.mul Z.of_N Pos.of_uint];
    rewrite H; now rewrite Z.mul_1_l.
Qed.

Lemma parseInt_string_minus_uint (d : uint) :
  d <> Nil ->
  parseInt_string (String "-" (NilEmpty.string_of_uint d)) = Int (- Z.of_N (Pos.of_uint d)).
Proof.
  intros Hd. pose proof (parse_digits_start d Hd) as H.
  destruct d as [|d|d|d|d|d|d|d|d|d|d]; [congruence | destruct d | ..];
    cbn [NilEmpty.string_of_uint] in *;
    cbv -[parse_digits NilEmpty.string_of_uint Z.mul Z.opp Z.of_N Pos.of_uint];
    rewrite H; f_equal; lia.
Qed.

Lemma string_of_uint_nonnil (d : uint) :
  d <> Nil -> NilZero.string_of_uint d = NilEmpty.string_of_uint d.
Proof. destruct d; [congruence | reflexivity ..]. Qed.

(** [parseInt(String(z)) = z] for the numeral of every integer. *)
Lemma parseInt_string_numeral (z : Z) : parseInt_string (Z_to_string z) = Int z.
Proof.
  unfold Z_to_string. destruct z as [|p|p]; [reflexivity | ..];
    cbn [Z.to_int NilZero.string_of_int];
    pose proof (DecimalPos.Unsigned.to_uint_nonnil p) as Hn;
    rewrite string_of_uint_nonnil by assumption.
  - rewrite parseInt_string_uint, DecimalPos.Unsigned.of_to by assumption. reflexivity.
  - rewrite parseInt_string_minus_uint, DecimalPos.Unsigned.of_to by assumption. reflexivity.
Qed.

End NumeralFacts.

(** ** The normalizer *)

Module SubstringFacts.
Import JSString StringFacts.

Lemma substring_0_all (s : string) (m : nat) :
  (String.length s <= m)%nat -> String.substring 0 m s = s.
Proof.
  revert m. induction s as [|c s IH]; intros [|m] H; simpl in *; try reflexivity; try lia.
  f_equal. apply IH. lia.
Qed.

Lemma substring_0_length (s : string) (m : nat) :
  (String.length (String.substring 0 m s) <= m)%nat.
Proof.
  revert m. induction s as [|c s IH]; intros [|m]; simpl; try lia.
  specialize (IH m). lia.
Qed.

(** [s.substring(0, n)] is [s] itself when [s] has at most [n] characters. *)
Lemma substring_whole (s : string) (n : Z) :
  len s <= n -> substring s 0 n = s.
Proof.
  unfold substring, len. intros H.
  rewrite Z.max_id, (Z.min_l 0) by lia.
  rewrite (Z.max_l n 0), (Z.min_r n) by lia.
  rewrite Z.min_l, Z.max_r by lia.
  rewrite Z.sub_0_r, Nat2Z.id. apply substring_0_all. lia.
Qed.

(** [s.substring(0, n)] has at most [n] characters. *)
Lemma substring_bounded (s : string) (n : Z) :
  0 <= n -> len (substring s 0 n) <= n.
Proof.
  unfold substring, len. intros H.
  rewrite Z.max_id, (Z.min_l 0) by lia.
  rewrite (Z.max_l n 0) by lia.
  rewrite Z.min_l, Z.max_r by lia.
  rewrite Z.sub_0_r. change (Z.to_nat 0) with 0%nat.
  pose proof (substring_0_length s (Z.to_nat (Z.min n (Z.of_nat (String.length s))))).
  lia.
Qed.

End SubstringFacts.


(** ** Occurrences, [indexOf], [lastIndexOf], [includes] *)

Module OccurrenceFacts.
Import JSString StringFacts.

Lemma prefix_app (p b : string) : String.prefix p (p ++ b) = true.
Proof.
  induction p as [|c p IH]; cbn; [now destruct b|].
  destruct (ascii_dec c c); [exact IH | congruence].
Qed.

Lemma prefix_inv (p s : string) : String.prefix p s = true -> exists b, s = p ++ b.
Proof.
  revert s. induction p as [|c p IH]; intros s.
  - intros _. now exists s.
  - destruct s as [|d s]; cbn; [discriminate|].
    destruct (ascii_dec c d) as [->|]; [|discriminate].
    intros H. destruct (IH s H) as [b ->]. now exists b.
Qed.

(** [indexOf] answers [-1] or a position from the start of the scan on. *)
Lemma indexOf_from_range (p s : string) (i : Z) :
  indexOf_from p s i = -1 \/ i <= indexOf_from p s i.
Proof.
  revert i. induction s as [|c s IH]; intros i; cbn [indexOf_from].
  - destruct (String.prefix p EmptyString); [right; lia | now left].
  - destruct (String.prefix p (String c s)); [right; lia|].
    destruct (IH (i + 1)) as [H | H]; [now left | right; lia].
Qed.

(** [indexOf] finds nothing exactly when there is no occurrence. *)
Lemma indexOf_from_none (p s : string) (i : Z) :
  0 <= i ->
  (indexOf_from p s i = -1 <-> ~ exists a b, s = a ++ p ++ b).
Proof.
  revert i. induction s as [|c s IH]; intros i Hi; cbn [indexOf_from].
  - destruct (String.prefix p EmptyString) eqn:Hp.
    + split; [lia|]. intros H. exfalso. apply H.
      destruct (prefix_inv _ _ Hp) as [b Hb]. now exists EmptyString, b.
    + split; [|reflexivity]. intros _ (a & b & H).
      destruct a; [|discriminate]. cbn in H. rewrite H, prefix_app in Hp. discriminate.
  - destruct (String.prefix p (String c s)) eqn:Hp.
    + split; [lia|]. intros H. exfalso. apply H.
      destruct (prefix_inv _ _ Hp) as [b Hb]. now exists EmptyString, b.
    + rewrite (IH (i + 1)) by lia. split; intros H (a & b & Hab); apply H.
      * destruct a as [|d a]; cbn in Hab.
        -- rewrite Hab, prefix_app in Hp. discriminate.
        -- injection Hab as _ ->. now exists a, b.
      * exists (String c a), b. cbn. now rewrite Hab.
Qed.

Lemma includes_false (s p : string) :
  includes s p = false <-> ~ exists a b, s = a ++ p ++ b.
Proof.
  unfold includes, indexOf. rewrite <- (indexOf_from_none p s 0) by lia.
  rewrite negb_false_iff. apply Z.eqb_eq.
Qed.

Lemma includes_true (s p : string) :
  includes s p = true <-> exists a b, s = a ++ p ++ b.
Proof.
  split.
  - intros H. destruct (indexOf_from_range p s 0) as [Hn | Hn].
    + unfold includes, indexOf in H. rewrite Hn in H. discriminate.
    + destruct (includes s p) eqn:Hi; [|discriminate].
      assert (Hd : {exists a b, s = a ++ p ++ b} + {~ exists a b, s = a ++ p ++ b}).
      { destruct (Z.eq_dec (indexOf_from p s 0) (-1)) as [He | He].
        - right. now apply (indexOf_from_none p s 0).
        - left. clear H Hi Hn. revert He. generalize 0 at 1.
          induction s as [|c s IH]; intros i; cbn [indexOf_from].
          + destruct (String.prefix p EmptyString) eqn:Hp; [|congruence].
            intros _. destruct (prefix_inv _ _ Hp) as [b Hb]. now exists EmptyString, b.
          + destruct (String.prefix p (String c s)) eqn:Hp.
            * intros _. destruct (prefix_inv _ _ Hp) as [b Hb]. now exists EmptyString, b.
            * intros He. destruct (IH _ He) as (a & b & ->). now exists (String c a), b. }
      destruct Hd as [Hd | Hd]; [exact Hd|].
      apply includes_false in Hd. congruence.
  - intros H. destruct (includes s p) eqn:Hi; [reflexivity|].
    apply includes_false in Hi. contradiction.
Qed.

(** An occurrence in a part is an occurrence in the whole. *)
Lemma includes_app (a s b p : string) :
  includes (a ++ s ++ b) p = false -> includes s p = false.
Proof.
  rewrite !includes_false. intros H (x & y & ->). apply H.
  exists (a ++ x), (y ++ b). now rewrite !append_assoc.
Qed.

End OccurrenceFacts.

Lemma includes_cons_eq (c : ascii) (s p : string) :
  JSString.includes (String c s) p
  = String.prefix p (String c s) || JSString.includes s p.
Proof.
  destruct (String.prefix p (String c s)) eqn:Hp; cbn [orb].
  - apply OccurrenceFacts.includes_true.
    destruct (OccurrenceFacts.prefix_inv _ _ Hp) as [b Hb]. now exists EmptyString, b.
  - destruct (JSString.includes s p) eqn:Hs.
    + apply OccurrenceFacts.includes_true in Hs as (a & b & ->).
      apply OccurrenceFacts.includes_true. now exists (String c a), b.
    + apply OccurrenceFacts.includes_false. intros (a & b & Hab).
      destruct a as [|d a]; cbn in Hab.
      * rewrite Hab, OccurrenceFacts.prefix_app in Hp. discriminate.
      * injection Hab as _ ->. apply OccurrenceFacts.includes_false in Hs.
        apply Hs. now exists a, b.
Qed.

(** ** [trim] *)

Module TrimFacts.
Import JSString StringFacts.

Lemma trimStart_suffix (s : string) : exists w, s = w ++ trimStart s.
Proof.
  induction s as [|c s [w IH]]; [now exists EmptyString|]. cbn.
  destruct (isWhiteSpace c).
  - exists (String c w). cbn. now rewrite <- IH.
  - now exists EmptyString.
Qed.

Lemma trimEnd_prefix (s : string) : exists w, s = trimEnd s ++ w.
Proof.
  induction s as [|c s [w IH]]; [now exists EmptyString|]. cbn.
  destruct (trimEnd s) as [|d t] eqn:Ht.
  - destruct (isWhiteSpace c).
    + now exists (String c s).
    + exists w. cbn. now rewrite IH.
  - exists w. cbn. now rewrite IH.
Qed.

Lemma trim_part (s : string) : exists a b, s = a ++ trim s ++ b.
Proof.
  unfold trim. destruct (trimStart_suffix s) as [a Ha].
  destruct (trimEnd_prefix (trimStart s)) as [b Hb].
  exists a, b. now rewrite <- Hb.
Qed.

Lemma trimEnd_cons (c : ascii) (s : string) :
  isWhiteSpace c = false -> trimEnd (String c s) = String c (trimEnd s).
Proof. intros Hc. cbn. destruct (trimEnd s); [now rewrite Hc | reflexivity]. Qed.

(** A character that is not white space stops [trimEnd]. *)
Lemma trimEnd_app_stop (x : string) (c : ascii) (y : string) :
  isWhiteSpace c = false ->
  trimEnd (x ++ String c y) = x ++ String c (trimEnd y).
Proof.
  intros Hc. induction x as [|d x IH]; cbn [append].
  - now apply trimEnd_cons.
  - cbn [trimEnd]. rewrite IH. destruct x; reflexivity.
Qed.

Lemma trimStart_idempotent (s : string) : trimStart (trimStart s) = trimStart s.
Proof.
  induction s as [|c s IH]; [reflexivity|]. cbn.
  destruct (isWhiteSpace c) eqn:Hc; [exact IH|]. cbn. now rewrite Hc.
Qed.

Lemma trimEnd_cons_kept (c : ascii) (s : string) (d : ascii) (t : string) :
  trimEnd s = String d t -> trimEnd (String c s) = String c (String d t).
Proof. intros H. cbn. now rewrite H. Qed.

Lemma trimEnd_idempotent (s : string) : trimEnd (trimEnd s) = trimEnd s.
Proof.
  induction s as [|c s IH]; [reflexivity|]. cbn.
  destruct (trimEnd s) as [|d t] eqn:Ht.
  - destruct (isWhiteSpace c) eqn:Hc; [reflexivity|]. cbn. now rewrite Hc.
  - now apply trimEnd_cons_kept.
Qed.

Lemma trimStart_cons (c : ascii) (s : string) :
  trimStart (String c s) = if isWhiteSpace c then trimStart s else String c s.
Proof. reflexivity. Qed.

Lemma trim_commute (s : string) : trimStart (trimEnd s) = trimEnd (trimStart s).
Proof.
  induction s as [|c s IH]; [reflexivity|].
  rewrite (trimStart_cons c s). destruct (isWhiteSpace c) eqn:Hc.
  - rewrite <- IH. cbn [trimEnd]. destruct (trimEnd s) as [|d t].
    + now rewrite Hc.
    + now rewrite trimStart_cons, Hc.
  - rewrite (trimEnd_cons c s Hc). now rewrite trimStart_cons, Hc.
Qed.

Lemma trim_idempotent (s : string) : trim (trim s) = trim s.
Proof.
  unfold trim. rewrite (trim_commute (trimStart s)).
  now rewrite trimStart_idempotent, trimEnd_idempotent.
Qed.

End TrimFacts.

(** ** What [replace] leaves *)

Module ReplaceFacts.
Import JSString StringFacts OccurrenceFacts TrimFacts.

Lemma match_literal_split (ci : bool) (lit s r : string) :
  match_literal ci lit s = Some r ->
  exists m, s = m ++ r /\ String.length m = String.length lit.
Proof.
  revert s. induction lit as [|p lit IH]; intros s; cbn.
  - intros [= ->]. now exists EmptyString.
  - destruct s as [|c s]; [discriminate|].
    destruct (char_matches ci p c); [|discriminate].
    intros H. destruct (IH s H) as (m & -> & Hm). exists (String c m). cbn. auto.
Qed.

(** At a match the replacement goes on after the match. *)
Lemma replace_all_match (ci : bool) (p : ascii) (lit s r : string) :
  match_literal ci (String p lit) s = Some r ->
  replace_all ci (String p lit) s = replace_all ci (String p lit) (trimStart r).
Proof.
  intros H. destruct (match_literal_split _ _ _ _ H) as (m & -> & Hm).
  destruct (trimStart_suffix r) as [w Hw].
  destruct m as [|c m]; [discriminate|].
  unfold replace_all. cbn [append replace_go].
  change (String c (m ++ r)) with (String c m ++ r).
  unfold match_length. rewrite H.
  assert (Hlen : (String.length (String c m ++ r) - String.length (trimStart r))%nat
                 = S (String.length (m ++ w))).
  { rewrite Hw at 1. rewrite !length_append. cbn [String.length]. lia. }
  rewrite Hlen. rewrite Hw at 1. rewrite <- append_assoc.
  apply replace_go_skip.
Qed.

(** Where nothing matches the character is kept. *)
Lemma replace_all_keep (ci : bool) (lit : string) (c : ascii) (s : string) :
  match_literal ci lit (String c s) = None ->
  replace_all ci lit (String c s) = String c (replace_all ci lit s).
Proof.
  intros H. unfold replace_all. cbn [replace_go]. unfold match_length. now rewrite H.
Qed.

Lemma match_fence (s : string) :
  match_literal false fence s
  = match s with
    | String "`" (String "`" (String "`" r)) => Some r
    | _ => None
    end.
Proof.
  unfold fence. cbn [match_literal char_matches].
  destruct s as [|a s]; [reflexivity|].
  destruct (Ascii.eqb_spec "`" a) as [<-|Ha].
  - destruct s as [|b s]; [reflexivity|].
    destruct (Ascii.eqb_spec "`" b) as [<-|Hb].
    + destruct s as [|c s]; [reflexivity|].
      destruct (Ascii.eqb_spec "`" c) as [<-|Hc]; [reflexivity|].
      destruct c as [[] [] [] [] [] [] [] []]; try reflexivity. congruence.
    + destruct b as [[] [] [] [] [] [] [] []]; try reflexivity. congruence.
  - destruct a as [[] [] [] [] [] [] [] []]; try reflexivity. congruence.
Qed.

(** The result of removing the fences begins with one, two or three
    backquotes only if the text did. *)
Lemma replace_fence_head1 (s b : string) :
  replace_all false fence s = String "`" b -> exists b', s = String "`" b'.
Proof.
  destruct s as [|c s]; [discriminate|].
  destruct (match_literal false fence (String c s)) as [r|] eqn:Hm.
  - rewrite match_fence in Hm.
    destruct c as [[] [] [] [] [] [] [] []]; cbn in Hm; try discriminate. eauto.
  - rewrite (replace_all_keep _ _ _ _ Hm). intros [= -> _]. eauto.
Qed.

Lemma replace_fence_head2 (s b : string) :
  replace_all false fence s = String "`" (String "`" b) ->
  exists b', s = String "`" (String "`" b').
Proof.
  destruct s as [|c s]; [discriminate|].
  destruct (match_literal false fence (String c s)) as [r|] eqn:Hm.
  - rewrite match_fence in Hm.
    destruct c as [[] [] [] [] [] [] [] []]; cbn in Hm; try discriminate.
    destruct s as [|d s]; [discriminate|].
    destruct d as [[] [] [] [] [] [] [] []]; cbn in Hm; try discriminate. eauto.
  - rewrite (replace_all_keep _ _ _ _ Hm). intros [= -> H].
    destruct (replace_fence_head1 _ _ H) as [b' ->]. eauto.
Qed.

Lemma replace_fence_head3 (s b : string) :
  replace_all false fence s = fence ++ b -> exists b', s = fence ++ b'.
Proof.
  destruct s as [|c s]; [discriminate|].
  destruct (match_literal false fence (String c s)) as [r|] eqn:Hm.
  - rewrite match_fence in Hm.
    destruct c as [[] [] [] [] [] [] [] []]; cbn in Hm; try discriminate.
    destruct s as [|d s]; [discriminate|].
    destruct d as [[] [] [] [] [] [] [] []]; cbn in Hm; try discriminate.
    destruct s as [|e s]; [discriminate|].
    destruct e as [[] [] [] [] [] [] [] []]; cbn in Hm; try discriminate.
    intros _. now exists s.
  - rewrite (replace_all_keep _ _ _ _ Hm). cbn. intros [= -> H].
    destruct (replace_fence_head2 _ _ H) as [b' ->]. now exists b'.
Qed.

(** No fence is left by [replace(/```\s*/g, '')], not even one made of
    backquotes that the removal brings together. *)
Lemma replace_fence_none (s : string) :
  includes (replace_all false fence s) fence = false.
Proof.
  apply includes_false.
  remember (String.length s) as n eqn:Hn. revert s Hn.
  induction n as [n IH] using lt_wf_ind. intros s Hn (a & b & H).
  destruct s as [|c s]; [destruct a; discriminate|].
  destruct (match_literal false fence (String c s)) as [r|] eqn:Hm.
  - pose proof (replace_all_match false "`" "``" (String c s) r Hm) as Hr.
    change (String "`" "``") with fence in Hr. rewrite Hr in H.
    destruct (match_literal_split _ _ _ _ Hm) as (m & Hs & Hlen).
    pose proof (trimStart_length r) as Hshort.
    apply (IH (String.length (trimStart r))) with (s := trimStart r);
      [|reflexivity|now exists a, b].
    rewrite Hn, Hs, length_append, Hlen. cbn. lia.
  - rewrite (replace_all_keep _ _ _ _ Hm) in H. destruct a as [|d a].
    + assert (H' : replace_all false fence (String c s) = fence ++ b)
        by now rewrite (replace_all_keep _ _ _ _ Hm).
      destruct (replace_fence_head3 _ _ H') as [b' Hb]. rewrite Hb in Hm.
      rewrite match_fence in Hm. discriminate.
    + injection H as _ H.
      apply (IH (String.length s)) with (s := s);
        [cbn in Hn; lia | reflexivity | now exists a, b].
Qed.

(** A text without a backquote is left as it is by both replacements. *)
Lemma backquote_matches (ci : bool) (c : ascii) :
  char_matches ci "`" c = true -> c = "`"%char.
Proof.
  destruct c as [[] [] [] [] [] [] [] []]; destruct ci; cbn; try discriminate; reflexivity.
Qed.

Lemma replace_all_no_backquote (ci : bool) (lit s : string) :
  includes s "`" = false ->
  replace_all ci (String "`" lit) s = s.
Proof.
  induction s as [|c s IH]; [reflexivity|]. intros H.
  assert (Hs : includes s "`" = false)
    by (apply (includes_app (String c EmptyString) s EmptyString); cbn;
        now rewrite append_nil_r).
  rewrite replace_all_keep.
  - now rewrite IH.
  - cbn [match_literal]. destruct (char_matches ci "`" c) eqn:Hc; [|reflexivity].
    apply backquote_matches in Hc. subst c.
    apply includes_false in H. exfalso. apply H. now exists EmptyString, s.
Qed.

(** A match of a pattern that begins with three backquotes begins with
    three backquotes. *)
Lemma fence_head_matches (ci : bool) (lit s r : string) :
  match_literal ci (fence ++ lit) s = Some r -> exists t, s = fence ++ t.
Proof.
  unfold fence. cbn [append match_literal].
  destruct s as [|a s]; [discriminate|].
  destruct (char_matches ci "`" a) eqn:Ha; [|discriminate].
  destruct s as [|b s]; [discriminate|].
  destruct (char_matches ci "`" b) eqn:Hb; [|discriminate].
  destruct s as [|c s]; [discriminate|].
  destruct (char_matches ci "`" c) eqn:Hc; [|discriminate].
  apply backquote_matches in Ha, Hb, Hc. subst. intros _. now exists s.
Qed.

(** A text without a fence is left as it is by both [replace] calls. *)
Lemma replace_all_no_fence (ci : bool) (lit s : string) :
  includes s fence = false ->
  replace_all ci (fence ++ lit) s = s.
Proof.
  induction s as [|c s IH]; [reflexivity|]. intros H.
  assert (Hs : includes s fence = false)
    by (apply (includes_app (String c EmptyString) s EmptyString); cbn;
        now rewrite append_nil_r).
  assert (Hm : match_literal ci (fence ++ lit) (String c s) = None).
  { destruct (match_literal ci (fence ++ lit) (String c s)) as [r|] eqn:Hr;
      [|reflexivity].
    destruct (fence_head_matches _ _ _ _ Hr) as [t Ht].
    apply includes_false in H. exfalso. apply H. exists EmptyString, t. exact Ht. }
  unfold fence in *. cbn [append] in *.
  rewrite replace_all_keep by exact Hm. now rewrite IH.
Qed.

End ReplaceFacts.

(** ** The span from the first opening to the last closing brace *)

Module SliceFacts.
Import JSString StringFacts OccurrenceFacts TrimFacts.

Lemma prefix_char (ch c : ascii) (s : string) :
  String.prefix (String ch EmptyString) (String c s) = Ascii.eqb ch c.
Proof.
  cbn. destruct (ascii_dec ch c) as [->|Hn].
  - rewrite Ascii.eqb_refl. now destruct s.
  - symmetry. now apply Ascii.eqb_neq.
Qed.

Lemma includes_cons_false (c : ascii) (s p : string) :
  includes (String c s) p = false ->
  String.prefix p (String c s) = false /\ includes s p = false.
Proof.
  intros H. split.
  - destruct (String.prefix p (String c s)) eqn:Hp; [|reflexivity].
    apply includes_false in H. exfalso. apply H.
    destruct (prefix_inv _ _ Hp) as [b Hb]. now exists EmptyString, b.
  - apply (includes_app (String c EmptyString) s EmptyString). cbn.
    now rewrite append_nil_r.
Qed.

Lemma len_cons (c : ascii) (s : string) : len (String c s) = len s + 1.
Proof. unfold len. cbn [String.length]. lia. Qed.

Lemma len_app (a b : string) : len (a ++ b) = len a + len b.
Proof. unfold len. rewrite length_append. lia. Qed.

Lemma len_nonneg (s : string) : 0 <= len s.
Proof. unfold len. lia. Qed.

(** [indexOf] of a character: the length of the part before its first
    occurrence. *)
Lemma indexOf_from_first (ch : ascii) (a rest : string) (i : Z) :
  includes a (String ch EmptyString) = false ->
  indexOf_from (String ch EmptyString) (a ++ String ch rest) i = i + len a.
Proof.
  revert i. induction a as [|c a IH]; intros i H.
  - cbn [append indexOf_from]. rewrite prefix_char, Ascii.eqb_refl.
    unfold len. cbn. lia.
  - apply includes_cons_false in H as [Hp Ha].
    cbn [append indexOf_from]. rewrite prefix_char in *. rewrite Hp.
    rewrite IH by assumption. rewrite len_cons. lia.
Qed.

(** Conversely, a position found by [indexOf] splits the text there. *)
Lemma indexOf_from_found (ch : ascii) (s : string) (i : Z) :
  indexOf_from (String ch EmptyString) s i <> -1 ->
  exists a rest,
    s = a ++ String ch rest
    /\ includes a (String ch EmptyString) = false
    /\ indexOf_from (String ch EmptyString) s i = i + len a.
Proof.
  revert i. induction s as [|c s IH]; intros i; cbn [indexOf_from].
  - cbn. congruence.
  - rewrite prefix_char. destruct (Ascii.eqb_spec ch c) as [<-|Hc].
    + intros _. exists EmptyString, s. repeat split. unfold len. cbn. lia.
    + intros H. destruct (IH _ H) as (a & rest & -> & Ha & ->).
      exists (String c a), rest. repeat split.
      * apply includes_false. intros (x & y & Hxy). destruct x as [|d x]; cbn in Hxy.
        -- congruence.
        -- injection Hxy as _ Hxy. apply includes_false in Ha. apply Ha.
           now exists x, y.
      * rewrite len_cons. lia.
Qed.

Lemma lastIndexOf_from_absent (p c : string) (i best : Z) :
  includes c p = false -> lastIndexOf_from p c i best = best.
Proof.
  revert i. induction c as [|d c IH]; intros i H; cbn [lastIndexOf_from].
  - destruct (String.prefix p EmptyString) eqn:Hp; [|reflexivity].
    apply includes_false in H. exfalso. apply H.
    destruct (prefix_inv _ _ Hp) as [b Hb]. now exists EmptyString, b.
  - apply includes_cons_false in H as [Hp Hc]. rewrite Hp. now apply IH.
Qed.

(** [lastIndexOf] of a character: the length of the part before its last
    occurrence. *)
Lemma lastIndexOf_from_last (ch : ascii) (x c : string) (i best : Z) :
  includes c (String ch EmptyString) = false ->
  lastIndexOf_from (String ch EmptyString) (x ++ String ch c) i best = i + len x.
Proof.
  intros Hc. revert i best. induction x as [|d x IH]; intros i best.
  - cbn [append lastIndexOf_from]. rewrite prefix_char, Ascii.eqb_refl.
    rewrite lastIndexOf_from_absent by assumption. unfold len. cbn. lia.
  - cbn [append lastIndexOf_from]. rewrite IH, len_cons. lia.
Qed.

(** Conversely: either nothing is found, or the text splits at the
    position found. *)
Lemma lastIndexOf_from_found (ch : ascii) (s : string) (i best : Z) :
  (includes s (String ch EmptyString) = false
   /\ lastIndexOf_from (String ch EmptyString) s i best = best)
  \/ exists x c,
       s = x ++ String ch c
       /\ includes c (String ch EmptyString) = false
       /\ lastIndexOf_from (String ch EmptyString) s i best = i + len x.
Proof.
  revert i best. induction s as [|d s IH]; intros i best.
  - left. split; reflexivity.
  - cbn [lastIndexOf_from]. rewrite prefix_char.
    destruct (IH (i + 1) (if Ascii.eqb ch d then i else best))
      as [[Hs Hr] | (x & c & -> & Hc & Hr)].
    + destruct (Ascii.eqb_spec ch d) as [<-|Hd].
      * right. exists EmptyString, s. repeat split; [assumption|].
        rewrite Hr. unfold len. cbn. lia.
      * left. split; [|exact Hr].
        apply includes_false. intros (a & b & Hab). destruct a as [|e a]; cbn in Hab.
        -- congruence.
        -- injection Hab as _ Hab. apply includes_false in Hs. apply Hs.
           now exists a, b.
    + right. exists (String d x), c. repeat split; [assumption|].
      rewrite Hr, len_cons. lia.
Qed.

Lemma substring_middle_nat (a m c : string) :
  String.substring (String.length a) (String.length m) (a ++ m ++ c) = m.
Proof.
  induction a as [|d a IH]; [|exact IH]. cbn [String.length append].
  induction m as [|e m IHm]; cbn.
  - now destruct c.
  - now rewrite IHm.
Qed.

(** [substring] over the span of a middle part gives that part. *)
Lemma substring_middle (a m c : string) :
  substring (a ++ m ++ c) (len a) (len a + len m) = m.
Proof.
  unfold substring. rewrite !len_app.
  pose proof (len_nonneg a). pose proof (len_nonneg m). pose proof (len_nonneg c).
  rewrite (Z.max_l (len a) 0), (Z.max_l (len a + len m) 0) by lia.
  rewrite (Z.min_l (len a)), (Z.min_l (len a + len m)) by lia.
  rewrite Z.min_l, Z.max_r by lia.
  replace (len a + len m - len a) with (len m) by lia.
  unfold len. rewrite !Nat2Z.id. apply substring_middle_nat.
Qed.

(** Two splittings of one text, the second further to the right. *)
Lemma app_split_later (a b x y : string) :
  a ++ b = x ++ y -> (String.length a <= String.length x)%nat ->
  exists m, x = a ++ m /\ b = m ++ y.
Proof.
  revert x. induction a as [|c a IH]; intros x H Hl.
  - exists x. auto.
  - destruct x as [|d x]; [cbn in Hl; lia|]. cbn in H. injection H as -> H.
    destruct (IH x H) as (m & -> & ->); [cbn in Hl; lia|]. now exists m.
Qed.

(** The slicing step of [extractJSON] on a text with a brace pair. *)
Lemma brace_slice (a body c : string) :
  includes a "{" = false -> includes c "}" = false ->
  let text := a ++ "{" ++ body ++ "}" ++ c in
  let jsonStart := indexOf text "{" in
  let jsonEnd := lastIndexOf text "}" in
  trim (if negb (jsonStart =? -1) && negb (jsonEnd =? -1) && (jsonEnd >? jsonStart)
        then substring text jsonStart (jsonEnd + 1)
        else text)
  = "{" ++ body ++ "}".
Proof.
  intros Ha Hc text jsonStart jsonEnd.
  assert (Hs : jsonStart = len a).
  { unfold jsonStart, indexOf, text. cbn [append].
    rewrite (indexOf_from_first "{" a _ 0 Ha). lia. }
  assert (He : jsonEnd = len a + len body + 1).
  { unfold jsonEnd, lastIndexOf, text.
    replace (a ++ "{" ++ body ++ "}" ++ c) with ((a ++ "{" ++ body) ++ String "}" c)
      by (now rewrite !append_assoc).
    rewrite (lastIndexOf_from_last "}" _ c 0 (-1) Hc).
    cbn [append]. rewrite len_app, len_cons. lia. }
  pose proof (len_nonneg a). pose proof (len_nonneg body).
  rewrite Hs, He.
  replace (len a =? -1) with false by (symmetry; apply Z.eqb_neq; lia).
  replace (len a + len body + 1 =? -1) with false by (symmetry; apply Z.eqb_neq; lia).
  replace (len a + len body + 1 >? len a) with true
    by (symmetry; apply Z.gtb_lt; lia).
  cbn [negb andb]. unfold text.
  replace (a ++ "{" ++ body ++ "}" ++ c) with (a ++ ("{" ++ body ++ "}") ++ c)
    by (now rewrite !append_assoc).
  replace (len a + len body + 1 + 1) with (len a + len ("{" ++ body ++ "}"))
    by (cbn [append]; rewrite len_cons, len_app, len_cons; unfold len; cbn; lia).
  rewrite substring_middle. apply (trim_fixed "{" body "}"); reflexivity.
Qed.

End SliceFacts.

(** ** [extractJSON] on every text *)

Module ExtractFacts.
Import JSString StringFacts OccurrenceFacts TrimFacts ReplaceFacts SliceFacts.

Lemma substring_prefix_nat (m : nat) (s : string) :
  exists b, s = String.substring 0 m s ++ b.
Proof.
  revert m. induction s as [|c s IH]; intros m.
  - exists EmptyString. now destruct m.
  - destruct m as [|m]; cbn [String.substring].
    + now exists (String c s).
    + destruct (IH m) as [b Hb]. exists b. cbn. now rewrite <- Hb.
Qed.

Lemma substring_part_nat (n m : nat) (s : string) :
  exists a b, s = a ++ String.substring n m s ++ b.
Proof.
  revert n. induction s as [|c s IH]; intros n.
  - exists EmptyString, EmptyString. now destruct n, m.
  - destruct n as [|n].
    + destruct (substring_prefix_nat m (String c s)) as [b Hb].
      now exists EmptyString, b.
    + destruct (IH n) as (a & b & Hab). exists (String c a), b.
      cbn [String.substring append]. now rewrite <- Hab.
Qed.

Lemma substring_part (s : string) (x y : Z) :
  exists a b, s = a ++ substring s x y ++ b.
Proof. unfold substring. apply substring_part_nat. Qed.

Lemma includes_part (s t p : string) :
  (exists a b, s = a ++ t ++ b) -> includes s p = false -> includes t p = false.
Proof. intros (a & b & ->). apply includes_app. Qed.

Lemma strip_fences_no_fence (text : string) : includes (strip_fences text) fence = false.
Proof.
  unfold strip_fences.
  apply (includes_part _ _ _ (trim_part _)). apply replace_fence_none.
Qed.

Lemma strip_fences_trimmed (text : string) : trim (strip_fences text) = strip_fences text.
Proof. apply trim_idempotent. Qed.

End ExtractFacts.

(** X1. What [extractJSON] returns has no white space at either end and
    contains no code fence, whatever the text (even when removing one fence
    brings the backquotes of another together). *)
Theorem extractJSON_clean (text : string) :
  JSString.trim (extractJSON text) = extractJSON text
  /\ JSString.includes (extractJSON text) fence = false.
Proof.
  unfold extractJSON. split; [apply TrimFacts.trim_idempotent|].
  apply (ExtractFacts.includes_part _ _ _ (TrimFacts.trim_part _)).
  destruct (_ && _).
  - apply (ExtractFacts.includes_part _ _ _ (ExtractFacts.substring_part _ _ _)).
    apply ExtractFacts.strip_fences_no_fence.
  - apply ExtractFacts.strip_fences_no_fence.
Qed.

(** X2. [extractJSON] returns the span of the cleaned text from its first
    opening brace to its last closing brace when the former comes before
    the latter, and the whole cleaned text when there is no such pair. *)
Theorem extractJSON_span_or_whole (text : string) :
  (exists a body c,
      strip_fences text = a ++ "{" ++ body ++ "}" ++ c
      /\ JSString.includes a "{" = false
      /\ JSString.includes c "}" = false
      /\ extractJSON text = "{" ++ body ++ "}")
  \/ ((~ exists a body c, strip_fences text = a ++ "{" ++ body ++ "}" ++ c)
      /\ extractJSON text = strip_fences text).
Proof.
  unfold extractJSON.
  pose proof (ExtractFacts.strip_fences_trimmed text) as Htrim.
  set (t := strip_fences text) in *.
  destruct (Z.eq_dec (JSString.indexOf t "{") (-1)) as [Hi | Hi].
  { right. rewrite Hi. cbn [Z.eqb negb andb]. split; [|exact Htrim].
    intros (a & body & c & H). unfold JSString.indexOf in Hi.
    apply (OccurrenceFacts.indexOf_from_none "{" t 0) in Hi; [|lia].
    apply Hi. now exists a, (body ++ "}" ++ c). }
  destruct (SliceFacts.indexOf_from_found "{" t 0 Hi) as (a & rest & Ht & Ha & Hstart).
  destruct (SliceFacts.lastIndexOf_from_found "}" t 0 (-1))
    as [[Hnone Hend] | (x & c & Hx & Hc & Hend)].
  { right. unfold JSString.lastIndexOf. rewrite Hend.
    rewrite andb_false_r. cbn [andb]. split; [|exact Htrim].
    intros (a' & body & c' & H). apply OccurrenceFacts.includes_false in Hnone.
    apply Hnone. exists (a' ++ "{" ++ body), c'.
    now rewrite H, !StringFacts.append_assoc. }
  destruct (Z_lt_le_dec (JSString.len a) (JSString.len x)) as [Hlt | Hle].
  - left.
    assert (Hsplit : exists m, x = a ++ m /\ String "{" rest = m ++ String "}" c).
    { apply SliceFacts.app_split_later; [congruence | unfold JSString.len in Hlt; lia]. }
    destruct Hsplit as (m & -> & Hm).
    destruct m as [|d body].
    { rewrite StringFacts.append_nil_r in Hlt. lia. }
    cbn in Hm. injection Hm as <- ->.
    exists a, body, c. split; [exact Ht|]. split; [exact Ha|]. split; [exact Hc|].
    rewrite Ht. apply (SliceFacts.brace_slice a body c Ha Hc).
  - right.
    assert (Hcond : negb (JSString.indexOf t "{" =? -1)
                    && negb (JSString.lastIndexOf t "}" =? -1)
                    && (JSString.lastIndexOf t "}" >? JSString.indexOf t "{") = false).
    { unfold JSString.indexOf, JSString.lastIndexOf. rewrite Hstart, Hend.
      replace (0 + JSString.len x >? 0 + JSString.len a) with false
        by (symmetry; rewrite Z.gtb_ltb; apply Z.ltb_ge; lia).
      apply andb_false_r. }
    rewrite Hcond. split; [|exact Htrim].
    intros (a' & body & c' & H).
    (* the first opening brace is at [a], the last closing brace at [x] *)
    assert (H1 : (String.length a <= String.length a')%nat).
    { destruct (Nat.le_gt_cases (String.length a) (String.length a')) as [Hl | Hl];
        [exact Hl|]. exfalso.
      assert (Hs : exists m, a = a' ++ m /\ String "{" (body ++ "}" ++ c')
                                           = m ++ String "{" rest).
      { apply SliceFacts.app_split_later; [|lia]. rewrite <- Ht, H. reflexivity. }
      destruct Hs as (m & -> & Hm). destruct m as [|d m].
      - rewrite StringFacts.append_nil_r in Hl. lia.
      - cbn in Hm. injection Hm as <- _.
        apply OccurrenceFacts.includes_false in Ha. apply Ha.
        now exists a', m. }
    assert (H2 : (String.length (a' ++ "{" ++ body) <= String.length x)%nat).
    { destruct (Nat.le_gt_cases (String.length (a' ++ "{" ++ body)) (String.length x))
        as [Hl | Hl]; [exact Hl|]. exfalso.
      assert (Hs : exists m, a' ++ "{" ++ body = x ++ m
                             /\ String "}" c = m ++ String "}" c').
      { apply SliceFacts.app_split_later; [|lia].
        rewrite <- Hx, H. now rewrite !StringFacts.append_assoc. }
      destruct Hs as (m & Hxm & Hm). destruct m as [|d m].
      - rewrite StringFacts.append_nil_r in Hxm. rewrite Hxm in Hl. lia.
      - cbn in Hm. injection Hm as <- Hm.
        apply OccurrenceFacts.includes_false in Hc. apply Hc.
        exists m, c'. exact Hm. }
    rewrite StringFacts.length_append in H2. cbn in H2.
    unfold JSString.len in Hle. lia.
Qed.

(** Trimming a text made of an object text between a prefix and a suffix
    trims the prefix and the suffix. *)
Lemma trim_around_object (pre body post : string) :
  JSString.trim (pre ++ "{" ++ body ++ "}" ++ post)
  = JSString.trimStart pre ++ "{" ++ body ++ "}" ++ JSString.trimEnd post.
Proof.
  unfold JSString.trim. cbn [append].
  rewrite StringFacts.trimStart_app_stop by reflexivity.
  replace (JSString.trimStart pre ++ String "{" (body ++ String "}" post))
    with ((JSString.trimStart pre ++ String "{" body) ++ String "}" post)
    by (now rewrite StringFacts.append_assoc).
  rewrite TrimFacts.trimEnd_app_stop by reflexivity.
  now rewrite StringFacts.append_assoc.
Qed.

Lemma trimStart_no_brace (pre : string) :
  JSString.includes pre "{" = false -> JSString.includes (JSString.trimStart pre) "{" = false.
Proof.
  intros H. destruct (TrimFacts.trimStart_suffix pre) as [w Hw].
  apply (OccurrenceFacts.includes_app w _ EmptyString).
  now rewrite StringFacts.append_nil_r, <- Hw.
Qed.

Lemma trimEnd_no_brace (post : string) :
  JSString.includes post "}" = false -> JSString.includes (JSString.trimEnd post) "}" = false.
Proof.
  intros H. destruct (TrimFacts.trimEnd_prefix post) as [w Hw].
  apply (OccurrenceFacts.includes_app EmptyString _ w). cbn. now rewrite <- Hw.
Qed.

(** On a text without a fence, [extractJSON] returns the object text found
    between a prefix without opening brace and a suffix without closing
    brace. *)
Lemma extractJSON_no_fence (pre body post : string) :
  JSString.includes (pre ++ "{" ++ body ++ "}" ++ post) fence = false ->
  JSString.includes pre "{" = false ->
  JSString.includes post "}" = false ->
  extractJSON (pre ++ "{" ++ body ++ "}" ++ post) = "{" ++ body ++ "}".
Proof.
  intros Hq Hpre Hpost.
  assert (Hs : strip_fences (pre ++ "{" ++ body ++ "}" ++ post)
               = JSString.trimStart pre ++ "{" ++ body ++ "}" ++ JSString.trimEnd post).
  { unfold strip_fences.
    change fence_json with (fence ++ "json").
    rewrite (ReplaceFacts.replace_all_no_fence true) by assumption.
    change fence with (fence ++ EmptyString) at 1.
    rewrite (ReplaceFacts.replace_all_no_fence false) by assumption.
    apply trim_around_object. }
  unfold extractJSON. rewrite Hs.
  apply SliceFacts.brace_slice; [now apply trimStart_no_brace | now apply trimEnd_no_brace].
Qed.

(** The same after the [trim] that precedes the call of [extractJSON]. *)
Lemma extractJSON_trim_no_fence (pre body post : string) :
  JSString.includes (pre ++ "{" ++ body ++ "}" ++ post) fence = false ->
  JSString.includes pre "{" = false ->
  JSString.includes post "}" = false ->
  extractJSON (JSString.trim (pre ++ "{" ++ body ++ "}" ++ post)) = "{" ++ body ++ "}".
Proof.
  intros Hq Hpre Hpost. rewrite trim_around_object.
  apply extractJSON_no_fence;
    [|now apply trimStart_no_brace | now apply trimEnd_no_brace].
  rewrite <- trim_around_object.
  exact (ExtractFacts.includes_part _ _ _ (TrimFacts.trim_part _) Hq).
Qed.

(** X3. Prose around the object is tolerated: for a text without backquotes
    made of an object text between a prefix without opening brace and a
    suffix without closing brace, [extractJSON] returns exactly the object
    text. *)
Theorem extractJSON_prose (pre body post : string) :
  JSString.includes (pre ++ "{" ++ body ++ "}" ++ post) "`" = false ->
  JSString.includes pre "{" = false ->
  JSString.includes post "}" = false ->
  extractJSON (pre ++ "{" ++ body ++ "}" ++ post) = "{" ++ body ++ "}".
Proof.
  intros Hq Hpre Hpost.
  assert (Ht : JSString.trim (pre ++ "{" ++ body ++ "}" ++ post)
               = JSString.trimStart pre ++ "{" ++ body ++ "}" ++ JSString.trimEnd post).
  { unfold JSString.trim. cbn [append].
    rewrite StringFacts.trimStart_app_stop by reflexivity.
    replace (JSString.trimStart pre ++ String "{" (body ++ String "}" post))
      with ((JSString.trimStart pre ++ String "{" body) ++ String "}" post)
      by (now rewrite StringFacts.append_assoc).
    rewrite TrimFacts.trimEnd_app_stop by reflexivity.
    now rewrite StringFacts.append_assoc. }
  assert (Hs : strip_fences (pre ++ "{" ++ body ++ "}" ++ post)
               = JSString.trimStart pre ++ "{" ++ body ++ "}" ++ JSString.trimEnd post).
  { unfold strip_fences, fence, fence_json.
    rewrite (ReplaceFacts.replace_all_no_backquote true) by assumption.
    rewrite (ReplaceFacts.replace_all_no_backquote false) by assumption. exact Ht. }
  unfold extractJSON. rewrite Hs.
  apply SliceFacts.brace_slice.
  - destruct (TrimFacts.trimStart_suffix pre) as [w Hw].
    apply (OccurrenceFacts.includes_app w _ EmptyString).
    now rewrite StringFacts.append_nil_r, <- Hw.
  - destruct (TrimFacts.trimEnd_prefix post) as [w Hw].
    apply (OccurrenceFacts.includes_app EmptyString _ w). cbn. now rewrite <- Hw.
Qed.

(** ** [parseInt] on a number followed by other text *)

Module LeadingIntegerFacts.
Import Decimal NumeralFacts.

Lemma parse_digits_stop (rest : string) (acc : option Z) :
  ends_number rest = true -> parse_digits 10 rest acc = acc.
Proof.
  destruct rest as [|ch r]; [reflexivity|]. cbn.
  now destruct (digit_value ch).
Qed.

Ltac read_digit_app :=
  cbn [NilEmpty.string_of_uint Pos.of_uint_acc Pos.of_uint append];
  erewrite parse_digits_cons by reflexivity;
  match goal with
  | |- context [Z.of_N (N_of_ascii ?c) - 48] =>
      let v := eval vm_compute in (Z.of_N (N_of_ascii c) - 48) in
      change (Z.of_N (N_of_ascii c) - 48) with v
  end.

Lemma parse_digits_acc_app (d : uint) (acc : positive) (rest : string) :
  parse_digits 10 (NilEmpty.string_of_uint d ++ rest) (Some (Z.pos acc))
  = parse_digits 10 rest (Some (Z.pos (Pos.of_uint_acc d acc))).
Proof.
  revert acc. induction d; intros acc; [reflexivity | ..];
    (read_digit_app; rewrite <- IHd; do 2 f_equal; lia).
Qed.

Lemma parse_digits_zero_app (d : uint) (rest : string) :
  parse_digits 10 (NilEmpty.string_of_uint d ++ rest) (Some 0)
  = parse_digits 10 rest (Some (Z.of_N (Pos.of_uint d))).
Proof.
  induction d; [reflexivity | ..]; read_digit_app;
    [exact IHd | apply parse_digits_acc_app ..].
Qed.

Lemma parse_digits_start_app (d : uint) (rest : string) :
  d <> Nil -> ends_number rest = true ->
  parse_digits 10 (NilEmpty.string_of_uint d ++ rest) None
  = Some (Z.of_N (Pos.of_uint d)).
Proof.
  intros Hd Hr. rewrite <- (parse_digits_stop rest (Some (Z.of_N (Pos.of_uint d))) Hr).
  destruct d; [congruence | ..]; read_digit_app;
    [apply parse_digits_zero_app | apply parse_digits_acc_app ..].
Qed.

(** After a lone zero, a character that ends the number is not the [x] of a
    hexadecimal prefix. *)
Lemma parseInt_string_zero_app (rest : string) :
  ends_number rest = true ->
  parseInt_string (String "0" rest) = Int 0 /\
  parseInt_string (String "-" (String "0" rest)) = Int 0.
Proof.
  destruct rest as [|ch r]; [split; reflexivity|]. cbn [ends_number].
  destruct ch as [[] [] [] [] [] [] [] []]; cbn; try discriminate; intros _;
    split; reflexivity.
Qed.

Lemma parseInt_string_uint_app (d : uint) (rest : string) :
  d <> Nil -> ends_number rest = true ->
  parseInt_string (NilEmpty.string_of_uint d ++ rest) = Int (Z.of_N (Pos.of_uint d))
  /\ parseInt_string (String "-" (NilEmpty.string_of_uint d ++ rest))
     = Int (- Z.of_N (Pos.of_uint d)).
Proof.
  intros Hd Hr. pose proof (parse_digits_start_app d rest Hd Hr) as H.
  destruct d as [|d|d|d|d|d|d|d|d|d|d]; [congruence | destruct d | ..];
    try (apply (parseInt_string_zero_app rest Hr));
    cbn [NilEmpty.string_of_uint append] in *;
    (split;
     cbv -[parse_digits NilEmpty.string_of_uint append Z.mul Z.opp Z.of_N Pos.of_uint];
     rewrite H; f_equal; lia).
Qed.

(** [parseInt] skips leading white space, reads the numeral and ignores
    what follows it. *)
Lemma parseInt_string_leading_integer (w rest : string) (z : Z) :
  JSString.all_whitespace w = true -> ends_number rest = true ->
  parseInt_string (w ++ Z_to_string z ++ rest) = Int z.
Proof.
  intros Hw Hr.
  assert (Hskip : forall s, parseInt_string (w ++ s) = parseInt_string s).
  { intros s. unfold parseInt_string.
    now rewrite (StringFacts.trimStart_whitespace_app w s Hw). }
  rewrite Hskip. unfold Z_to_string.
  destruct z as [|p|p]; cbn [Z.to_int NilZero.string_of_int].
  - apply (parseInt_string_zero_app rest Hr).
  - pose proof (DecimalPos.Unsigned.to_uint_nonnil p) as Hn.
    rewrite string_of_uint_nonnil by assumption.
    rewrite (proj1 (parseInt_string_uint_app _ rest Hn Hr)).
    now rewrite DecimalPos.Unsigned.of_to.
  - pose proof (DecimalPos.Unsigned.to_uint_nonnil p) as Hn.
    rewrite string_of_uint_nonnil by assumption. cbn [append].
    rewrite (proj2 (parseInt_string_uint_app _ rest Hn Hr)).
    now rewrite DecimalPos.Unsigned.of_to.
Qed.

End LeadingIntegerFacts.

Section NormalizerFacts.
Context {E : Engine} {J : JSON E}.

Lemma bind_Return_inv {A B : Type} (c : Completion A) (k : A -> Completion B) (b : B) :
  bind c k = Return b -> exists a, c = Return a /\ k a = Return b.
Proof. destruct c as [a|m]; simpl; [eauto | discriminate]. Qed.

(** *** The [||] chains *)

Lemma first_truthy_falsy_prefix (props : list (string * JSValue))
    (before rest : list string) (d : JSValue) :
  Forall (falsy_at props) before ->
  first_truthy (JObject props) (before ++ rest)%list d
  = first_truthy (JObject props) rest d.
Proof.
  induction 1 as [|k before Hk _ IH]; [reflexivity|].
  cbn [app first_truthy Get]. unfold falsy_at in Hk.
  destruct (own_property props k) as [x|]; cbn [bind].
  - now rewrite Hk.
  - exact IH.
Qed.

(** The chain yields the first truthy member. *)
Lemma first_truthy_supplies (props : list (string * JSValue)) (keys : list string)
    (k : string) (v d : JSValue) :
  supplies props keys k v -> first_truthy (JObject props) keys d = Return v.
Proof.
  intros (before & after & -> & Hb & Hk & Hv).
  rewrite first_truthy_falsy_prefix by assumption.
  cbn [first_truthy Get]. rewrite Hk. cbn [bind]. now rewrite Hv.
Qed.

(** The chain yields its default when no member is truthy. *)
Lemma first_truthy_default (props : list (string * JSValue)) (keys : list string)
    (d : JSValue) :
  Forall (falsy_at props) keys -> first_truthy (JObject props) keys d = Return d.
Proof.
  intros H. rewrite <- (app_nil_r keys). now rewrite first_truthy_falsy_prefix.
Qed.

(** On an object the chain never throws: it yields a member or the
    default. *)
Lemma first_truthy_object (props : list (string * JSValue)) (keys : list string)
    (d : JSValue) :
  exists x, first_truthy (JObject props) keys d = Return x
            /\ (x = d \/ exists k, own_property props k = Some x).
Proof.
  induction keys as [|k keys IH]; cbn [first_truthy Get]; [eauto|].
  destruct (own_property props k) as [x|] eqn:Hk; cbn [bind].
  - destruct (ToBoolean x); [eauto | exact IH].
  - exact IH.
Qed.

(** *** The shape of what [normalize_fields] returns *)

Lemma normalize_fields_inv (result : JSValue) (rule_ : string) (v : Verdict) :
  normalize_fields result rule_ = Return v ->
  exists vs ss ve se vr sr vc n,
    first_truthy result status_keys (JString "fail") = Return vs
    /\ ToString vs = Return ss
    /\ first_truthy result evidence_keys (JString "No evidence provided") = Return ve
    /\ ToString ve = Return se
    /\ first_truthy result reasoning_keys (JString "No reasoning provided") = Return vr
    /\ ToString vr = Return sr
    /\ first_truthy result confidence_keys (JNumber (Number_ofZ 50)) = Return vc
    /\ parseInt vc = Return n
    /\ v = {| rule := rule_;
              status := validStatus (JSString.toLowerCase ss);
              evidence := JSString.substring se 0 200;
              reasoning := JSString.substring sr 0 200;
              confidence := Math_min100 (Math_max0 n) |}.
Proof.
  unfold normalize_fields. intros H.
  repeat (apply bind_Return_inv in H as (? & ? & H)).
  injection H as <-. do 8 eexists. repeat (split; [eassumption|]). reflexivity.
Qed.

Lemma normalize_fields_intro (result : JSValue) (rule_ : string)
    (vs ve vr vc : JSValue) (ss se sr : string) (n : IntOrNaN) :
  first_truthy result status_keys (JString "fail") = Return vs ->
  ToString vs = Return ss ->
  first_truthy result evidence_keys (JString "No evidence provided") = Return ve ->
  ToString ve = Return se ->
  first_truthy result reasoning_keys (JString "No reasoning provided") = Return vr ->
  ToString vr = Return sr ->
  first_truthy result confidence_keys (JNumber (Number_ofZ 50)) = Return vc ->
  parseInt vc = Return n ->
  normalize_fields result rule_
  = Return {| rule := rule_;
              status := validStatus (JSString.toLowerCase ss);
              evidence := JSString.substring se 0 200;
              reasoning := JSString.substring sr 0 200;
              confidence := Math_min100 (Math_max0 n) |}.
Proof.
  intros H1 H2 H3 H4 H5 H6 H7 H8. unfold normalize_fields.
  rewrite H1; cbn [bind]; rewrite H2; cbn [bind].
  rewrite H3; cbn [bind]; rewrite H4; cbn [bind].
  rewrite H5; cbn [bind]; rewrite H6; cbn [bind].
  rewrite H7; cbn [bind]; rewrite H8; cbn [bind]. reflexivity.
Qed.

Lemma validStatus_cases (s : string) :
  (validStatus s = "pass" /\ s = "pass") \/ (validStatus s = "fail" /\ s <> "pass").
Proof.
  unfold validStatus.
  destruct (String.eqb_spec s "pass") as [->|Hp]; [left; auto|].
  destruct (String.eqb_spec s "fail") as [->|Hf]; simpl; right; auto.
Qed.

Lemma clamp_cases (n : IntOrNaN) :
  Math_min100 (Math_max0 n) = NaN
  \/ exists z, Math_min100 (Math_max0 n) = Int z /\ 0 <= z <= 100.
Proof. destruct n as [|z]; simpl; [left; reflexivity | right; eexists; split; [reflexivity | lia]]. Qed.

(** What holds of every verdict the normalizer returns: the rule is echoed,
    the status is [pass] or [fail], and the confidence is [NaN] or an
    integer between 0 and 100. *)
Lemma normalize_returns_shape (rawText rule_ : string) (v : Verdict) :
  normalize rawText rule_ = Return v ->
  rule v = rule_
  /\ (status v = "pass" \/ status v = "fail")
  /\ (confidence v = NaN \/ exists z, confidence v = Int z /\ 0 <= z <= 100).
Proof.
  unfold normalize, normalize_content.
  destruct (JSON_parse _) as [result|message].
  - intros H. apply normalize_fields_inv in H as (vs & ss & ve & se & vr & sr & vc & n & H).
    destruct H as (_ & _ & _ & _ & _ & _ & _ & _ & ->). cbn [rule status confidence].
    split; [reflexivity|]. split; [|apply clamp_cases].
    destruct (validStatus_cases (JSString.toLowerCase ss)) as [[-> _]|[-> _]]; auto.
  - intros [= <-]. cbn. split; [reflexivity|]. split; [auto|].
    right. exists 0. split; [reflexivity | lia].
Qed.

(** The normalizer on a parsed reply. *)
Lemma normalize_parsed (rawText rule_ : string) (result : JSValue) :
  JSON_parse (extractJSON (JSString.trim rawText)) = inl result ->
  normalize rawText rule_ = normalize_fields result rule_.
Proof. unfold normalize, normalize_content. now intros ->. Qed.

End NormalizerFacts.

(** ** Replies that cannot be parsed *)

Section ParseFailure.
Context {E : Engine} {J : JSON E}.

(** C2 (amended). For every reply whose cleaned text [JSON.parse] rejects,
    the normalizer returns, without raising, the verdict with status
    [fail], evidence [Unable to parse LLM response], confidence 0 and the
    reasoning made of the parse error message followed by the first 100
    characters of the cleaned text. *)
Theorem unparsable_reply_verdict (rawText rule_ message : string) :
  JSON_parse (extractJSON (JSString.trim rawText)) = inr message ->
  normalize rawText rule_
  = Return {| rule := rule_;
              status := "fail";
              evidence := "Unable to parse LLM response";
              reasoning := "Parse error: " ++ message ++ ". Raw content: "
                           ++ JSString.substring (extractJSON (JSString.trim rawText)) 0 100;
              confidence := Int 0 |}
  /\ JSString.len (JSString.substring (extractJSON (JSString.trim rawText)) 0 100) <= 100.
Proof.
  intros H. split.
  - unfold normalize, normalize_content. rewrite H. reflexivity.
  - apply SubstringFacts.substring_bounded. lia.
Qed.

End ParseFailure.

(** ** Parsed replies *)

Section ParsedReplies.
Context {E : Engine} {J : JSON E}.

Lemma supplies_first (props : list (string * JSValue)) (k : string) (keys : list string)
    (v : JSValue) :
  own_property props k = Some v -> ToBoolean v = true -> supplies props (k :: keys) k v.
Proof. intros Hk Hv. exists [], keys. auto. Qed.

Lemma parseInt_integer (n : number) (c : Z) :
  Number_is n c -> parseInt (JNumber n) = Return (Int c).
Proof.
  intros [_ Hs]. unfold parseInt. cbn [ToString bind].
  now rewrite Hs, NumeralFacts.parseInt_string_numeral.
Qed.

(** The fields of a parsed object with a status [pass] or [fail], an
    evidence and a reasoning that are not empty and have at most 200
    characters, and an integer confidence from 1 to 100. *)
Lemma normalize_fields_well_formed (props : list (string * JSValue)) (rule_ : string)
    (s e r : string) (n : number) (c : Z) :
  own_property props "status" = Some (JString s) -> s = "pass" \/ s = "fail" ->
  own_property props "evidence" = Some (JString e) ->
  e <> EmptyString -> JSString.len e <= 200 ->
  own_property props "reasoning" = Some (JString r) ->
  r <> EmptyString -> JSString.len r <= 200 ->
  own_property props "confidence" = Some (JNumber n) ->
  Number_is n c -> 1 <= c <= 100 ->
  normalize_fields (JObject props) rule_
  = Return {| rule := rule_; status := s; evidence := e; reasoning := r;
              confidence := Int c |}.
Proof.
  intros Hs Hs' He He' He'' Hr Hr' Hr'' Hc Hn Hc'.
  assert (Hts : ToBoolean (JString s) = true) by (destruct Hs' as [-> | ->]; reflexivity).
  assert (Hte : ToBoolean (JString e) = true).
  { cbn. now destruct (String.eqb_spec e EmptyString). }
  assert (Htr : ToBoolean (JString r) = true).
  { cbn. now destruct (String.eqb_spec r EmptyString). }
  assert (Htc : ToBoolean (JNumber n) = true).
  { cbn. destruct Hn as [-> _]. destruct (Z.eqb_spec c 0); [lia | reflexivity]. }
  rewrite (normalize_fields_intro (JObject props) rule_
             (JString s) (JString e) (JString r) (JNumber n) s e r (Int c));
    try reflexivity;
    try (apply first_truthy_supplies with (k := "status"); now apply supplies_first);
    try (apply first_truthy_supplies with (k := "evidence"); now apply supplies_first);
    try (apply first_truthy_supplies with (k := "reasoning"); now apply supplies_first);
    try (apply first_truthy_supplies with (k := "confidence"); now apply supplies_first);
    try (now apply parseInt_integer).
  rewrite !SubstringFacts.substring_whole by assumption.
  cbn [Math_max0 Math_min100]. rewrite Z.max_r, Z.min_r by lia.
  destruct Hs' as [-> | ->]; reflexivity.
Qed.

(** C5 (amended). A reply whose text holds no fence and consists of a
    JSON object (with nothing before it that has an opening brace and
    nothing after it that has a closing brace: white space, in particular)
    with the status [pass] or [fail], an evidence and a reasoning that are
    not empty and have at most 200 characters, and an integer confidence
    from 1 to 100, is reproduced unchanged by the normalizer: the verdict
    has the same status, evidence, reasoning and confidence. *)
Theorem well_formed_reply_reproduced (pre body post rule_ : string)
    (props : list (string * JSValue)) (s e r : string) (n : number) (c : Z) :
  JSString.includes (pre ++ "{" ++ body ++ "}" ++ post) fence = false ->
  JSString.includes pre "{" = false ->
  JSString.includes post "}" = false ->
  JSON_parse ("{" ++ body ++ "}") = inl (JObject props) ->
  own_property props "status" = Some (JString s) -> s = "pass" \/ s = "fail" ->
  own_property props "evidence" = Some (JString e) ->
  e <> EmptyString -> JSString.len e <= 200 ->
  own_property props "reasoning" = Some (JString r) ->
  r <> EmptyString -> JSString.len r <= 200 ->
  own_property props "confidence" = Some (JNumber n) ->
  Number_is n c -> 1 <= c <= 100 ->
  normalize (pre ++ "{" ++ body ++ "}" ++ post) rule_
  = Return {| rule := rule_; status := s; evidence := e; reasoning := r;
              confidence := Int c |}.
Proof.
  intros Hq Hpre Hpost Hparse Hs Hs' He He' He'' Hr Hr' Hr'' Hc Hn Hc'.
  unfold normalize, normalize_content.
  rewrite (extractJSON_trim_no_fence pre body post Hq Hpre Hpost), Hparse.
  now apply normalize_fields_well_formed with (n := n).
Qed.

(** An integer confidence other than zero is clamped into 0..100. *)
Lemma integer_confidence_clamped (props : list (string * JSValue)) (rule_ : string)
    (n : number) (c : Z) (v : Verdict) :
  own_property props "confidence" = Some (JNumber n) ->
  Number_is n c -> c <> 0 ->
  normalize_fields (JObject props) rule_ = Return v ->
  confidence v = Int (Z.min 100 (Z.max 0 c)).
Proof.
  intros Hc Hn Hc' H.
  apply normalize_fields_inv in H as (vs & ss & ve & se & vr & sr & vc & m & H).
  destruct H as (_ & _ & _ & _ & _ & _ & Hvc & Hm & ->). cbn [confidence].
  rewrite (first_truthy_supplies props confidence_keys "confidence" (JNumber n)) in Hvc.
  - injection Hvc as <-. rewrite (parseInt_integer n c Hn) in Hm. injection Hm as <-.
    reflexivity.
  - apply supplies_first; [assumption|]. cbn. destruct Hn as [-> _].
    now destruct (Z.eqb_spec c 0).
Qed.

(** C6 (the code at the failing inputs). A confidence that is a truthy
    string without a leading integer, such as [high], does not take the
    default 50: [parseInt] gives [NaN], which [Math.max] and [Math.min] pass
    on, so the verdict's confidence is [NaN], neither 50 nor any integer. *)
Theorem non_numeric_confidence_is_NaN (props : list (string * JSValue)) (rule_ : string)
    (k s : string) (v : Verdict) :
  supplies props confidence_keys k (JString s) ->
  parseInt_string s = NaN ->
  normalize_fields (JObject props) rule_ = Return v ->
  confidence v = NaN.
Proof.
  intros Hk Hs H.
  apply normalize_fields_inv in H as (vs & ss & ve & se & vr & sr & vc & n & H).
  destruct H as (_ & _ & _ & _ & _ & _ & Hvc & Hn & ->). cbn [confidence].
  rewrite (first_truthy_supplies _ _ _ _ _ Hk) in Hvc. injection Hvc as <-.
  unfold parseInt in Hn. cbn [ToString bind] in Hn. injection Hn as <-.
  now rewrite Hs.
Qed.

(** Every chain selects something in every object. *)
Lemma selects_total (props : list (string * JSValue)) (keys : list string) :
  exists o, selects props keys o.
Proof.
  induction keys as [|k keys [o IH]]; [exists None; constructor|].
  destruct (own_property props k) as [x|] eqn:Hk.
  - destruct (ToBoolean x) eqn:Hx.
    + exists (Some x), k, [], keys. auto.
    + destruct o as [v|].
      * destruct IH as (k' & before & after & -> & Hb & Hk' & Hv).
        exists (Some v), k', (k :: before), after. repeat split; try assumption.
        constructor; [|assumption]. unfold falsy_at. now rewrite Hk.
      * exists None. constructor; [|assumption]. unfold falsy_at. now rewrite Hk.
  - destruct o as [v|].
    + destruct IH as (k' & before & after & -> & Hb & Hk' & Hv).
      exists (Some v), k', (k :: before), after. repeat split; try assumption.
      constructor; [|assumption]. unfold falsy_at. now rewrite Hk.
    + exists None. constructor; [|assumption]. unfold falsy_at. now rewrite Hk.
Qed.







(** Lower-casing maps exactly a letter and its capital to the letter. *)
Lemma toLowerCase_char_p (c : ascii) :
  Ascii.eqb (JSString.toLowerCase_char c) "p" = Ascii.eqb c "p" || Ascii.eqb c (capital "p").
Proof. destruct c as [[] [] [] [] [] [] [] []]; reflexivity. Qed.

Lemma toLowerCase_char_a (c : ascii) :
  Ascii.eqb (JSString.toLowerCase_char c) "a" = Ascii.eqb c "a" || Ascii.eqb c (capital "a").
Proof. destruct c as [[] [] [] [] [] [] [] []]; reflexivity. Qed.

Lemma toLowerCase_char_s (c : ascii) :
  Ascii.eqb (JSString.toLowerCase_char c) "s" = Ascii.eqb c "s" || Ascii.eqb c (capital "s").
Proof. destruct c as [[] [] [] [] [] [] [] []]; reflexivity. Qed.

Lemma toLowerCase_pass (s : string) :
  String.eqb (JSString.toLowerCase s) "pass" = spells "pass" s.
Proof.
  destruct s as [|c1 [|c2 [|c3 [|c4 [|c5 s]]]]]; cbn [JSString.toLowerCase String.eqb spells];
    try reflexivity;
    rewrite ?toLowerCase_char_p, ?toLowerCase_char_a, ?toLowerCase_char_s;
    try reflexivity;
    now rewrite ?andb_false_r.
Qed.

Lemma validStatus_spells (s : string) :
  validStatus (JSString.toLowerCase s) = if spells "pass" s then "pass" else "fail".
Proof.
  unfold validStatus. rewrite toLowerCase_pass.
  destruct (spells "pass" s) eqn:Hp.
  - rewrite <- toLowerCase_pass in Hp. apply String.eqb_eq in Hp. now rewrite Hp.
  - cbn [orb]. destruct (String.eqb_spec (JSString.toLowerCase s) "fail") as [-> |]; reflexivity.
Qed.

(** C9 (amended). When the normalizer returns a verdict, its status is
    [pass] exactly when the status value (the first truthy value under
    [status], [Status], or the default [fail]), converted to a string,
    spells [pass] in any mix of upper and lower case, and [fail] for every
    other value; a reply without a truthy status member gets [fail]. *)
Theorem status_closed_world (result : JSValue) (rule_ : string) (v : Verdict) :
  normalize_fields result rule_ = Return v ->
  (exists raw s,
      first_truthy result status_keys (JString "fail") = Return raw
      /\ ToString raw = Return s
      /\ status v = (if spells "pass" s then "pass" else "fail"))
  /\ (status v = "pass" \/ status v = "fail")
  /\ (forall props, result = JObject props ->
        Forall (falsy_at props) status_keys -> status v = "fail").
Proof.
  intros H.
  apply normalize_fields_inv in H as (vs & ss & ve & se & vr & sr & vc & n & H).
  destruct H as (Hvs & Hss & _ & _ & _ & _ & _ & _ & ->). cbn [status].
  rewrite validStatus_spells. split; [|split].
  - exists vs, ss. now repeat split.
  - destruct (spells "pass" ss); [now left | now right].
  - intros props -> Hf. rewrite (first_truthy_default props _ _ Hf) in Hvs.
    injection Hvs as <-. cbn in Hss. injection Hss as <-. reflexivity.
Qed.

(** C10 (amended). A field that is present but falsy is treated as missing:
    when evidence (or reasoning) is the empty string and no synonym of it
    has a truthy value, the verdict carries the placeholder; when
    confidence is a falsy Number (zero) and no synonym of it has a truthy
    value, the verdict carries 50. *)
Theorem falsy_field_gets_fallback (props : list (string * JSValue)) (rule_ : string)
    (v : Verdict) :
  fifty_is_50 ->
  normalize_fields (JObject props) rule_ = Return v ->
  (own_property props "evidence" = Some (JString EmptyString) ->
   falsy_at props "Evidence" -> falsy_at props "quote" ->
   evidence v = "No evidence provided")
  /\ (own_property props "reasoning" = Some (JString EmptyString) ->
      falsy_at props "Reasoning" -> falsy_at props "reason" ->
      reasoning v = "No reasoning provided")
  /\ (forall n, own_property props "confidence" = Some (JNumber n) ->
      Number_ToBoolean n = false ->
      falsy_at props "Confidence" -> falsy_at props "score" ->
      confidence v = Int 50).
Proof.
  intros H50 H.
  apply normalize_fields_inv in H as (vs & ss & ve & se & vr & sr & vc & m & H).
  destruct H as (_ & _ & Hve & Hse & Hvr & Hsr & Hvc & Hm & ->).
  cbn [evidence reasoning confidence]. repeat split.
  - intros H0 H1 H2. rewrite first_truthy_default in Hve.
    + injection Hve as <-. cbn in Hse. injection Hse as <-. reflexivity.
    + repeat constructor; try assumption. unfold falsy_at. now rewrite H0.
  - intros H0 H1 H2. rewrite first_truthy_default in Hvr.
    + injection Hvr as <-. cbn in Hsr. injection Hsr as <-. reflexivity.
    + repeat constructor; try assumption. unfold falsy_at. now rewrite H0.
  - intros n H0 Hn H1 H2. rewrite first_truthy_default in Hvc.
    + injection Hvc as <-. rewrite (parseInt_integer _ 50 H50) in Hm.
      injection Hm as <-. reflexivity.
    + repeat constructor; try assumption. unfold falsy_at. now rewrite H0.
Qed.

(** An object whose members all convert to strings is normalized without
    raising. *)
Lemma normalize_fields_returns (props : list (string * JSValue)) (rule_ : string) :
  (forall k x, own_property props k = Some x -> exists s, ToString x = Return s) ->
  exists v, normalize_fields (JObject props) rule_ = Return v.
Proof.
  intros Hp.
  assert (Hd : forall keys d, (exists s, ToString d = Return s) ->
            exists x s, first_truthy (JObject props) keys d = Return x
                        /\ ToString x = Return s).
  { intros keys d [sd Hsd].
    destruct (first_truthy_object props keys d) as (x & Hx & [-> | [k Hk]]).
    - eauto.
    - destruct (Hp k x Hk) as [s Hs]. eauto. }
  destruct (Hd status_keys (JString "fail")) as (vs & ss & Hvs & Hss); [cbn; eauto|].
  destruct (Hd evidence_keys (JString "No evidence provided")) as (ve & se & Hve & Hse);
    [cbn; eauto|].
  destruct (Hd reasoning_keys (JString "No reasoning provided")) as (vr & sr & Hvr & Hsr);
    [cbn; eauto|].
  destruct (Hd confidence_keys (JNumber (Number_ofZ 50))) as (vc & sc & Hvc & Hsc);
    [cbn; eauto|].
  eexists. eapply normalize_fields_intro; try eassumption.
  unfold parseInt. rewrite Hsc. reflexivity.
Qed.

End ParsedReplies.

(** ** The completion call and the rule loop *)

Section ServerFacts.
Context {E : Engine} {J : JSON E} {N : Network}.

Lemma normalize_content_rule (content rule_ : string) (v : Verdict) :
  normalize_content content rule_ = Return v -> rule v = rule_.
Proof.
  unfold normalize_content. destruct (JSON_parse _) as [result|message].
  - intros H. apply normalize_fields_inv in H as (? & ? & ? & ? & ? & ? & ? & ? & H).
    destruct H as (_ & _ & _ & _ & _ & _ & _ & _ & ->). reflexivity.
  - now intros [= <-].
Qed.

Lemma bindA_Return_inv {A B : Type} (c : Async A) (k : A -> Async B)
    (st st' : State) (b : B) :
  bindA c k st = (Return b, st') ->
  exists a st1, c st = (Return a, st1) /\ k a st1 = (Return b, st').
Proof.
  unfold bindA. destruct (c st) as [[a|m] st1]; [eauto | discriminate].
Qed.

(** A verdict returned by [validateWithLLM] echoes the rule. *)
Lemma validateWithLLM_rule (env : ProcessEnv) (pdfText rule_ : string)
    (st st' : State) (v : Verdict) :
  validateWithLLM env pdfText rule_ st = (Return v, st') -> rule v = rule_.
Proof.
  unfold validateWithLLM.
  destruct (GROQ_API_KEY env) as [apiKey|]; [|discriminate].
  destruct (String.eqb apiKey EmptyString); [discriminate|].
  unfold try_catch.
  destruct (validateWithLLM_try apiKey pdfText rule_ st) as [[v'|m] st1] eqn:Htry.
  - intros [= -> ->]. unfold validateWithLLM_try in Htry.
    apply bindA_Return_inv in Htry as ([ok body] & st2 & _ & Htry).
    destruct ok; cbn [negb] in Htry.
    + apply bindA_Return_inv in Htry as (data & st3 & _ & Htry).
      apply bindA_Return_inv in Htry as (choices & st4 & _ & Htry).
      apply bindA_Return_inv in Htry as (c0 & st5 & _ & Htry).
      destruct (negb (ToBoolean choices) || negb (ToBoolean c0)); [discriminate|].
      apply bindA_Return_inv in Htry as (content & st6 & _ & Htry).
      unfold lift in Htry. injection Htry as Htry _.
      now apply normalize_content_rule in Htry.
    + apply bindA_Return_inv in Htry as (errorData & st3 & _ & Htry).
      apply bindA_Return_inv in Htry as (m & st4 & _ & Htry). discriminate.
  - unfold validateWithLLM_catch.
    repeat match goal with |- context [if ?b then _ else _] => destruct b end;
      discriminate.
Qed.

(** One iteration never throws: it yields the verdict of [validateWithLLM]
    or, when that throws, the error verdict carrying the message. *)
Lemma validate_rule_outcome (env : ProcessEnv) (pdfText rule_ : string) (st : State) :
  exists v,
    validate_rule env pdfText rule_ st = (Return v, snd (validateWithLLM env pdfText rule_ st))
    /\ rule v = rule_
    /\ match fst (validateWithLLM env pdfText rule_ st) with
       | Return v' => v = v'
       | Throw message => v = error_verdict rule_ message
       end.
Proof.
  unfold validate_rule, try_catch.
  destruct (validateWithLLM env pdfText rule_ st) as [[v|m] st1] eqn:H; cbn [fst snd].
  - exists v. repeat split. now apply validateWithLLM_rule in H.
  - exists (error_verdict rule_ m). repeat split.
Qed.

Lemma bindA_step {A B : Type} (c : Async A) (k : A -> Async B)
    (st st1 : State) (a : A) :
  c st = (Return a, st1) -> bindA c k st = k a st1.
Proof. unfold bindA. now intros ->. Qed.

(** The pause between two rules returns. *)
Lemma pause_returns (i n : nat) (st : State) :
  exists st2,
    (if Z.of_nat i <? Z.of_nat n - 1 then await_timeout 1000 else ret tt) st
    = (Return tt, st2).
Proof. destruct (Z.of_nat i <? Z.of_nat n - 1); eexists; reflexivity. Qed.

(** One turn of the loop. *)
Lemma validate_loop_cons (env : ProcessEnv) (pdfText : string) (n i : nat)
    (r : string) (rest : list string) (acc : list Verdict) (st : State) :
  exists v st2,
    validate_loop env pdfText n i (r :: rest) acc st
    = validate_loop env pdfText n (S i) rest (acc ++ [v])%list st2
    /\ rule v = r
    /\ match fst (validateWithLLM env pdfText r st) with
       | Return v' => v = v'
       | Throw message => v = error_verdict r message
       end.
Proof.
  destruct (validate_rule_outcome env pdfText r st) as (v & Hv & Hr & Hout).
  destruct (pause_returns i n (snd (validateWithLLM env pdfText r st))) as [st2 Hp].
  exists v, st2. split; [|now split].
  cbn [validate_loop]. rewrite (bindA_step _ _ _ _ _ Hv).
  now rewrite (bindA_step _ _ _ _ _ Hp).
Qed.

(** The loop on a concatenation: the first part, then the second from the
    index, results and state the first part leaves. *)
Lemma validate_loop_app (env : ProcessEnv) (pdfText : string) (n : nat)
    (a b : list string) (i : nat) (acc : list Verdict) (st : State) :
  validate_loop env pdfText n i (a ++ b)%list acc st
  = match validate_loop env pdfText n i a acc st with
    | (Return acc', st') => validate_loop env pdfText n (i + List.length a) b acc' st'
    | (Throw m, st') => (Throw m, st')
    end.
Proof.
  revert i acc st. induction a as [|r a IH]; intros i acc st.
  - cbn [app validate_loop List.length ret]. now rewrite Nat.add_0_r.
  - cbn [app validate_loop List.length].
    destruct (validate_rule_outcome env pdfText r st) as (v & Hv & _ & _).
    destruct (pause_returns i n (snd (validateWithLLM env pdfText r st))) as [st2 Hp].
    rewrite !(bindA_step _ _ _ _ _ Hv), !(bindA_step _ _ _ _ _ Hp).
    rewrite IH. now rewrite Nat.add_succ_comm.
Qed.

(** The loop never throws and appends one verdict per rule, in order. *)
Lemma validate_loop_results (env : ProcessEnv) (pdfText : string) (n : nat)
    (rest : list string) (i : nat) (acc : list Verdict) (st : State) :
  exists vs st',
    validate_loop env pdfText n i rest acc st = (Return (acc ++ vs)%list, st')
    /\ map rule vs = rest.
Proof.
  revert i acc st. induction rest as [|r rest IH]; intros i acc st.
  - exists [], st. cbn. now rewrite app_nil_r.
  - destruct (validate_loop_cons env pdfText n i r rest acc st) as (v & st2 & -> & Hr & _).
    destruct (IH (S i) (acc ++ [v])%list st2) as (vs & st' & -> & Hvs).
    exists (v :: vs), st'. rewrite <- app_assoc. cbn. now rewrite Hr, Hvs.
Qed.

(** C4. For every batch of rules the loop returns one verdict per rule, in
    submission order: the verdict at a rule's position echoes that rule and
    is the one [validateWithLLM] returns for it in the state left by the
    rules before it, or, when that call throws, the verdict with status
    [error], evidence [N/A], the error's message as reasoning and
    confidence 0. Whatever happens to the other rules, every rule is
    processed in this way. *)
Theorem batch_one_verdict_per_rule (env : ProcessEnv) (pdfText : string)
    (rules : list string) (st : State) :
  exists results st',
    validate_rules env pdfText rules st = (Return results, st')
    /\ List.length results = List.length rules
    /\ map rule results = rules
    /\ forall i r, nth_error rules i = Some r ->
         exists v,
           nth_error results i = Some v
           /\ rule v = r
           /\ let st_i := snd (validate_loop env pdfText (List.length rules) 0
                                 (firstn i rules) [] st) in
              match fst (validateWithLLM env pdfText r st_i) with
              | Return v' => v = v'
              | Throw message =>
                  v = {| rule := r; status := "error"; evidence := "N/A";
                         reasoning := message; confidence := Int 0 |}
              end.
Proof.
  unfold validate_rules.
  destruct (validate_loop_results env pdfText (List.length rules) rules 0 [] st)
    as (results & st' & Hrun & Hrules).
  exists results, st'. cbn [app] in Hrun.
  split; [exact Hrun|]. split; [rewrite <- Hrules; now rewrite length_map|].
  split; [exact Hrules|].
  intros i r Hi.
  pose proof (nth_error_split rules i Hi) as (a & b & Hab & Hlen).
  assert (Hfirst : firstn i rules = a).
  { rewrite Hab, <- Hlen. rewrite firstn_app, Nat.sub_diag, firstn_all. cbn.
    apply app_nil_r. }
  rewrite Hfirst. rewrite Hab in Hrun at 2. rewrite validate_loop_app in Hrun.
  destruct (validate_loop_results env pdfText (List.length rules) a 0 [] st)
    as (va & sta & Ha & Hva).
  rewrite Ha in *. cbn [app snd Nat.add] in *.
  destruct (validate_loop_cons env pdfText (List.length rules) (List.length a) r b va sta)
    as (v & st2 & Hstep & Hr & Hout).
  rewrite Hstep in Hrun.
  destruct (validate_loop_results env pdfText (List.length rules) b
              (S (List.length a)) (va ++ [v])%list st2) as (vb & stb & Hb & _).
  rewrite Hb in Hrun. injection Hrun as <- <-.
  exists v. split; [|split; [exact Hr | exact Hout]].
  rewrite <- app_assoc. rewrite nth_error_app2; rewrite <- Hlen, <- Hva, length_map.
  - now rewrite Nat.sub_diag.
  - lia.
Qed.

(** *** Without the credential *)

Lemma validateWithLLM_unconfigured (env : ProcessEnv) (pdfText rule_ : string) (st : State) :
  credential_absent env ->
  validateWithLLM env pdfText rule_ st = (Throw not_configured, st).
Proof.
  unfold validateWithLLM. intros [-> | ->]; reflexivity.
Qed.

Lemma validate_rule_unconfigured (env : ProcessEnv) (pdfText rule_ : string) (st : State) :
  credential_absent env ->
  validate_rule env pdfText rule_ st = (Return (error_verdict rule_ not_configured), st).
Proof.
  intros H. unfold validate_rule, try_catch.
  now rewrite validateWithLLM_unconfigured.
Qed.

Lemma state_eta (st : State) : {| world := world st; trace := (trace st ++ [])%list |} = st.
Proof. destruct st. cbn. now rewrite app_nil_r. Qed.

Lemma validate_loop_unconfigured (env : ProcessEnv) (pdfText : string) (n : nat)
    (rest : list string) (i : nat) (acc : list Verdict) (st : State) :
  credential_absent env -> (i + List.length rest = n)%nat ->
  validate_loop env pdfText n i rest acc st
  = (Return (acc ++ map (fun r => error_verdict r not_configured) rest)%list,
     {| world := world st;
        trace := (trace st ++ repeat (Waited 1000) (List.length rest - 1))%list |}).
Proof.
  intros Henv. revert i acc st. induction rest as [|r rest IH]; intros i acc st Hn.
  - cbn. now rewrite app_nil_r, state_eta.
  - cbn [validate_loop].
    rewrite (bindA_step _ _ _ _ _ (validate_rule_unconfigured env pdfText r st Henv)).
    destruct rest as [|r' rest].
    + replace (Z.of_nat i <? Z.of_nat n - 1) with false
        by (symmetry; apply Z.ltb_ge; cbn in Hn; lia).
      cbn. now rewrite state_eta.
    + replace (Z.of_nat i <? Z.of_nat n - 1) with true
        by (symmetry; apply Z.ltb_lt; cbn in Hn; lia).
      unfold bindA at 1. cbn [await_timeout].
      rewrite IH by (cbn in *; lia).
      cbn [world trace map List.length]. rewrite <- !app_assoc. cbn [app].
      replace (S (S (List.length rest)) - 1)%nat with (S (S (List.length rest) - 1))
        by lia.
      reflexivity.
Qed.

(** C3 (amended). When the credential is absent no request is sent and the
    batch does not fail: the loop returns, for every rule in order, the
    verdict with status [error], evidence [N/A], the reasoning
    [Groq API key not configured in .env file] and confidence 0; the network
    is left untouched and the trace only grows by the pauses between the
    rules. *)
Theorem missing_credential_per_rule_errors (env : ProcessEnv) (pdfText : string)
    (rules : list string) (st : State) :
  credential_absent env ->
  validate_rules env pdfText rules st
  = (Return (map (fun r => {| rule := r; status := "error"; evidence := "N/A";
                              reasoning := "Groq API key not configured in .env file";
                              confidence := Int 0 |}) rules),
     {| world := world st;
        trace := (trace st ++ repeat (Waited 1000) (List.length rules - 1))%list |}).
Proof.
  intros H. unfold validate_rules.
  now rewrite validate_loop_unconfigured.
Qed.

End ServerFacts.

(** ** Further properties of the normalizer *)

Section NormalizerProperties.
Context {E : Engine} {J : JSON E}.

(** X4. A confidence given as a string that starts with an integer, with
    white space before it and anything but a digit or letter after it (as
    in [" 85"], ["85%"] or ["85.5"]), is read as that integer and clamped
    into 0..100. *)
Theorem confidence_string_leading_integer (props : list (string * JSValue))
    (rule_ k w rest : string) (c : Z) (v : Verdict) :
  supplies props confidence_keys k (JString (w ++ Z_to_string c ++ rest)) ->
  JSString.all_whitespace w = true ->
  ends_number rest = true ->
  normalize_fields (JObject props) rule_ = Return v ->
  confidence v = Int (Z.min 100 (Z.max 0 c)).
Proof.
  intros Hk Hw Hr H.
  apply normalize_fields_inv in H as (vs & ss & ve & se & vr & sr & vc & n & H).
  destruct H as (_ & _ & _ & _ & _ & _ & Hvc & Hn & ->). cbn [confidence].
  rewrite (first_truthy_supplies _ _ _ _ _ Hk) in Hvc. injection Hvc as <-.
  unfold parseInt in Hn. cbn [ToString bind] in Hn. injection Hn as <-.
  now rewrite LeadingIntegerFacts.parseInt_string_leading_integer.
Qed.

(** X5. Whatever the reply, a verdict returned by the normalizer echoes the
    rule, has the status [pass] or [fail] (never [error]), a confidence
    that is [NaN] or an integer from 0 to 100, and an evidence of at most
    200 characters; when the cleaned reply parses, the reasoning has at
    most 200 characters as well. *)
Theorem normalize_verdict_invariant (rawText rule_ : string) (v : Verdict) :
  normalize rawText rule_ = Return v ->
  rule v = rule_
  /\ (status v = "pass" \/ status v = "fail")
  /\ (confidence v = NaN \/ exists z, confidence v = Int z /\ 0 <= z <= 100)
  /\ JSString.len (evidence v) <= 200
  /\ ((exists result, JSON_parse (extractJSON (JSString.trim rawText)) = inl result) ->
      JSString.len (reasoning v) <= 200).
Proof.
  intros H. destruct (normalize_returns_shape _ _ _ H) as (Hr & Hs & Hc).
  repeat (split; [assumption|]).
  unfold normalize, normalize_content in H.
  destruct (JSON_parse _) as [result|message].
  - apply normalize_fields_inv in H as (vs & ss & ve & se & vr & sr & vc & n & H).
    destruct H as (_ & _ & _ & _ & _ & _ & _ & _ & ->). cbn [evidence reasoning].
    split; [|intros _]; apply SubstringFacts.substring_bounded; lia.
  - injection H as <-. cbn [evidence reasoning parse_failure]. split.
    + unfold JSString.len. cbn. lia.
    + intros [result Hres]. discriminate.
Qed.

Lemma first_truthy_plain (result : JSValue) (keys : list string) (d : JSValue) :
  is_plain result = true -> first_truthy result keys d = Return d.
Proof.
  intros H. induction keys as [|k keys IH]; [reflexivity|].
  cbn [first_truthy]. destruct result; try discriminate; cbn; exact IH.
Qed.

(** X6. A reply that parses to a number, a string, a boolean or an array
    has none of the members the normalizer reads: the verdict is made of
    the defaults, with status [fail] and confidence 50. A reply that parses
    to [null] makes the normalizer throw. *)
Theorem non_object_reply_defaults (result : JSValue) (rule_ : string) :
  fifty_is_50 ->
  is_plain result = true ->
  normalize_fields result rule_
  = Return {| rule := rule_;
              status := "fail";
              evidence := "No evidence provided";
              reasoning := "No reasoning provided";
              confidence := Int 50 |}
  /\ normalize_fields JNull rule_
     = Throw "Cannot read properties of null (reading 'status')".
Proof.
  intros H50 Hp. split; [|reflexivity].
  rewrite (normalize_fields_intro result rule_
             (JString "fail") (JString "No evidence provided")
             (JString "No reasoning provided") (JNumber (Number_ofZ 50))
             "fail" "No evidence provided" "No reasoning provided" (Int 50));
    try reflexivity; try (now apply first_truthy_plain).
  now apply parseInt_integer.
Qed.

Lemma ToString_primitive (x : JSValue) :
  is_primitive x = true -> exists s, ToString x = Return s.
Proof. destruct x; try discriminate; cbn; eauto. Qed.

Lemma own_property_member (props : list (string * JSValue)) (k : string) (x : JSValue) :
  own_property props k = Some x -> In x (map snd props).
Proof.
  induction props as [|[k' y] props IH]; [discriminate|]. cbn.
  destruct (own_property props k) as [z|].
  - intros [= ->]. right. now apply IH.
  - destruct (String.eqb k k'); [|discriminate]. intros [= ->]. now left.
Qed.

(** X7. An object reply whose members are all primitive values (strings,
    numbers, booleans, [null]) never makes the normalizer throw. *)
Theorem primitive_members_no_throw (props : list (string * JSValue)) (rule_ : string) :
  forallb is_primitive (map snd props) = true ->
  exists v, normalize_fields (JObject props) rule_ = Return v.
Proof.
  intros H. apply normalize_fields_returns.
  intros k x Hk. apply ToString_primitive.
  rewrite forallb_forall in H. apply H. now apply own_property_member with (k := k).
Qed.

End NormalizerProperties.

(** ** Further properties of the completion call and of the rule loop *)

Section ServerProperties.
Context {E : Engine} {J : JSON E} {N : Network}.

(** The state after the [try] block: one request more, sent to the
    network, and nothing else. *)
Lemma validateWithLLM_try_state (apiKey pdfText rule_ : string) (st : State) :
  snd (validateWithLLM_try apiKey pdfText rule_ st)
  = {| world := snd (fetch (completion_request apiKey pdfText rule_) (world st));
       trace := (trace st ++ [Fetched (completion_request apiKey pdfText rule_)])%list |}.
Proof.
  unfold validateWithLLM_try, bindA, await_fetch.
  destruct (fetch _ (world st)) as [[m | ok body] w]; cbn [snd]; [reflexivity|].
  destruct ok; cbn [negb]; destruct body as [data | m]; cbn [await_json ret throw];
    try reflexivity; unfold bindA, lift, throw, ret.
  - destruct (Get data "choices") as [choices|]; [|reflexivity].
    destruct (ToBoolean choices); cbn [negb orb]; [|reflexivity].
    destruct (Get0 choices) as [c0|]; [|reflexivity].
    destruct (ToBoolean c0); cbn [negb]; [|reflexivity].
    destruct (reply_content data); reflexivity.
  - destruct (api_error_message data); reflexivity.
Qed.

Lemma validateWithLLM_catch_throws (message : string) (st : State) :
  exists m, validateWithLLM_catch message st = (Throw m, st).
Proof.
  unfold validateWithLLM_catch.
  repeat match goal with |- context [if ?b then _ else _] => destruct b end;
    eexists; reflexivity.
Qed.

Lemma validateWithLLM_configured (env : ProcessEnv) (apiKey pdfText rule_ : string) :
  configured_with env apiKey ->
  validateWithLLM env pdfText rule_
  = try_catch (validateWithLLM_try apiKey pdfText rule_) validateWithLLM_catch.
Proof.
  intros [Hk Hne]. unfold validateWithLLM. rewrite Hk.
  now destruct (String.eqb_spec apiKey EmptyString).
Qed.

(** The [catch] block of [validateWithLLM] only throws: the state is the
    one its [try] block leaves. *)
Lemma validateWithLLM_catch_state (apiKey pdfText rule_ : string) (st : State) :
  snd (try_catch (validateWithLLM_try apiKey pdfText rule_) validateWithLLM_catch st)
  = snd (validateWithLLM_try apiKey pdfText rule_ st).
Proof.
  unfold try_catch.
  destruct (validateWithLLM_try apiKey pdfText rule_ st) as [[v|m] st1]; [reflexivity|].
  now destruct (validateWithLLM_catch_throws m st1) as [m' ->].
Qed.

Lemma validateWithLLM_trace (env : ProcessEnv) (apiKey pdfText rule_ : string)
    (st : State) :
  configured_with env apiKey ->
  trace (snd (validateWithLLM env pdfText rule_ st))
  = (trace st ++ [Fetched (completion_request apiKey pdfText rule_)])%list.
Proof.
  intros H. rewrite (validateWithLLM_configured _ _ _ _ H), validateWithLLM_catch_state.
  now rewrite validateWithLLM_try_state.
Qed.

(** X8. With the credential configured, one call of [validateWithLLM]
    sends exactly one request, the one built from the key, the document and
    the rule, whether it then returns or throws. *)
Theorem validateWithLLM_one_request (env : ProcessEnv) (apiKey pdfText rule_ : string)
    (st : State) :
  configured_with env apiKey ->
  snd (validateWithLLM env pdfText rule_ st)
  = {| world := snd (fetch (completion_request apiKey pdfText rule_) (world st));
       trace := (trace st ++ [Fetched (completion_request apiKey pdfText rule_)])%list |}.
Proof.
  intros H. rewrite (validateWithLLM_configured _ _ _ _ H), validateWithLLM_catch_state.
  apply validateWithLLM_try_state.
Qed.

Lemma validate_rule_state (env : ProcessEnv) (pdfText rule_ : string) (st : State) :
  snd (validate_rule env pdfText rule_ st) = snd (validateWithLLM env pdfText rule_ st).
Proof.
  destruct (validate_rule_outcome env pdfText rule_ st) as (v & -> & _). reflexivity.
Qed.

Lemma validate_loop_trace (env : ProcessEnv) (apiKey pdfText : string) (n : nat)
    (rest : list string) (i : nat) (acc : list Verdict) (st : State) :
  configured_with env apiKey -> (i + List.length rest = n)%nat ->
  trace (snd (validate_loop env pdfText n i rest acc st))
  = (trace st ++ paced (map (completion_request apiKey pdfText) rest))%list.
Proof.
  intros Henv. revert i acc st. induction rest as [|r rest IH]; intros i acc st Hn.
  - cbn. now rewrite app_nil_r.
  - cbn [validate_loop].
    destruct (validate_rule_outcome env pdfText r st) as (v & Hv & _).
    rewrite (bindA_step _ _ _ _ _ Hv).
    pose proof (validateWithLLM_trace env apiKey pdfText r st Henv) as Hst.
    destruct rest as [|r' rest].
    + replace (Z.of_nat i <? Z.of_nat n - 1) with false
        by (symmetry; apply Z.ltb_ge; cbn in Hn; lia).
      cbn. now rewrite Hst.
    + replace (Z.of_nat i <? Z.of_nat n - 1) with true
        by (symmetry; apply Z.ltb_lt; cbn in Hn; lia).
      unfold bindA at 1. cbn [await_timeout].
      rewrite IH by (cbn in *; lia). cbn [trace]. rewrite Hst. cbn [trace].
      rewrite <- !app_assoc. reflexivity.
Qed.

(** X9. With the credential configured, a batch sends one request per
    rule, in submission order, and waits one second between two consecutive
    requests and not after the last: nothing else is sent or waited for,
    whatever the calls return or throw. *)
Theorem batch_requests_paced (env : ProcessEnv) (apiKey pdfText : string)
    (parsedRules : list string) (st : State) :
  configured_with env apiKey ->
  trace (snd (validate_rules env pdfText parsedRules st))
  = (trace st ++ paced (map (completion_request apiKey pdfText) parsedRules))%list.
Proof.
  intros H. unfold validate_rules. now apply validate_loop_trace.
Qed.

Lemma normalize_content_status (content rule_ : string) (v : Verdict) :
  normalize_content content rule_ = Return v -> status v = "pass" \/ status v = "fail".
Proof.
  unfold normalize_content. destruct (JSON_parse _) as [result|message].
  - intros H. apply normalize_fields_inv in H as (? & ss & ? & ? & ? & ? & ? & ? & H).
    destruct H as (_ & _ & _ & _ & _ & _ & _ & _ & ->). cbn [status].
    destruct (validStatus_cases (JSString.toLowerCase ss)) as [[-> _]|[-> _]]; auto.
  - intros [= <-]. now right.
Qed.

(** A verdict returned by [validateWithLLM] comes from the normalizer. *)
Lemma validateWithLLM_returns_normalized (env : ProcessEnv) (pdfText rule_ : string)
    (st st' : State) (v : Verdict) :
  validateWithLLM env pdfText rule_ st = (Return v, st') ->
  exists content, normalize_content content rule_ = Return v.
Proof.
  unfold validateWithLLM.
  destruct (GROQ_API_KEY env) as [apiKey|]; [|discriminate].
  destruct (String.eqb apiKey EmptyString); [discriminate|].
  unfold try_catch.
  destruct (validateWithLLM_try apiKey pdfText rule_ st) as [[v'|m] st1] eqn:Htry.
  - intros [= -> ->]. unfold validateWithLLM_try in Htry.
    apply bindA_Return_inv in Htry as ([ok body] & st2 & _ & Htry).
    destruct ok; cbn [negb] in Htry.
    + apply bindA_Return_inv in Htry as (data & st3 & _ & Htry).
      apply bindA_Return_inv in Htry as (choices & st4 & _ & Htry).
      apply bindA_Return_inv in Htry as (c0 & st5 & _ & Htry).
      destruct (negb (ToBoolean choices) || negb (ToBoolean c0)); [discriminate|].
      apply bindA_Return_inv in Htry as (content & st6 & _ & Htry).
      unfold lift in Htry. injection Htry as Htry _. now exists content.
    + apply bindA_Return_inv in Htry as (errorData & st3 & _ & Htry).
      apply bindA_Return_inv in Htry as (m & st4 & _ & Htry). discriminate.
  - destruct (validateWithLLM_catch_throws m st1) as [m' ->]. discriminate.
Qed.

(** X10. In the loop, a rule's verdict has the status [error] exactly when
    [validateWithLLM] threw for that rule: a verdict it returns is [pass]
    or [fail]. *)
Theorem error_status_iff_thrown (env : ProcessEnv) (pdfText rule_ : string)
    (st st' : State) (v : Verdict) :
  validate_rule env pdfText rule_ st = (Return v, st') ->
  (status v = "error" <-> exists message, fst (validateWithLLM env pdfText rule_ st)
                                         = Throw message).
Proof.
  unfold validate_rule, try_catch.
  destruct (validateWithLLM env pdfText rule_ st) as [[v'|m] st1] eqn:H; cbn [fst].
  - intros [= -> ->]. split.
    + intros Hs. apply validateWithLLM_returns_normalized in H as [content H].
      apply normalize_content_status in H as [H | H]; rewrite H in Hs; discriminate.
    + intros [message Hm]. discriminate.
  - intros [= <- <-]. split; [eauto | reflexivity].
Qed.

Lemma await_fetch_outcome (req : Request) (st : State) :
  await_fetch req st
  = (match fst (fetch req (world st)) with
     | FetchRejected m => Throw m
     | Response ok body => Return (ok, body)
     end,
     {| world := snd (fetch req (world st));
        trace := (trace st ++ [Fetched req])%list |}).
Proof.
  unfold await_fetch. destruct (fetch req (world st)) as [[m | ok body] w]; reflexivity.
Qed.

(** X11. With the credential configured, a request that fails in the
    network or is answered with a status that is not a success never gives
    a [pass] or [fail] verdict: the rule gets an error verdict. *)
Theorem failed_response_error_verdict (env : ProcessEnv) (apiKey pdfText rule_ : string)
    (st : State) :
  configured_with env apiKey ->
  (exists message,
      fst (fetch (completion_request apiKey pdfText rule_) (world st))
      = FetchRejected message)
  \/ (exists body,
        fst (fetch (completion_request apiKey pdfText rule_) (world st))
        = Response false body) ->
  exists message,
    fst (validate_rule env pdfText rule_ st)
    = Return {| rule := rule_; status := "error"; evidence := "N/A";
                reasoning := message; confidence := Int 0 |}.
Proof.
  intros Henv Hf.
  assert (Hthrow : exists m, fst (validateWithLLM env pdfText rule_ st) = Throw m).
  { rewrite (validateWithLLM_configured _ _ _ _ Henv).
    unfold try_catch, validateWithLLM_try, bindA. rewrite await_fetch_outcome.
    destruct Hf as [[m ->] | [body ->]].
    - destruct (validateWithLLM_catch_throws m
                  {| world := snd (fetch (completion_request apiKey pdfText rule_) (world st));
                     trace := (trace st ++ [Fetched (completion_request apiKey pdfText rule_)])%list |})
        as [m' ->]. now exists m'.
    - cbn [negb]. destruct body as [errorData | m]; cbn [await_json ret throw].
      + unfold bindA, lift, throw.
        destruct (api_error_message errorData) as [m | m];
          match goal with
          | |- context [validateWithLLM_catch ?x ?s] =>
              destruct (validateWithLLM_catch_throws x s) as [m' ->]
          end; now exists m'.
      + match goal with
        | |- context [validateWithLLM_catch ?x ?s] =>
            destruct (validateWithLLM_catch_throws x s) as [m' ->]
        end. now exists m'. }
  destruct Hthrow as [m Hm]. exists m. unfold validate_rule, try_catch.
  destruct (validateWithLLM env pdfText rule_ st) as [[v|m0] st1]; cbn [fst] in *.
  - discriminate.
  - injection Hm as ->. reflexivity.
Qed.

(** X12. A successful response whose body is an object without a truthy
    [choices] member, or with an empty [choices] array, makes
    [validateWithLLM] throw [Invalid response structure from Groq]. *)
Theorem missing_choices_invalid_structure (env : ProcessEnv)
    (apiKey pdfText rule_ : string) (st : State) (dprops : list (string * JSValue)) :
  configured_with env apiKey ->
  fst (fetch (completion_request apiKey pdfText rule_) (world st))
  = Response true (JsonBody (JObject dprops)) ->
  falsy_at dprops "choices" \/ own_property dprops "choices" = Some (JArray []) ->
  fst (validateWithLLM env pdfText rule_ st)
  = Throw "Invalid response structure from Groq".
Proof.
  intros Henv Hf Hc. rewrite (validateWithLLM_configured _ _ _ _ Henv).
  unfold try_catch, validateWithLLM_try, bindA. rewrite await_fetch_outcome, Hf.
  cbn [negb await_json ret lift Get]. unfold falsy_at in Hc.
  destruct Hc as [Hc | Hc].
  - destruct (own_property dprops "choices") as [x|].
    + rewrite Hc. reflexivity.
    + reflexivity.
  - rewrite Hc. reflexivity.
Qed.

(** X13. A successful response with the envelope of a chat completion is
    handed to the normalizer: [validateWithLLM] returns the verdict the
    normalizer returns for the content of the first choice and the rule,
    and, when the normalizer throws, throws what its [catch] block makes
    of that error. *)
Theorem completion_reply_normalized (env : ProcessEnv) (apiKey pdfText rule_ : string)
    (st : State) (dprops cprops mprops : list (string * JSValue))
    (more : list JSValue) (rawText : string) :
  configured_with env apiKey ->
  fst (fetch (completion_request apiKey pdfText rule_) (world st))
  = Response true (JsonBody (JObject dprops)) ->
  own_property dprops "choices" = Some (JArray (JObject cprops :: more)) ->
  own_property cprops "message" = Some (JObject mprops) ->
  own_property mprops "content" = Some (JString rawText) ->
  fst (validateWithLLM env pdfText rule_ st)
  = match normalize rawText rule_ with
    | Return v => Return v
    | Throw message => fst (validateWithLLM_catch message st)
    end.
Proof.
  intros Henv Hf Hd Hc Hm. rewrite (validateWithLLM_configured _ _ _ _ Henv).
  unfold try_catch, validateWithLLM_try, bindA. rewrite await_fetch_outcome, Hf.
  assert (Hr : reply_content (JObject dprops) = Return (JSString.trim rawText)).
  { unfold reply_content. cbn [Get bind]. rewrite Hd. cbn [Get0 Get bind].
    rewrite Hc. cbn [Get bind]. now rewrite Hm. }
  cbv [negb await_json ret lift Get]. rewrite Hd.
  cbv [ToBoolean negb Get0 orb lift throw]. rewrite Hr. unfold normalize.
  destruct (normalize_content (JSString.trim rawText) rule_) as [v|m]; [reflexivity|].
  unfold validateWithLLM_catch.
  repeat match goal with |- context [if ?b then _ else _] => destruct b end;
    reflexivity.
Qed.

Lemma substring_0_app (a b : string) (m : nat) :
  (m <= String.length a)%nat ->
  String.substring 0 m (a ++ b) = String.substring 0 m a.
Proof.
  revert m. induction a as [|c a IH]; intros m Hm.
  - cbn in Hm. assert (m = 0%nat) as -> by lia. now destruct b.
  - destruct m as [|m]; [reflexivity|]. cbn. rewrite IH; [reflexivity | cbn in Hm; lia].
Qed.

Lemma substring_head (a b : string) (n : Z) :
  0 <= n <= JSString.len a ->
  JSString.substring (a ++ b) 0 n = JSString.substring a 0 n.
Proof.
  intros Hn. unfold JSString.substring. rewrite SliceFacts.len_app.
  pose proof (SliceFacts.len_nonneg b).
  replace (Z.min (Z.max 0 0) (JSString.len a + JSString.len b)) with 0 by lia.
  replace (Z.min (Z.max 0 0) (JSString.len a)) with 0 by lia.
  replace (Z.min (Z.max n 0) (JSString.len a + JSString.len b)) with n by lia.
  replace (Z.min (Z.max n 0) (JSString.len a)) with n by lia.
  replace (Z.min 0 n) with 0 by lia. replace (Z.max 0 n) with n by lia.
  rewrite Z.sub_0_r. change (Z.to_nat 0) with 0%nat.
  apply substring_0_app. unfold JSString.len in Hn. lia.
Qed.

(** X14. Only the first 4000 characters of the document count: two
    documents with the same first 4000 characters (or more) get the same
    request and the same outcome. *)
Theorem document_beyond_4000_ignored (env : ProcessEnv) (head tail1 tail2 rule_ : string)
    (st : State) :
  4000 <= JSString.len head ->
  validateWithLLM env (head ++ tail1) rule_ st
  = validateWithLLM env (head ++ tail2) rule_ st.
Proof.
  intros Hlen.
  assert (Hreq : forall apiKey,
             completion_request apiKey (head ++ tail1) rule_
             = completion_request apiKey (head ++ tail2) rule_).
  { intros apiKey. unfold completion_request, userPrompt.
    now rewrite !substring_head by lia. }
  unfold validateWithLLM. destruct (GROQ_API_KEY env) as [apiKey|]; [|reflexivity].
  destruct (String.eqb apiKey EmptyString); [reflexivity|].
  unfold try_catch, validateWithLLM_try. now rewrite Hreq.
Qed.

(** The words the [catch] block looks for occur in the message of an API
    error exactly when they occur in the provider's own message. *)
Lemma api_error_includes (e p : string) :
  p = "401" \/ p = "429" \/ p = "quota" ->
  JSString.includes ("Groq API error: " ++ e) p = JSString.includes e p.
Proof.
  intros [-> | [-> | ->]]; cbn [append];
    repeat (rewrite includes_cons_eq; cbn [String.prefix orb];
            match goal with
            | |- context [ascii_dec ?a ?b] => destruct (ascii_dec a b); [discriminate|]
            end; cbn [orb]);
    reflexivity.
Qed.

(** X15. A response that is not a success and carries the provider's error
    message gives an error whose message depends on that message only: an
    invalid key when it mentions [401], else a rate limit when it mentions
    [429], else an exhausted quota when it mentions [quota], and otherwise
    the provider's message after [Groq API error: ]. *)
Theorem api_error_mapping (env : ProcessEnv) (apiKey pdfText rule_ : string)
    (st : State) (dprops eprops : list (string * JSValue)) (e : string) :
  configured_with env apiKey ->
  fst (fetch (completion_request apiKey pdfText rule_) (world st))
  = Response false (JsonBody (JObject dprops)) ->
  own_property dprops "error" = Some (JObject eprops) ->
  own_property eprops "message" = Some (JString e) ->
  e <> EmptyString ->
  fst (validateWithLLM env pdfText rule_ st)
  = Throw (if JSString.includes e "401" then "Invalid API key"
           else if JSString.includes e "429" then "Rate limit exceeded"
           else if JSString.includes e "quota" then "API quota exceeded"
           else "Groq API error: " ++ e).
Proof.
  intros Henv Hf Hd He Hne. rewrite (validateWithLLM_configured _ _ _ _ Henv).
  unfold try_catch, validateWithLLM_try, bindA. rewrite await_fetch_outcome, Hf.
  assert (Ht : ToBoolean (JString e) = true).
  { cbn. now destruct (String.eqb_spec e EmptyString). }
  assert (Hm : api_error_message (JObject dprops) = Return ("Groq API error: " ++ e)).
  { unfold api_error_message. cbn [Get bind]. rewrite Hd. cbn [Get bind].
    rewrite He. cbn [bind]. rewrite Ht. reflexivity. }
  cbv [negb await_json ret lift]. rewrite Hm. cbv [throw]. unfold validateWithLLM_catch.
  rewrite !api_error_includes by auto.
  repeat match goal with |- context [if ?b then _ else _] => destruct b end;
    reflexivity.
Qed.

End ServerProperties.

(** ** The endpoints *)

Section EndpointProperties.
Context {E : Engine} {J : JSON E} {N : Network} {P : PdfReader} {R : Relational E}.

Lemma validate_rules_returns (env : ProcessEnv) (pdfText : string)
    (ruleList : list string) (st : State) :
  exists results st',
    validate_rules env pdfText ruleList st = (Return results, st')
    /\ map rule results = ruleList.
Proof.
  unfold validate_rules.
  destruct (validate_loop_results env pdfText (List.length ruleList) ruleList 0 [] st)
    as (vs & st' & Hv & Hr).
  now exists vs, st'.
Qed.

(** *** Rules that are strings *)

(** For a rule that is a string the loop body is the one for strings. *)
Lemma validate_value_string (env : ProcessEnv) (pdfText s : string) (st st1 : State)
    (v : Verdict) :
  validate_rule env pdfText s st = (Return v, st1) ->
  validate_value env pdfText (JString s) st = (Return (pushed v), st1).
Proof.
  unfold validate_rule, validate_value, validateWithLLM_value, try_catch.
  destruct (GROQ_API_KEY env) as [apiKey|] eqn:Hk.
  - destruct (String.eqb apiKey EmptyString) eqn:He.
    + unfold validateWithLLM. rewrite Hk, He. cbn. now intros [= <- <-].
    + unfold bindA at 1. cbn [lift ToString]. unfold bindA at 1.
      destruct (validateWithLLM env pdfText s st) as [[v'|m] st2] eqn:Hv.
      * intros [= <- <-]. cbn [ret]. unfold pushed.
        now rewrite (validateWithLLM_rule _ _ _ _ _ _ Hv).
      * cbn. now intros [= <- <-].
  - unfold validateWithLLM. rewrite Hk. cbn. now intros [= <- <-].
Qed.

(** The general loop on rules that are the strings [all]: it is the loop
    on strings, turn by turn. *)
Lemma validate_value_loop_strings (env : ProcessEnv) (pdfText : string)
    (parsedRules : JSValue) (all : list string) :
  (forall i, index_below i parsedRules = (Z.of_nat i <? Z.of_nat (List.length all))) ->
  (forall i, pause_due i parsedRules = (Z.of_nat i <? Z.of_nat (List.length all) - 1)) ->
  (forall i s, nth_error all i = Some s -> rule_at parsedRules i = JString s) ->
  forall (rest done : list string) (fuel : nat) (acc : list Verdict) (st : State),
    all = (done ++ rest)%list ->
    (List.length rest < fuel)%nat ->
    exists vs st',
      validate_loop env pdfText (List.length all) (List.length done) rest acc st
      = (Return (acc ++ vs)%list, st')
      /\ map rule vs = rest
      /\ validate_value_loop fuel env pdfText parsedRules (List.length done)
           (map pushed acc) st
         = Some (Return (map pushed (acc ++ vs)%list), st').
Proof.
  intros Hbelow Hpause Hat rest.
  induction rest as [|r rest IH]; intros done fuel acc st Hall Hfuel.
  - exists [], st. rewrite app_nil_r in *. split; [reflexivity|]. split; [reflexivity|].
    destruct fuel as [|fuel]; [cbn in Hfuel; lia|]. cbn [validate_value_loop].
    rewrite Hbelow, Hall. now rewrite Z.ltb_irrefl.
  - destruct fuel as [|fuel]; [cbn in Hfuel; lia|].
    destruct (validate_rule_outcome env pdfText r st) as (v & Hv & Hr & _).
    set (st1 := snd (validateWithLLM env pdfText r st)) in *.
    set (st2 := snd ((if Z.of_nat (List.length done) <? Z.of_nat (List.length all) - 1
                      then await_timeout 1000 else ret tt) st1)).
    destruct (IH (done ++ [r])%list fuel (acc ++ [v])%list st2) as (vs & st' & Hl & Hm & Hg).
    { now rewrite <- app_assoc. }
    { cbn in Hfuel. lia. }
    exists (v :: vs), st'. split; [|split].
    + cbn [validate_loop]. rewrite (bindA_step _ _ _ _ _ Hv).
      replace (List.length (done ++ [r])) with (S (List.length done)) in Hl
        by (rewrite length_app; cbn; lia).
      rewrite <- app_assoc in Hl. cbn [app] in Hl. rewrite <- Hl.
      unfold bindA at 1. subst st2.
      destruct (Z.of_nat (List.length done) <? Z.of_nat (List.length all) - 1);
        reflexivity.
    + cbn. now rewrite Hr, Hm.
    + cbn [validate_value_loop]. rewrite Hbelow.
      assert (Hlt : (Z.of_nat (List.length done) <? Z.of_nat (List.length all)) = true).
      { apply Z.ltb_lt. rewrite Hall, length_app. cbn. lia. }
      rewrite Hlt.
      rewrite (Hat (List.length done) r)
        by (rewrite Hall, nth_error_app2, Nat.sub_diag by lia; reflexivity).
      rewrite (validate_value_string _ _ _ _ _ _ Hv). rewrite Hpause. fold st2.
      replace (List.length (done ++ [r])) with (S (List.length done)) in Hg
        by (rewrite length_app; cbn; lia).
      rewrite map_app in Hg. cbn [map] in Hg. rewrite Hg.
      now rewrite <- app_assoc.
Qed.

Lemma characters_length (s : string) : List.length (characters s) = String.length s.
Proof. induction s as [|c s IH]; cbn; [reflexivity | now rewrite IH]. Qed.

Lemma characters_nth (s : string) (i : nat) (x : string) :
  nth_error (characters s) i = Some x ->
  exists c, String.get i s = Some c /\ x = String c EmptyString.
Proof.
  revert i. induction s as [|c s IH]; intros [|i]; cbn; try discriminate.
  - intros [= <-]. now exists c.
  - apply IH.
Qed.

(** The loop on an array of strings and on a string, with enough fuel. *)
Lemma validate_value_loop_array (fuel : nat) (env : ProcessEnv) (pdfText : string)
    (ruleList : list string) (st : State) :
  (List.length ruleList < fuel)%nat ->
  exists results st',
    validate_rules env pdfText ruleList st = (Return results, st')
    /\ map rule results = ruleList
    /\ validate_value_loop fuel env pdfText (JArray (map JString ruleList)) 0 [] st
       = Some (Return (map pushed results), st').
Proof.
  intros Hfuel.
  destruct (validate_value_loop_strings env pdfText (JArray (map JString ruleList)) ruleList)
    with (rest := ruleList) (done := @nil string) (fuel := fuel) (acc := @nil Verdict)
         (st := st) as (vs & st' & Hl & Hm & Hg); try reflexivity; try assumption.
  - intros i. cbn. now rewrite length_map.
  - intros i. cbn. now rewrite length_map.
  - intros i s Hs. cbn.
    rewrite (nth_error_nth (map JString ruleList) i JUndefined (x := JString s));
      [reflexivity|]. now rewrite nth_error_map, Hs.
  - exists vs, st'. now repeat split.
Qed.

Lemma validate_value_loop_string (fuel : nat) (env : ProcessEnv) (pdfText s : string)
    (st : State) :
  (String.length s < fuel)%nat ->
  exists results st',
    validate_rules env pdfText (characters s) st = (Return results, st')
    /\ map rule results = characters s
    /\ validate_value_loop fuel env pdfText (JString s) 0 [] st
       = Some (Return (map pushed results), st').
Proof.
  intros Hfuel.
  destruct (validate_value_loop_strings env pdfText (JString s) (characters s))
    with (rest := characters s) (done := @nil string) (fuel := fuel) (acc := @nil Verdict)
         (st := st) as (vs & st' & Hl & Hm & Hg); try reflexivity.
  - intros i. cbn. now rewrite characters_length.
  - intros i. cbn. now rewrite characters_length.
  - intros i x Hx. cbn. destruct (characters_nth _ _ _ Hx) as (c & -> & ->). reflexivity.
  - now rewrite characters_length.
  - exists vs, st'. now repeat split.
Qed.

(** *** Rules of any type *)

(** The loop body throws only when the rule has no string, and then with
    the message of the conversion. *)
Lemma validate_value_throws (env : ProcessEnv) (pdfText : string) (ruleValue : JSValue)
    (st st1 : State) (message : string) :
  validate_value env pdfText ruleValue st = (Throw message, st1) ->
  ToString ruleValue = Throw message.
Proof.
  unfold validate_value, try_catch.
  destruct (validateWithLLM_value env pdfText ruleValue st) as [[r|m] st2];
    [discriminate|].
  unfold bindA, lift, ret. destruct (ToString ruleValue) as [s|m']; [discriminate|].
  now intros [= -> _].
Qed.

Lemma validate_value_loop_throws (fuel : nat) (env : ProcessEnv) (pdfText : string)
    (parsedRules : JSValue) (i : nat) (acc : list Result) (st st' : State)
    (message : string) :
  validate_value_loop fuel env pdfText parsedRules i acc st = Some (Throw message, st') ->
  exists k, index_below k parsedRules = true
            /\ ToString (rule_at parsedRules k) = Throw message.
Proof.
  revert i acc st. induction fuel as [|fuel IH]; intros i acc st; [discriminate|].
  cbn [validate_value_loop].
  destruct (index_below i parsedRules) eqn:Hi; [|discriminate].
  destruct (validate_value env pdfText (rule_at parsedRules i) st) as [[r|m] st1] eqn:Hv.
  - apply IH.
  - intros [= -> _]. exists i. split; [exact Hi|].
    exact (validate_value_throws _ _ _ _ _ _ Hv).
Qed.

(** The handler case by case. *)
Lemma validate_handler_cases (fuel : nat) (env : ProcessEnv) (req : ValidateRequest)
    (st : State) (h : Handled) (st' : State) :
  validate_handler fuel env req st = Some (h, st') ->
  (exists message, h = respond 400 message /\ st' = st
     /\ (req_file req = None \/ req_rules req = None \/ req_rules req = Some EmptyString))
  \/ (exists file rules message,
        h = respond 500 message
        /\ req_file req = Some file /\ req_rules req = Some rules
        /\ rules <> EmptyString
        /\ ((JSON_parse rules = inr message /\ st' = st)
            \/ (exists parsedRules,
                   JSON_parse rules = inl parsedRules
                   /\ rules_logged parsedRules = Throw message /\ st' = st)
            \/ (extractPdfText (Upload.path file) = Throw message /\ st' = st)
            \/ (exists parsedRules i,
                   JSON_parse rules = inl parsedRules
                   /\ index_below i parsedRules = true
                   /\ ToString (rule_at parsedRules i) = Throw message)))
  \/ (exists file rules parsedRules pdfText results,
        h = {| reply := {| code := 200; payload := ResultsPayload results |};
               unlinked := Some (Upload.path file) |}
        /\ req_file req = Some file /\ req_rules req = Some rules
        /\ rules <> EmptyString
        /\ JSON_parse rules = inl parsedRules
        /\ extractPdfText (Upload.path file) = Return pdfText
        /\ validate_value_loop fuel env pdfText parsedRules 0 [] st
           = Some (Return results, st')).
Proof.
  unfold validate_handler. intros H.
  destruct (req_file req) as [file|] eqn:Hfile.
  2:{ injection H as <- <-. left. eexists. repeat split. now left. }
  destruct (req_rules req) as [rules|] eqn:Hrules.
  2:{ injection H as <- <-. left. eexists. repeat split. right. now left. }
  destruct (String.eqb_spec rules EmptyString) as [-> | Hne].
  { injection H as <- <-. left. eexists. repeat split. right. now right. }
  destruct (JSON_parse rules) as [parsedRules | m] eqn:Hparse.
  2:{ injection H as <- <-. right. left. exists file, rules, m.
      repeat split; auto. }
  destruct (rules_logged parsedRules) as [u | m] eqn:Hw.
  2:{ injection H as <- <-. right. left. exists file, rules, m.
      repeat split; auto. right. left. now exists parsedRules. }
  destruct (extractPdfText (Upload.path file)) as [pdfText | m] eqn:Hpdf.
  2:{ injection H as <- <-. right. left. exists file, rules, m.
      repeat split; auto. }
  destruct (validate_value_loop fuel env pdfText parsedRules 0 [] st)
    as [[[results | m] st2]|] eqn:Hloop; [| |discriminate].
  - injection H as <- <-. right. right.
    exists file, rules, parsedRules, pdfText, results. repeat split; auto.
  - injection H as <- <-. right. left. exists file, rules, m.
    repeat split; auto. right. right. right.
    destruct (validate_value_loop_throws _ _ _ _ _ _ _ _ _ Hloop) as (k & Hk & Hs).
    now exists parsedRules, k.
Qed.


(** X17. An answer other than 200 is decided before the rule loop, and the
    handler has then sent nothing to the provider and has not waited,
    with one exception: a rule that has no string (such as an object with
    a member [toString]) makes the loop throw when the rule is logged, and
    the answer is then 500 with the message of that conversion, whatever
    the earlier turns of the loop have sent. A 400 answer is always sent
    before anything else. *)
Theorem error_reply_before_any_request (fuel : nat) (env : ProcessEnv)
    (req : ValidateRequest) (st : State) (h : Handled) (st' : State) :
  validate_handler fuel env req st = Some (h, st') ->
  code (reply h) <> 200 ->
  (code (reply h) = 400 -> st' = st)
  /\ (st' = st
      \/ exists rules parsedRules i message,
           req_rules req = Some rules
           /\ JSON_parse rules = inl parsedRules
           /\ index_below i parsedRules = true
           /\ ToString (rule_at parsedRules i) = Throw message
           /\ h = respond 500 message).
Proof.
  intros H Hc. destruct (validate_handler_cases _ _ _ _ _ _ H)
    as [(m & -> & -> & _)
       | [(file & rules & m & -> & _ & Hr & _ & Hcause)
         | (file & rules & pr & pdf & results & -> & _)]].
  - split; [reflexivity | now left].
  - split; [discriminate|].
    destruct Hcause as [[_ ->] | [(pr & _ & _ & ->) | [[_ ->] | (pr & i & Hp & Hi & Hs)]]];
      try (now left).
    right. now exists rules, pr, i, m.
  - now cbn in Hc.
Qed.

(** X18. A 500 answer comes from the rules or from the PDF, never from
    the provider: its message is the message of [JSON.parse] on the rules
    text, of reading or converting [length] of the parsed rules, of the
    conversion of a rule to a string, or of the text extraction. *)
Theorem server_error_causes (fuel : nat) (env : ProcessEnv) (req : ValidateRequest)
    (st : State) (h : Handled) (st' : State) :
  validate_handler fuel env req st = Some (h, st') ->
  code (reply h) = 500 ->
  exists file rules message,
    req_file req = Some file /\ req_rules req = Some rules
    /\ payload (reply h) = ErrorPayload message
    /\ (JSON_parse rules = inr message
        \/ (exists parsedRules,
               JSON_parse rules = inl parsedRules
               /\ (rules_logged parsedRules = Throw message
                   \/ exists i, index_below i parsedRules = true
                                /\ ToString (rule_at parsedRules i) = Throw message))
        \/ extractPdfText (Upload.path file) = Throw message).
Proof.
  intros H Hc. destruct (validate_handler_cases _ _ _ _ _ _ H)
    as [(m & -> & _) | [(file & rules & m & -> & Hf & Hr & _ & Hcause)
                       | (file & rules & pr & pdf & results & -> & _)]];
    [discriminate Hc | | discriminate Hc].
  exists file, rules, m. repeat split; auto.
  destruct Hcause as [[Hp _] | [(pr & Hp & Hl & _) | [[Hp _] | (pr & i & Hp & Hi & Hs)]]].
  - now left.
  - right. left. exists pr. split; [exact Hp | now left].
  - now right; right.
  - right. left. exists pr. split; [exact Hp|]. right. now exists i.
Qed.

(** X19. A request with a file whose text can be extracted and a rules
    text that is not empty and parses to an array of strings is answered
    with 200 and one verdict per rule, in order, each echoing its rule,
    whatever the credential and whatever the provider answers; the file is
    handed to [fs.unlink]. (The loop ends after one turn per rule.) *)
Theorem array_of_rules_answered (fuel : nat) (env : ProcessEnv) (req : ValidateRequest)
    (st : State) (file : Upload.t) (rules pdfText : string) (ruleList : list string) :
  req_file req = Some file ->
  req_rules req = Some rules ->
  rules <> EmptyString ->
  JSON_parse rules = inl (JArray (map JString ruleList)) ->
  extractPdfText (Upload.path file) = Return pdfText ->
  (List.length ruleList < fuel)%nat ->
  exists results st',
    validate_handler fuel env req st
    = Some ({| reply := {| code := 200; payload := ResultsPayload (map pushed results) |};
               unlinked := Some (Upload.path file) |}, st')
    /\ validate_rules env pdfText ruleList st = (Return results, st')
    /\ map rule results = ruleList.
Proof.
  intros Hf Hr Hne Hp Hpdf Hfuel. unfold validate_handler. rewrite Hf, Hr.
  destruct (String.eqb_spec rules EmptyString) as [-> | _]; [contradiction|].
  rewrite Hp. cbn [rules_logged]. rewrite Hpdf.
  destruct (validate_value_loop_array fuel env pdfText ruleList st Hfuel)
    as (results & st2 & Hv & Hm & Hg).
  rewrite Hg. exists results, st2. now repeat split.
Qed.

(** X20. Rules sent as one JSON string instead of an array are not
    rejected: the loop walks the string, and the answer is 200 with one
    verdict per character, each character taken as a rule. (The loop ends
    after one turn per character.) *)
Theorem string_rules_walked_by_character (fuel : nat) (env : ProcessEnv)
    (req : ValidateRequest) (st : State) (file : Upload.t) (rules pdfText s : string) :
  req_file req = Some file ->
  req_rules req = Some rules ->
  rules <> EmptyString ->
  JSON_parse rules = inl (JString s) ->
  extractPdfText (Upload.path file) = Return pdfText ->
  (String.length s < fuel)%nat ->
  exists results st',
    validate_handler fuel env req st
    = Some ({| reply := {| code := 200; payload := ResultsPayload (map pushed results) |};
               unlinked := Some (Upload.path file) |}, st')
    /\ map rule results = characters s
    /\ List.length results = Z.to_nat (JSString.len s).
Proof.
  intros Hf Hr Hne Hp Hpdf Hfuel. unfold validate_handler. rewrite Hf, Hr.
  destruct (String.eqb_spec rules EmptyString) as [-> | _]; [contradiction|].
  rewrite Hp. cbn [rules_logged]. rewrite Hpdf.
  destruct (validate_value_loop_string fuel env pdfText s st Hfuel)
    as (results & st2 & Hv & Hm & Hg).
  rewrite Hg. exists results, st2. repeat split; [exact Hm|].
  rewrite <- (length_map rule), Hm, characters_length. unfold JSString.len.
  now rewrite Nat2Z.id.
Qed.

End EndpointProperties.

Section HealthProperties.
Context {E : Engine} {J : JSON E} {N : Network}.

(** X21. The health endpoint and the validator agree on the credential:
    when [apiKeyConfigured] is reported true every call of
    [validateWithLLM] sends its request, and when it is reported false
    every call throws the configuration error and sends nothing. *)
Theorem health_agrees_with_validator (env : ProcessEnv) (pdfText rule_ : string)
    (st : State) :
  if Health.apiKeyConfigured (health env) then
    exists apiKey,
      GROQ_API_KEY env = Some apiKey
      /\ trace (snd (validateWithLLM env pdfText rule_ st))
         = (trace st ++ [Fetched (completion_request apiKey pdfText rule_)])%list
  else
    validateWithLLM env pdfText rule_ st = (Throw not_configured, st).
Proof.
  unfold health. cbn [Health.apiKeyConfigured].
  destruct (GROQ_API_KEY env) as [apiKey|] eqn:Hk.
  - destruct (String.eqb_spec apiKey EmptyString) as [-> | Hne]; cbn [negb].
    + unfold validateWithLLM. now rewrite Hk.
    + exists apiKey. split; [reflexivity|].
      assert (Henv : configured_with env apiKey) by now split.
      exact (validateWithLLM_trace env apiKey pdfText rule_ st Henv).
  - unfold validateWithLLM. now rewrite Hk.
Qed.

End HealthProperties.

(** ** Closed instances, on the reference engine *)

Module Examples.
Import Reference.

(** *** Replies and their verdicts *)

Example purpose_scenario :
  normalize purpose_reply purpose_rule
  = Return {| rule := purpose_rule;
              status := "pass";
              evidence := "Purpose: to define onboarding steps.";
              reasoning := "Document opens with an explicit purpose statement.";
              confidence := Int 93 |}.
Proof. reflexivity. Qed.

Example confidence_150 :
  normalize (json_text "{'status':'pass','evidence':'e','reasoning':'r','confidence':150}")
    purpose_rule
  = Return {| rule := purpose_rule; status := "pass"; evidence := "e"; reasoning := "r";
              confidence := Int 100 |}.
Proof. reflexivity. Qed.

Example confidence_minus_5 :
  normalize (json_text "{'status':'pass','evidence':'e','reasoning':'r','confidence':-5}")
    purpose_rule
  = Return {| rule := purpose_rule; status := "pass"; evidence := "e"; reasoning := "r";
              confidence := Int 0 |}.
Proof. reflexivity. Qed.

Example confidence_fraction :
  normalize (json_text "{'status':'pass','evidence':'e','reasoning':'r','confidence':87.5}")
    purpose_rule
  = Return {| rule := purpose_rule; status := "pass"; evidence := "e"; reasoning := "r";
              confidence := Int 87 |}.
Proof. reflexivity. Qed.

Example synonyms_and_case :
  normalize (json_text "{'Status':'PASS','quote':'q','reason':'r','score':'42'}") purpose_rule
  = Return {| rule := purpose_rule; status := "pass"; evidence := "q"; reasoning := "r";
              confidence := Int 42 |}.
Proof. reflexivity. Qed.

Example status_maybe :
  normalize (json_text "{'status':'maybe','evidence':'e','reasoning':'r','confidence':70}")
    purpose_rule
  = Return {| rule := purpose_rule; status := "fail"; evidence := "e"; reasoning := "r";
              confidence := Int 70 |}.
Proof. reflexivity. Qed.

Example status_missing :
  normalize (json_text "{'evidence':'e','reasoning':'r','confidence':70}") purpose_rule
  = Return {| rule := purpose_rule; status := "fail"; evidence := "e"; reasoning := "r";
              confidence := Int 70 |}.
Proof. reflexivity. Qed.

Example prose_around_object :
  normalize ("Sure! " ++ purpose_reply ++ " Hope this helps.") purpose_rule
  = normalize purpose_reply purpose_rule.
Proof. reflexivity. Qed.

(** A reply that is the JSON text [null] makes the normalizer throw. *)
Example null_reply_throws :
  normalize "null" purpose_rule = Throw "Cannot read properties of null (reading 'status')".
Proof. reflexivity. Qed.

(** *** The well-formedness invariant *)

(** C1 (the code at the failing input). The reply has the four canonical
    fields, but its confidence is the string [high]: the normalizer returns
    a verdict whose confidence is [NaN], which is not well-formed. *)
Theorem non_numeric_confidence_not_well_formed :
  exists v,
    normalize
      (json_text "{'status':'pass','evidence':'e','reasoning':'r','confidence':'high'}")
      purpose_rule = Return v
    /\ v = {| rule := purpose_rule; status := "pass"; evidence := "e"; reasoning := "r";
              confidence := NaN |}
    /\ ~ well_formed v.
Proof.
  eexists. split; [reflexivity|]. split; [reflexivity|].
  intros [_ (z & Hz & _)]. discriminate.
Qed.

(** *** Replies that cannot be parsed *)

(** C2, refuted as stated: the text [I think it passes.] is rejected by
    [JSON.parse] and the verdict returned has the status [fail], not
    [error]; and the reply [null] makes the normalizer throw. *)
Lemma unparsable_reply_not_error :
  JSON_parse (extractJSON (JSString.trim "I think it passes."))
  = inr "Unexpected token I in JSON at position 0"
  /\ (exists v, normalize "I think it passes." purpose_rule = Return v
                /\ status v = "fail" /\ status v <> "error")
  /\ (exists message, normalize "null" purpose_rule = Throw message).
Proof.
  split; [reflexivity|]. split.
  - eexists. split; [reflexivity|]. split; [reflexivity | discriminate].
  - eexists. reflexivity.
Qed.

Lemma unparsable_reply_verdict_witness :
  JSON_parse (extractJSON (JSString.trim "I think it passes."))
  = inr "Unexpected token I in JSON at position 0"
  /\ (normalize "I think it passes." purpose_rule
      = Return {| rule := purpose_rule;
                  status := "fail";
                  evidence := "Unable to parse LLM response";
                  reasoning := "Parse error: " ++ "Unexpected token I in JSON at position 0"
                               ++ ". Raw content: "
                               ++ JSString.substring
                                    (extractJSON (JSString.trim "I think it passes.")) 0 100;
                  confidence := Int 0 |}
      /\ JSString.len
           (JSString.substring (extractJSON (JSString.trim "I think it passes.")) 0 100)
         <= 100).
Proof.
  split; [reflexivity|].
  apply (unparsable_reply_verdict "I think it passes." purpose_rule
           "Unexpected token I in JSON at position 0").
  reflexivity.
Defined.

(** *** Well-formed replies *)

(** C5, refuted as stated: an empty evidence, an empty reasoning and a
    confidence of 0 are within the claim's bounds and are not reproduced;
    neither is an evidence that contains a fence, which the cleaning step
    removes, with the white space after it, before the text is parsed. *)
Lemma falsy_values_not_reproduced :
  (exists v,
      normalize (json_text "{'status':'pass','evidence':'','reasoning':'r','confidence':87}")
        purpose_rule = Return v
      /\ evidence v = "No evidence provided" /\ evidence v <> EmptyString)
  /\ (exists v,
        normalize (json_text "{'status':'pass','evidence':'e','reasoning':'','confidence':87}")
          purpose_rule = Return v
        /\ reasoning v = "No reasoning provided" /\ reasoning v <> EmptyString)
  /\ (exists v,
        normalize (json_text "{'status':'pass','evidence':'e','reasoning':'r','confidence':0}")
          purpose_rule = Return v
        /\ confidence v = Int 50 /\ confidence v <> Int 0)
  /\ (exists v,
        normalize
          (json_text "{'status':'pass','evidence':'use ``` here','reasoning':'r','confidence':87}")
          purpose_rule = Return v
        /\ evidence v = "use here" /\ evidence v <> "use ``` here").
Proof.
  repeat split; eexists; (split; [reflexivity|]); split; (reflexivity || discriminate).
Qed.

Lemma well_formed_reply_witness :
  JSString.includes
    (" " ++ "{" ++ json_text "'status':'pass','evidence':'e','reasoning':'r','confidence':87"
     ++ "}" ++ newline) fence = false
  /\ JSON_parse
       ("{" ++ json_text "'status':'pass','evidence':'e','reasoning':'r','confidence':87"
        ++ "}")
     = inl (JObject canonical_props)
  /\ Number_is (RInt 87 : number) 87
  /\ normalize
       (" " ++ "{" ++ json_text "'status':'pass','evidence':'e','reasoning':'r','confidence':87"
        ++ "}" ++ newline) purpose_rule
     = Return {| rule := purpose_rule; status := "pass"; evidence := "e"; reasoning := "r";
                 confidence := Int 87 |}.
Proof.
  split; [reflexivity|]. split; [reflexivity|]. split; [split; reflexivity|].
  apply (well_formed_reply_reproduced (E := engine) " "
           (json_text "'status':'pass','evidence':'e','reasoning':'r','confidence':87")
           newline purpose_rule canonical_props "pass" "e" "r" (RInt 87) 87);
    try reflexivity; try discriminate; try (left; reflexivity);
    try (split; reflexivity); try (cbv; discriminate); lia.
Defined.

(** *** Confidence *)

Example confidence_high :
  normalize_fields (JObject high_props) purpose_rule
  = Return {| rule := purpose_rule; status := "pass";
              evidence := "No evidence provided"; reasoning := "No reasoning provided";
              confidence := NaN |}.
Proof. reflexivity. Qed.

Lemma non_numeric_confidence_witness :
  supplies high_props confidence_keys "confidence" (JString "high")
  /\ parseInt_string "high" = NaN
  /\ normalize_fields (JObject high_props) purpose_rule
     = Return {| rule := purpose_rule; status := "pass";
                 evidence := "No evidence provided";
                 reasoning := "No reasoning provided";
                 confidence := NaN |}
  /\ confidence {| rule := purpose_rule; status := "pass";
                   evidence := "No evidence provided";
                   reasoning := "No reasoning provided";
                   confidence := NaN |} = NaN.
Proof.
  assert (Hk : supplies high_props confidence_keys "confidence" (JString "high")).
  { exists [], ["Confidence"; "score"]. repeat split. constructor. }
  split; [exact Hk|]. split; [reflexivity|]. split; [reflexivity|].
  exact (non_numeric_confidence_is_NaN high_props purpose_rule "confidence" "high" _
           Hk eq_refl eq_refl).
Defined.

(** *** Fences *)

Lemma fenced_reply_witness :
  JSString.all_whitespace newline = true
  /\ normalize (fenced newline ("{" ++ json_text "'status':'pass','confidence':93" ++ "}")
                  newline) purpose_rule
     = normalize ("{" ++ json_text "'status':'pass','confidence':93" ++ "}") purpose_rule.
Proof.
  split; [reflexivity|].
  apply (fenced_reply_same_verdict newline (json_text "'status':'pass','confidence':93")
           newline purpose_rule); reflexivity.
Defined.

(** *** Synonyms *)


(** *** Status *)

(** C9, refuted as stated: not every parsed reply gets [pass] or [fail].
    The reply [null], and a reply whose status is an object with a member
    [toString], make the normalizer throw, and the verdict of the rule,
    built by the loop, has the status [error]. *)
Lemma unnormalized_reply_gets_error :
  JSON_parse (extractJSON (JSString.trim "null")) = inl JNull
  /\ normalize "null" purpose_rule
     = Throw "Cannot read properties of null (reading 'status')"
  /\ (exists v,
        fst (validate_rule configured "Purpose: to define onboarding steps." purpose_rule
               (start [completion "null"])) = Return v
        /\ status v = "error" /\ status v <> "fail")
  /\ normalize (json_text "{'status':{'toString':1}}") purpose_rule
     = Throw "Cannot convert object to primitive value"
  /\ (exists v,
        fst (validate_rule configured "Purpose: to define onboarding steps." purpose_rule
               (start [completion (json_text "{'status':{'toString':1}}")])) = Return v
        /\ status v = "error" /\ status v <> "fail").
Proof.
  split; [reflexivity|]. split; [reflexivity|]. split.
  - eexists. split; [reflexivity|]. split; [reflexivity | discriminate].
  - split; [reflexivity|].
    eexists. split; [reflexivity|]. split; [reflexivity | discriminate].
Qed.

Lemma status_closed_world_witness :
  normalize_fields (JObject synonym_props) purpose_rule = Return Sample.synonym_verdict
  /\ (exists raw s,
        first_truthy (JObject synonym_props) status_keys (JString "fail") = Return raw
        /\ ToString raw = Return s
        /\ status Sample.synonym_verdict = (if spells "pass" s then "pass" else "fail"))
  /\ (status Sample.synonym_verdict = "pass" \/ status Sample.synonym_verdict = "fail")
  /\ (forall props, JObject synonym_props = JObject props ->
        Forall (falsy_at props) status_keys -> status Sample.synonym_verdict = "fail").
Proof.
  split; [reflexivity|].
  exact (status_closed_world (JObject synonym_props) purpose_rule Sample.synonym_verdict
           eq_refl).
Defined.

(** *** Falsy fields *)

(** C10, refuted as stated: the evidence and the reasoning are the empty
    string and the confidence is 0, yet the verdict carries the values of
    the synonyms [quote], [reason] and [score], not the placeholders and
    50. *)
Lemma falsy_field_takes_synonym :
  exists v,
    normalize
      (json_text ("{'status':'pass','evidence':'','quote':'q','reasoning':'',"
                  ++ "'reason':'why','confidence':0,'score':93}"))
      purpose_rule = Return v
    /\ evidence v = "q" /\ evidence v <> "No evidence provided"
    /\ reasoning v = "why" /\ reasoning v <> "No reasoning provided"
    /\ confidence v = Int 93 /\ confidence v <> Int 50.
Proof.
  eexists. split; [reflexivity|]. repeat split; (reflexivity || discriminate).
Qed.

Lemma falsy_field_witness :
  fifty_is_50
  /\ normalize_fields (JObject falsy_props) purpose_rule = Return (default_verdict "pass")
  /\ own_property falsy_props "evidence" = Some (JString EmptyString)
  /\ own_property falsy_props "reasoning" = Some (JString EmptyString)
  /\ own_property falsy_props "confidence" = Some (JNumber (RInt 0))
  /\ evidence (default_verdict "pass") = "No evidence provided"
  /\ reasoning (default_verdict "pass") = "No reasoning provided"
  /\ confidence (default_verdict "pass") = Int 50.
Proof.
  assert (H50 : fifty_is_50) by (split; reflexivity).
  destruct (falsy_field_gets_fallback falsy_props purpose_rule (default_verdict "pass")
              H50 eq_refl) as (He & Hr & Hc).
  split; [exact H50|]. do 4 (split; [reflexivity|]).
  split; [exact (He eq_refl I I)|].
  split; [exact (Hr eq_refl I I)|].
  exact (Hc (RInt 0) eq_refl eq_refl I I).
Defined.

(** *** Batches *)

(** Three rules, the request of the second one failing: three verdicts, the
    first and the third from the replies, the second an error verdict. *)
Example second_of_three_fails :
  fst (validate_rules configured "Purpose: to define onboarding steps."
         ["rule 1"; "rule 2"; "rule 3"]
         (start [completion purpose_reply;
                 FetchRejected "fetch failed";
                 completion (json_text "{'status':'fail','evidence':'e','reasoning':'r','confidence':20}")]))
  = Return [{| rule := "rule 1"; status := "pass";
               evidence := "Purpose: to define onboarding steps.";
               reasoning := "Document opens with an explicit purpose statement.";
               confidence := Int 93 |};
            {| rule := "rule 2"; status := "error"; evidence := "N/A";
               reasoning := "fetch failed"; confidence := Int 0 |};
            {| rule := "rule 3"; status := "fail"; evidence := "e"; reasoning := "r";
               confidence := Int 20 |}].
Proof. reflexivity. Qed.

(** C3, refuted as stated: without the credential the batch returns, one
    error verdict per rule, and does not fail as a whole. *)
Lemma missing_credential_batch_returns :
  credential_absent unconfigured
  /\ validate_rules unconfigured "Purpose: to define onboarding steps."
       ["rule 1"; "rule 2"] (start [])
     = (Return [{| rule := "rule 1"; status := "error"; evidence := "N/A";
                   reasoning := "Groq API key not configured in .env file";
                   confidence := Int 0 |};
                {| rule := "rule 2"; status := "error"; evidence := "N/A";
                   reasoning := "Groq API key not configured in .env file";
                   confidence := Int 0 |}],
        {| world := []; trace := [Waited 1000] |}).
Proof. split; [left|]; reflexivity. Qed.

Lemma missing_credential_witness :
  credential_absent unconfigured
  /\ validate_rules unconfigured "Purpose: to define onboarding steps."
       ["rule 1"; "rule 2"; "rule 3"] (start [])
     = (Return (map (fun r => {| rule := r; status := "error"; evidence := "N/A";
                                 reasoning := "Groq API key not configured in .env file";
                                 confidence := Int 0 |}) ["rule 1"; "rule 2"; "rule 3"]),
        {| world := world (start []);
           trace := (trace (start []) ++ repeat (Waited 1000) (3 - 1))%list |}).
Proof.
  split; [left; reflexivity|].
  apply (missing_credential_per_rule_errors unconfigured
           "Purpose: to define onboarding steps." ["rule 1"; "rule 2"; "rule 3"] (start [])).
  left; reflexivity.
Defined.

End Examples.
(** ** Further examples *)

Module FurtherExamples.
Import Reference Sample.

Lemma extractJSON_prose_witness :
  JSString.includes ("Sure! " ++ "{" ++ "1" ++ "}" ++ " Done.") "`" = false
  /\ JSString.includes "Sure! " "{" = false
  /\ JSString.includes " Done." "}" = false
  /\ extractJSON ("Sure! " ++ "{" ++ "1" ++ "}" ++ " Done.") = "{" ++ "1" ++ "}".
Proof.
  do 3 (split; [reflexivity|]).
  apply (extractJSON_prose "Sure! " "1" " Done."); reflexivity.
Defined.

Lemma confidence_string_witness :
  supplies percent_props confidence_keys "confidence"
    (JString (" " ++ Z_to_string 85 ++ "%"))
  /\ normalize_fields (JObject percent_props) purpose_rule
     = Return {| rule := purpose_rule; status := "pass";
                 evidence := "No evidence provided";
                 reasoning := "No reasoning provided";
                 confidence := Int 85 |}
  /\ confidence {| rule := purpose_rule; status := "pass";
                   evidence := "No evidence provided";
                   reasoning := "No reasoning provided";
                   confidence := Int 85 |}
     = Int (Z.min 100 (Z.max 0 85)).
Proof.
  assert (Hk : supplies percent_props confidence_keys "confidence"
                 (JString (" " ++ Z_to_string 85 ++ "%"))).
  { exists [], ["Confidence"; "score"]. repeat split. constructor. }
  split; [exact Hk|]. split; [reflexivity|].
  exact (confidence_string_leading_integer percent_props purpose_rule "confidence"
           " " "%" 85 _ Hk eq_refl eq_refl eq_refl).
Defined.

Lemma normalize_verdict_witness :
  normalize purpose_reply purpose_rule = Return (pass_verdict purpose_rule)
  /\ rule (pass_verdict purpose_rule) = purpose_rule
  /\ (status (pass_verdict purpose_rule) = "pass"
      \/ status (pass_verdict purpose_rule) = "fail")
  /\ (confidence (pass_verdict purpose_rule) = NaN
      \/ exists z, confidence (pass_verdict purpose_rule) = Int z /\ 0 <= z <= 100)
  /\ JSString.len (evidence (pass_verdict purpose_rule)) <= 200
  /\ ((exists result,
          JSON_parse (extractJSON (JSString.trim purpose_reply)) = inl result) ->
      JSString.len (reasoning (pass_verdict purpose_rule)) <= 200).
Proof.
  split; [reflexivity|].
  exact (normalize_verdict_invariant purpose_reply purpose_rule
           (pass_verdict purpose_rule) eq_refl).
Defined.

Lemma non_object_reply_witness :
  fifty_is_50
  /\ is_plain (JNumber (RInt 42)) = true
  /\ normalize_fields (JNumber (RInt 42)) purpose_rule
     = Return {| rule := purpose_rule;
                 status := "fail";
                 evidence := "No evidence provided";
                 reasoning := "No reasoning provided";
                 confidence := Int 50 |}
  /\ normalize_fields JNull purpose_rule
     = Throw "Cannot read properties of null (reading 'status')".
Proof.
  assert (H50 : fifty_is_50) by (split; reflexivity).
  split; [exact H50|]. split; [reflexivity|].
  exact (non_object_reply_defaults (JNumber (RInt 42)) purpose_rule H50 eq_refl).
Defined.

Lemma primitive_members_witness :
  forallb is_primitive (map snd canonical_props) = true
  /\ exists v, normalize_fields (JObject canonical_props) purpose_rule = Return v.
Proof.
  split; [reflexivity|].
  exact (primitive_members_no_throw canonical_props purpose_rule eq_refl).
Defined.

Lemma configured_sample : configured_with configured "gsk_test".
Proof. split; [reflexivity | discriminate]. Defined.

Lemma one_request_witness :
  configured_with configured "gsk_test"
  /\ snd (validateWithLLM configured stored_text purpose_rule
            (start [completion purpose_reply]))
     = {| world := snd (fetch (request_for purpose_rule)
                          (world (start [completion purpose_reply])));
          trace := (trace (start [completion purpose_reply])
                    ++ [Fetched (request_for purpose_rule)])%list |}.
Proof.
  split; [exact configured_sample|].
  exact (validateWithLLM_one_request configured "gsk_test" stored_text purpose_rule
           (start [completion purpose_reply]) configured_sample).
Defined.

Lemma batch_paced_witness :
  configured_with configured "gsk_test"
  /\ trace (snd (validate_rules configured stored_text
                   ["Has a purpose"; "Has a date"] two_replies))
     = (trace two_replies
        ++ paced (map (completion_request "gsk_test" stored_text)
                    ["Has a purpose"; "Has a date"]))%list.
Proof.
  split; [exact configured_sample|].
  exact (batch_requests_paced configured "gsk_test" stored_text
           ["Has a purpose"; "Has a date"] two_replies configured_sample).
Defined.

Lemma error_status_witness :
  validate_rule configured stored_text purpose_rule (start [])
  = (Return (error_verdict purpose_rule "fetch failed"),
     {| world := []; trace := [Fetched (request_for purpose_rule)] |})
  /\ (status (error_verdict purpose_rule "fetch failed") = "error"
      <-> exists message,
            fst (validateWithLLM configured stored_text purpose_rule (start []))
            = Throw message).
Proof.
  split; [reflexivity|].
  exact (error_status_iff_thrown configured stored_text purpose_rule (start [])
           {| world := []; trace := [Fetched (request_for purpose_rule)] |}
           (error_verdict purpose_rule "fetch failed") eq_refl).
Defined.

Lemma failed_response_witness :
  configured_with configured "gsk_test"
  /\ fst (fetch (request_for purpose_rule) (world (start [])))
     = FetchRejected "fetch failed"
  /\ exists message,
       fst (validate_rule configured stored_text purpose_rule (start []))
       = Return {| rule := purpose_rule; status := "error"; evidence := "N/A";
                   reasoning := message; confidence := Int 0 |}.
Proof.
  split; [exact configured_sample|]. split; [reflexivity|].
  apply (failed_response_error_verdict configured "gsk_test" stored_text purpose_rule
           (start []) configured_sample).
  left. exists "fetch failed". reflexivity.
Defined.

Lemma missing_choices_witness :
  configured_with configured "gsk_test"
  /\ fst (fetch (request_for purpose_rule)
            (world (start [Response true (JsonBody (JObject []))])))
     = Response true (JsonBody (JObject []))
  /\ falsy_at [] "choices"
  /\ fst (validateWithLLM configured stored_text purpose_rule
            (start [Response true (JsonBody (JObject []))]))
     = Throw "Invalid response structure from Groq".
Proof.
  split; [exact configured_sample|]. split; [reflexivity|].
  assert (Hc : falsy_at (E := engine) [] "choices") by exact I.
  split; [exact Hc|].
  exact (missing_choices_invalid_structure configured "gsk_test" stored_text purpose_rule
           (start [Response true (JsonBody (JObject []))]) [] configured_sample
           eq_refl (or_introl Hc)).
Defined.

Lemma completion_reply_witness :
  configured_with configured "gsk_test"
  /\ fst (fetch (request_for purpose_rule) (world (start [completion purpose_reply])))
     = Response true
         (JsonBody (JObject [("choices",
            JArray [JObject [("message",
                      JObject [("content", JString purpose_reply)])]])]))
  /\ fst (validateWithLLM configured stored_text purpose_rule
            (start [completion purpose_reply]))
     = match normalize purpose_reply purpose_rule with
       | Return v => Return v
       | Throw message =>
           fst (validateWithLLM_catch message (start [completion purpose_reply]))
       end.
Proof.
  split; [exact configured_sample|]. split; [reflexivity|].
  exact (completion_reply_normalized configured "gsk_test" stored_text purpose_rule
           (start [completion purpose_reply])
           [("choices", JArray [JObject [("message",
                                  JObject [("content", JString purpose_reply)])]])]
           [("message", JObject [("content", JString purpose_reply)])]
           [("content", JString purpose_reply)]
           [] purpose_reply configured_sample eq_refl eq_refl eq_refl eq_refl).
Defined.

Lemma long_document_witness :
  4000 <= JSString.len long_document
  /\ validateWithLLM configured (long_document ++ " and one page more") purpose_rule
       (start [completion purpose_reply])
     = validateWithLLM configured (long_document ++ " and another") purpose_rule
         (start [completion purpose_reply]).
Proof.
  assert (Hlen : 4000 <= JSString.len long_document) by (vm_compute; discriminate).
  split; [exact Hlen|].
  exact (document_beyond_4000_ignored configured long_document " and one page more"
           " and another" purpose_rule (start [completion purpose_reply]) Hlen).
Defined.

Lemma api_error_witness :
  configured_with configured "gsk_test"
  /\ fst (fetch (request_for purpose_rule)
            (world (start [provider_error "Rate limit reached (429)"])))
     = provider_error "Rate limit reached (429)"
  /\ fst (validateWithLLM configured stored_text purpose_rule
            (start [provider_error "Rate limit reached (429)"]))
     = Throw (if JSString.includes "Rate limit reached (429)" "401"
              then "Invalid API key"
              else if JSString.includes "Rate limit reached (429)" "429"
              then "Rate limit exceeded"
              else if JSString.includes "Rate limit reached (429)" "quota"
              then "API quota exceeded"
              else "Groq API error: " ++ "Rate limit reached (429)").
Proof.
  split; [exact configured_sample|]. split; [reflexivity|].
  apply (api_error_mapping configured "gsk_test" stored_text purpose_rule
           (start [provider_error "Rate limit reached (429)"])
           [("error", JObject [("message", JString "Rate limit reached (429)")])]
           [("message", JString "Rate limit reached (429)")]
           "Rate limit reached (429)" configured_sample);
    try reflexivity; discriminate.
Defined.


(** The second rule has no string: the first rule is sent to the provider,
    the pause is taken, and the answer is 500. *)
Lemma error_reply_witness :
  validate_handler 3 configured (upload_request policy odd_rules) two_replies
  = Some (respond 500 "Cannot convert object to primitive value",
          {| world := [completion fail_reply];
             trace := [Fetched (request_for "Has a purpose"); Waited 1000] |})
  /\ code (reply (respond (E := engine) 500 "Cannot convert object to primitive value"))
     <> 200
  /\ (code (reply (respond (E := engine) 500 "Cannot convert object to primitive value"))
      = 400 ->
      {| world := [completion fail_reply];
         trace := [Fetched (request_for "Has a purpose"); Waited 1000] |} = two_replies)
  /\ ({| world := [completion fail_reply];
         trace := [Fetched (request_for "Has a purpose"); Waited 1000] |} = two_replies
      \/ exists rules parsedRules i message,
           req_rules (upload_request policy odd_rules) = Some rules
           /\ JSON_parse rules = inl parsedRules
           /\ index_below i parsedRules = true
           /\ ToString (rule_at parsedRules i) = Throw message
           /\ respond 500 "Cannot convert object to primitive value"
              = respond 500 message).
Proof.
  split; [reflexivity|].
  assert (Hc : code (reply (respond (E := engine) 500
                              "Cannot convert object to primitive value")) <> 200)
    by discriminate.
  split; [exact Hc|].
  exact (error_reply_before_any_request 3 configured (upload_request policy odd_rules)
           two_replies (respond 500 "Cannot convert object to primitive value")
           {| world := [completion fail_reply];
              trace := [Fetched (request_for "Has a purpose"); Waited 1000] |}
           eq_refl Hc).
Defined.

Lemma server_error_witness :
  validate_handler 3 configured (upload_request lost two_rules) two_replies
  = Some (respond 500 "ENOENT: no such file or directory, open 'uploads/lost.pdf'",
          two_replies)
  /\ exists file rules message,
       req_file (upload_request lost two_rules) = Some file
       /\ req_rules (upload_request lost two_rules) = Some rules
       /\ payload (reply (respond (E := engine) 500
                            "ENOENT: no such file or directory, open 'uploads/lost.pdf'"))
          = ErrorPayload message
       /\ (JSON_parse rules = inr message
           \/ (exists parsedRules,
                  JSON_parse rules = inl parsedRules
                  /\ (rules_logged parsedRules = Throw message
                      \/ exists i, index_below i parsedRules = true
                                   /\ ToString (rule_at parsedRules i) = Throw message))
           \/ extractPdfText (Upload.path file) = Throw message).
Proof.
  split; [reflexivity|].
  exact (server_error_causes 3 configured (upload_request lost two_rules) two_replies
           (respond 500 "ENOENT: no such file or directory, open 'uploads/lost.pdf'")
           two_replies eq_refl eq_refl).
Defined.

Lemma array_of_rules_witness :
  two_rules <> EmptyString
  /\ JSON_parse two_rules = inl (JArray (map JString ["Has a purpose"; "Has a date"]))
  /\ extractPdfText (Upload.path policy) = Return stored_text
  /\ (List.length ["Has a purpose"; "Has a date"] < 3)%nat
  /\ exists results st',
       validate_handler 3 unconfigured (upload_request policy two_rules) two_replies
       = Some ({| reply := {| code := 200;
                              payload := ResultsPayload (map pushed results) |};
                  unlinked := Some (Upload.path policy) |}, st')
       /\ validate_rules unconfigured stored_text ["Has a purpose"; "Has a date"]
            two_replies
          = (Return results, st')
       /\ map rule results = ["Has a purpose"; "Has a date"].
Proof.
  assert (Hne : two_rules <> EmptyString) by (vm_compute; discriminate).
  assert (Hfuel : (List.length ["Has a purpose"; "Has a date"] < 3)%nat) by (cbn; lia).
  split; [exact Hne|]. split; [reflexivity|]. split; [reflexivity|]. split; [exact Hfuel|].
  exact (array_of_rules_answered 3 unconfigured (upload_request policy two_rules)
           two_replies policy two_rules stored_text ["Has a purpose"; "Has a date"]
           eq_refl eq_refl Hne eq_refl eq_refl Hfuel).
Defined.

Lemma string_rules_witness :
  json_text "'ab'" <> EmptyString
  /\ JSON_parse (json_text "'ab'") = inl (JString "ab")
  /\ extractPdfText (Upload.path policy) = Return stored_text
  /\ (String.length "ab" < 3)%nat
  /\ exists results st',
       validate_handler 3 configured (upload_request policy (json_text "'ab'")) two_replies
       = Some ({| reply := {| code := 200;
                              payload := ResultsPayload (map pushed results) |};
                  unlinked := Some (Upload.path policy) |}, st')
       /\ map rule results = characters "ab"
       /\ List.length results = Z.to_nat (JSString.len "ab").
Proof.
  assert (Hne : json_text "'ab'" <> EmptyString) by (vm_compute; discriminate).
  assert (Hfuel : (String.length "ab" < 3)%nat) by (cbn; lia).
  split; [exact Hne|]. split; [reflexivity|]. split; [reflexivity|]. split; [exact Hfuel|].
  exact (string_rules_walked_by_character 3 configured
           (upload_request policy (json_text "'ab'")) two_replies policy
           (json_text "'ab'") stored_text "ab" eq_refl eq_refl Hne eq_refl eq_refl Hfuel).
Defined.

End FurtherExamples.
